(** * Real-time collaboration service: block locks, edits and presence

    A shallow embedding of [packages/api/src/services/collaboration.ts]
    (the Socket.IO handlers installed by [setupCollaborationHandlers]) and
    the properties of the lock / edit / presence protocol proved about it.

    Modelling conventions.
    - JavaScript strings are [string]; [substring] follows ECMAScript
      (arguments clamped into [0, length], then swapped when start > end).
    - JavaScript numbers that the handlers use as positions, lengths and
      millisecond timestamps are integers of [Z].
    - An optional field ([position?: number]) is an [option]; [None] is
      [undefined].
    - Objects used as dictionaries ([activeUsers], [locks]) are [gmap]s.
    - The Redis client is [Redis | null]: the store is an [option]; the
      session keys [SESSION_PREFIX + roomId] and the per-user set keys
      [USER_SESSIONS_PREFIX + userId] live in two maps, indexed by what
      follows the prefix.  A session value is kept parsed (the code always
      goes through [JSON.stringify] / [JSON.parse]).  Redis commands of a
      present client succeed; key expiry ([EX], 24 hours) is not modelled.
    - Every [Date.now()] / [new Date()] call site of a handler is a field of
      the clock record handed to that handler invocation.
    - Prisma calls may throw: an invocation carries the fault it meets. *)

From Stdlib Require Import ZArith Lia.
From stdpp Require Import base option list strings gmap.

Local Open Scope Z_scope.

(** ** JavaScript strings *)

Module Js.

Fixpoint take (n : nat) (s : string) : string :=
  match n, s with
  | O, _ => EmptyString
  | S _, EmptyString => EmptyString
  | S k, String c r => String c (take k r)
  end.

Fixpoint drop (n : nat) (s : string) : string :=
  match n, s with
  | O, _ => s
  | S _, EmptyString => EmptyString
  | S k, String _ r => drop k r
  end.

Definition len (s : string) : Z := Z.of_nat (String.length s).

(** The clamping step of [String.prototype.substring]:
    [min(max(n, 0), len)]. *)
Definition clamp (s : string) (n : Z) : Z := Z.min (Z.max n 0) (len s).

(** [s.substring(start, end)]; [end = None] is the one-argument call. *)
Definition substring (s : string) (start : Z) (end_ : option Z) : string :=
  let finalStart := clamp s start in
  let finalEnd := match end_ with
                  | None => len s
                  | Some e => clamp s e
                  end in
  let from := Z.min finalStart finalEnd in
  let to := Z.max finalStart finalEnd in
  take (Z.to_nat (to - from)) (drop (Z.to_nat from) s).

(** Truthiness of an optional string: [undefined] and [""] are falsy. *)
Definition truthy_string (o : option string) : bool :=
  match o with
  | Some EmptyString | None => false
  | Some _ => true
  end.

(** Truthiness of an optional number: [undefined] and [0] are falsy. *)
Definition truthy_number (o : option Z) : bool :=
  match o with
  | Some n => negb (n =? 0)
  | None => false
  end.

Definition defined {A} (o : option A) : bool :=
  match o with Some _ => true | None => false end.

End Js.

(** ** Types and interfaces *)

Abbreviation UserId := string.
Abbreviation BlockId := string.
Abbreviation RoomId := string.
Abbreviation SocketId := string.

Inductive EntityType := sermon | series.

Inductive OperationType := insert | delete | replace.

(** [Omit<BlockEditOperation, 'userId' | 'timestamp'>], the operation as a
    client sends it. *)
Record EditRequestOp := {
  op_type : OperationType;
  op_blockId : BlockId;
  op_position : option Z;
  op_length : option Z;
  op_text : option string
}.

(** [BlockEditOperation] *)
Record BlockEditOperation := {
  beo_type : OperationType;
  beo_blockId : BlockId;
  beo_position : option Z;
  beo_length : option Z;
  beo_text : option string;
  beo_userId : UserId;
  beo_timestamp : Z
}.

(** ** The operation switch of the [block:edit] handler

    [newContent] after the [switch (operation.type)] statement, from the
    content loaded from the block. *)
Definition apply_operation (operation : EditRequestOp) (content : string) : string :=
  let newContent := content in
  match op_type operation with
  | insert =>
      match op_position operation with
      | Some position =>
          if Js.truthy_string (op_text operation) then
            Js.substring newContent 0 (Some position)
            +:+ default EmptyString (op_text operation)
            +:+ Js.substring newContent position None
          else newContent
      | None => newContent
      end
  | delete =>
      match op_position operation with
      | Some position =>
          if Js.truthy_number (op_length operation) then
            Js.substring newContent 0 (Some position)
            +:+ Js.substring newContent
                  (position + default 0 (op_length operation)) None
          else newContent
      | None => newContent
      end
  | replace =>
      match op_text operation with
      | Some text => text
      | None => newContent
      end
  end.

(** The insert operation [{type: 'insert', position, text}]. *)
Definition insert_op (blockId : BlockId) (position : Z) (text : string) : EditRequestOp :=
  {| op_type := insert; op_blockId := blockId;
     op_position := Some position; op_length := None; op_text := Some text |}.

(** The splice of [text] into [content] at an in-range index [p]. *)
Definition splice (content : string) (p : nat) (text : string) : string :=
  Js.take p content +:+ text +:+ Js.drop p content.

(** ** Constants *)

Definition LOCK_TIMEOUT : Z := 30000.
Definition OPERATIONS_MAX_LENGTH : nat := 100.

(** ** Session metadata kept in Redis *)

Record CursorPosition := {
  cp_blockId : BlockId;
  cp_position : Z
}.

(** [CollaborationUser] of [@sermonflow/types] *)
Record CollaborationUser := {
  cu_id : UserId;
  cu_name : string;
  cu_avatarUrl : option string;
  cu_cursor : option CursorPosition;
  cu_lastActivity : Z
}.

(** A value of [SessionMetadata.locks] *)
Record Lock := {
  lock_userId : UserId;
  lock_expires : Z
}.

Record SessionMetadata := {
  sm_entityType : EntityType;
  sm_entityId : string;
  sm_lastActivity : Z;
  sm_activeUsers : gmap string CollaborationUser;
  sm_operations : list BlockEditOperation;
  sm_locks : gmap string Lock
}.

Definition with_activeUsers (session : SessionMetadata)
    (users : gmap string CollaborationUser) : SessionMetadata :=
  {| sm_entityType := sm_entityType session; sm_entityId := sm_entityId session;
     sm_lastActivity := sm_lastActivity session; sm_activeUsers := users;
     sm_operations := sm_operations session; sm_locks := sm_locks session |}.

Definition with_lastActivity (session : SessionMetadata) (t : Z) : SessionMetadata :=
  {| sm_entityType := sm_entityType session; sm_entityId := sm_entityId session;
     sm_lastActivity := t; sm_activeUsers := sm_activeUsers session;
     sm_operations := sm_operations session; sm_locks := sm_locks session |}.

Definition with_operations (session : SessionMetadata)
    (ops : list BlockEditOperation) : SessionMetadata :=
  {| sm_entityType := sm_entityType session; sm_entityId := sm_entityId session;
     sm_lastActivity := sm_lastActivity session; sm_activeUsers := sm_activeUsers session;
     sm_operations := ops; sm_locks := sm_locks session |}.

Definition with_locks (session : SessionMetadata) (ls : gmap string Lock) : SessionMetadata :=
  {| sm_entityType := sm_entityType session; sm_entityId := sm_entityId session;
     sm_lastActivity := sm_lastActivity session; sm_activeUsers := sm_activeUsers session;
     sm_operations := sm_operations session; sm_locks := ls |}.

(** The contents of the Redis instance: the session records (key
    [SESSION_PREFIX + roomId]) and the sets of rooms of each user (key
    [USER_SESSIONS_PREFIX + userId]; a missing key is the empty set). *)
Record Redis := {
  sessions : gmap string SessionMetadata;
  userSessions : gmap string (gset string)
}.

(** ** The tables Prisma reaches *)

Record SermonBlock := {
  sb_content : string;
  sb_updatedAt : Z
}.

Record SermonBlockVersion := {
  sbv_blockId : BlockId;
  sbv_content : string;
  sbv_createdById : UserId
}.

Record UserProfile := {
  up_firstName : string;
  up_lastName : string;
  up_avatarUrl : option string
}.

(** A sermon or a series, as far as [checkCollaborationAccess] looks. *)
Record Document := {
  doc_createdById : UserId;
  doc_collaborators : gset string
}.

Record Database := {
  db_blocks : gmap string SermonBlock;
  db_blockVersions : list SermonBlockVersion;
  db_users : gmap string UserProfile;
  db_sermons : gmap string Document;
  db_series : gmap string Document
}.

(** ** Outgoing Socket.IO messages *)

Inductive CollaborationEvent :=
  | USER_JOINED | USER_LEFT | CURSOR_MOVED | BLOCK_CREATED
  | BLOCK_UPDATED | BLOCK_DELETED | COMMENT_ADDED | COMMENT_RESOLVED.

Inductive EventData :=
  | JoinedData (user : CollaborationUser)
  | LeftData (userId : UserId)
  | CursorData (userId : UserId) (position : CursorPosition)
  | BlockUpdatedData (blockId : BlockId) (operation : BlockEditOperation) (content : string).

(** [CollaborationEventPayload<T>] *)
Record CollaborationEventPayload := {
  cep_event : CollaborationEvent;
  cep_sessionId : RoomId;
  cep_userId : UserId;
  cep_timestamp : Z;
  cep_data : EventData
}.

Inductive ErrorDetails :=
  | LockedDetails (blockId : BlockId) (lockedBy : UserId)
  | EditErrorDetails (blockId : BlockId) (error : string).

Record ErrorPayload := {
  err_code : string;
  err_message : string;
  err_details : option ErrorDetails
}.

Record SessionSnapshot := {
  ss_id : RoomId;
  ss_entityType : EntityType;
  ss_entityId : string;
  ss_activeUsers : list CollaborationUser;
  ss_lastActivity : Z
}.

(** The event name and its payload: ['error'], ['session'], ['collaboration']. *)
Inductive Message :=
  | ErrorMsg (e : ErrorPayload)
  | SessionMsg (snapshot : SessionSnapshot)
  | CollaborationMsg (payload : CollaborationEventPayload).

(** [socket.emit], [io.to(room).emit] and [socket.to(room).emit]. *)
Inductive Target :=
  | ToSocket (socket : SocketId)
  | ToRoom (room : RoomId)
  | ToRoomExcept (room : RoomId) (socket : SocketId).

(** One [emit] call: where it was addressed, the connections Socket.IO hands
    it to at that moment, and the message. *)
Record Delivery := {
  dl_target : Target;
  dl_recipients : gset string;
  dl_message : Message
}.

(** ** The world a handler runs in, and the handler monad *)

Record World := {
  redis : option Redis;                (* [redis: Redis | null] and its contents *)
  prisma : Database;
  rooms : gmap string (gset string);   (* Socket.IO room membership *)
  outbox : list Delivery               (* every emit so far, oldest first *)
}.

Definition set_redis (w : World) (r : option Redis) : World :=
  {| redis := r; prisma := prisma w; rooms := rooms w; outbox := outbox w |}.

Definition set_prisma (w : World) (d : Database) : World :=
  {| redis := redis w; prisma := d; rooms := rooms w; outbox := outbox w |}.

Definition set_rooms (w : World) (rs : gmap string (gset string)) : World :=
  {| redis := redis w; prisma := prisma w; rooms := rs; outbox := outbox w |}.

Definition set_outbox (w : World) (o : list Delivery) : World :=
  {| redis := redis w; prisma := prisma w; rooms := rooms w; outbox := o |}.

(** What a [catch (error)] clause receives: [Some m] is an [Error] with message
    [m], [None] a thrown value that is not an [Error]. *)
Definition Thrown : Type := option string.

Inductive Result (A : Type) :=
  | Ok (a : A)
  | Throw (e : Thrown).
Arguments Ok {A} a.
Arguments Throw {A} e.

(** A handler body: it reads and writes the world and may throw; writes made
    before a throw stay. *)
Definition M (A : Type) : Type := World -> Result A * World.

#[export] Instance M_ret : MRet M := fun A a w => (Ok a, w).

#[export] Instance M_bind : MBind M := fun A B k c w =>
  match c w with
  | (Ok a, w') => k a w'
  | (Throw e, w') => (Throw e, w')
  end.

Definition throw {A} (e : Thrown) : M A := fun w => (Throw e, w).

(** [try { body } catch (error) { handler error }] *)
Definition try_catch {A} (body : M A) (handler : Thrown -> M A) : M A := fun w =>
  match body w with
  | (Ok a, w') => (Ok a, w')
  | (Throw e, w') => handler e w'
  end.

(** The world after running a handler body. *)
Definition exec {A} (c : M A) (w : World) : World := snd (c w).

(** *** Redis commands *)

(** [if (redis)] *)
Definition redis_available : M bool := fun w => (Ok (Js.defined (redis w)), w).

(** A command on the client; on the [null] client the call is a [TypeError]. *)
Definition redis_command {A} (f : Redis -> A * Redis) : M A := fun w =>
  match redis w with
  | Some r => let '(a, r') := f r in (Ok a, set_redis w (Some r'))
  | None => (Throw (Some "Cannot read properties of null"), w)
  end.

Definition smembers (r : Redis) (userId : UserId) : gset string :=
  default ∅ (userSessions r !! userId).

Definition redis_get (roomId : RoomId) : M (option SessionMetadata) :=
  redis_command (fun r => (sessions r !! roomId, r)).

Definition redis_set (roomId : RoomId) (session : SessionMetadata) : M unit :=
  redis_command (fun r =>
    (tt, {| sessions := <[roomId := session]> (sessions r);
            userSessions := userSessions r |})).

Definition redis_del (roomId : RoomId) : M unit :=
  redis_command (fun r =>
    (tt, {| sessions := base.delete roomId (sessions r);
            userSessions := userSessions r |})).

Definition redis_sadd (userId : UserId) (roomId : RoomId) : M unit :=
  redis_command (fun r =>
    (tt, {| sessions := sessions r;
            userSessions := <[userId := {[roomId]} ∪ smembers r userId]> (userSessions r) |})).

Definition redis_srem (userId : UserId) (roomId : RoomId) : M unit :=
  redis_command (fun r =>
    let rest := smembers r userId ∖ {[roomId]} in
    (tt, {| sessions := sessions r;
            userSessions := if decide (rest = ∅)
                            then base.delete userId (userSessions r)
                            else <[userId := rest]> (userSessions r) |})).

Definition redis_smembers (userId : UserId) : M (list string) :=
  redis_command (fun r => (elements (smembers r userId), r)).

Definition redis_del_user_sessions (userId : UserId) : M unit :=
  redis_command (fun r =>
    (tt, {| sessions := sessions r;
            userSessions := base.delete userId (userSessions r) |})).

(** [redis.keys(SESSION_PREFIX + '*')], as room ids. *)
Definition redis_session_keys : M (list string) :=
  redis_command (fun r => (elements (dom (sessions r)), r)).

(** *** Socket.IO *)

Definition members (rs : gmap string (gset string)) (roomId : RoomId) : gset string :=
  default ∅ (rs !! roomId).

(** The connections an emit reaches: [socket.to(room)] is the room without
    the sending socket. *)
Definition recipients (rs : gmap string (gset string)) (t : Target) : gset string :=
  match t with
  | ToSocket socket => {[socket]}
  | ToRoom room => members rs room
  | ToRoomExcept room socket => members rs room ∖ {[socket]}
  end.

Definition emit (t : Target) (m : Message) : M unit := fun w =>
  (Ok tt, set_outbox w (outbox w ++ [{| dl_target := t;
                                        dl_recipients := recipients (rooms w) t;
                                        dl_message := m |}])).

Definition socket_join (socket : SocketId) (roomId : RoomId) : M unit := fun w =>
  (Ok tt, set_rooms w (<[roomId := {[socket]} ∪ members (rooms w) roomId]> (rooms w))).

Definition socket_leave (socket : SocketId) (roomId : RoomId) : M unit := fun w =>
  (Ok tt, set_rooms w (<[roomId := members (rooms w) roomId ∖ {[socket]}]> (rooms w))).

(** *** Prisma calls *)

(** A Prisma call either meets the fault of this invocation and throws, or
    runs on the tables. *)
Definition prisma_call {A} (fault : option Thrown)
    (f : Database -> Result A * Database) : M A := fun w =>
  match fault with
  | Some e => (Throw e, w)
  | None => let '(r, d) := f (prisma w) in (r, set_prisma w d)
  end.

Definition set_blocks (d : Database) (bs : gmap string SermonBlock) : Database :=
  {| db_blocks := bs; db_blockVersions := db_blockVersions d; db_users := db_users d;
     db_sermons := db_sermons d; db_series := db_series d |}.

Definition set_blockVersions (d : Database) (vs : list SermonBlockVersion) : Database :=
  {| db_blocks := db_blocks d; db_blockVersions := vs; db_users := db_users d;
     db_sermons := db_sermons d; db_series := db_series d |}.

(** [prisma.sermonBlock.findUnique({ where: { id } })] *)
Definition sermonBlock_findUnique (fault : option Thrown) (blockId : BlockId)
    : M (option SermonBlock) :=
  prisma_call fault (fun d => (Ok (db_blocks d !! blockId), d)).

(** [prisma.sermonBlock.update({ where: { id }, data: { content, updatedAt } })];
    Prisma throws when the record is not there. *)
Definition sermonBlock_update (fault : option Thrown) (blockId : BlockId)
    (content : string) (updatedAt : Z) : M unit :=
  prisma_call fault (fun d =>
    match db_blocks d !! blockId with
    | Some _ =>
        (Ok tt, set_blocks d (<[blockId := {| sb_content := content;
                                              sb_updatedAt := updatedAt |}]> (db_blocks d)))
    | None => (Throw (Some "Record to update not found."), d)
    end).

(** [prisma.sermonBlockVersion.create({ data })] *)
Definition sermonBlockVersion_create (fault : option Thrown)
    (version : SermonBlockVersion) : M unit :=
  prisma_call fault (fun d =>
    (Ok tt, set_blockVersions d (db_blockVersions d ++ [version]))).

(** ** The connection and the [block:edit] request *)

(** A connected socket with the [auth] data the middleware attached. *)
Record Socket := {
  socket_id : SocketId;
  auth_userId : UserId
}.

Record BlockEditData := {
  bed_entityType : EntityType;
  bed_entityId : string;
  bed_blockId : BlockId;
  bed_operation : EditRequestOp
}.

(** The clock readings of one [block:edit] invocation, one per call site. *)
Record EditClock := {
  at_lock_check : Z;        (* [expires > Date.now()] *)
  at_lock : Z;              (* [expires: Date.now() + LOCK_TIMEOUT] *)
  at_operation : Z;         (* [timestamp] of the logged operation *)
  at_update : Z;            (* [updatedAt: new Date()] *)
  at_payload : Z;           (* [timestamp] of the broadcast payload *)
  at_payload_operation : Z  (* [timestamp] of the operation in the payload *)
}.

(** The Prisma call of the invocation that throws, if any. *)
Record EditFaults := {
  find_fault : option Thrown;
  update_fault : option Thrown;
  version_fault : option Thrown
}.

Definition no_faults : EditFaults :=
  {| find_fault := None; update_fault := None; version_fault := None |}.

Definition entity_type_name (t : EntityType) : string :=
  match t with sermon => "sermon" | series => "series" end.

(** [`${entityType}:${entityId}`] *)
Definition room_id (t : EntityType) (entityId : string) : RoomId :=
  entity_type_name t +:+ ":" +:+ entityId.
Arguments room_id : simpl never.

(** [{ ...operation, blockId, userId, timestamp }] *)
Definition full_operation (operation : EditRequestOp) (blockId : BlockId)
    (userId : UserId) (timestamp : Z) : BlockEditOperation :=
  {| beo_type := op_type operation; beo_blockId := blockId;
     beo_position := op_position operation; beo_length := op_length operation;
     beo_text := op_text operation; beo_userId := userId; beo_timestamp := timestamp |}.

(** The lock test of [block:edit]: the holder, when [session.locks[blockId]]
    exists, belongs to someone else and [expires > now]. *)
Definition locked_by_other (session : SessionMetadata) (blockId : BlockId)
    (userId : UserId) (now : Z) : option UserId :=
  match sm_locks session !! blockId with
  | Some lock =>
      if bool_decide (lock_userId lock ≠ userId) && (now <? lock_expires lock)
      then Some (lock_userId lock)
      else None
  | None => None
  end.

(** [operations.push(op)] followed by the [slice(-OPERATIONS_MAX_LENGTH)] trim. *)
Definition push_operation (ops : list BlockEditOperation) (op : BlockEditOperation)
    : list BlockEditOperation :=
  let ops' := ops ++ [op] in
  if (OPERATIONS_MAX_LENGTH <? length ops')%nat
  then drop (length ops' - OPERATIONS_MAX_LENGTH) ops'
  else ops'.

(** The session [block:edit] writes back when the block is free. *)
Definition lock_block (session : SessionMetadata) (blockId : BlockId) (userId : UserId)
    (operation : EditRequestOp) (clk : EditClock) : SessionMetadata :=
  let locked :=
    with_locks session
      (<[blockId := {| lock_userId := userId;
                       lock_expires := at_lock clk + LOCK_TIMEOUT |}]> (sm_locks session)) in
  with_operations locked
    (push_operation (sm_operations locked)
       (full_operation operation blockId userId (at_operation clk))).

(** ** The [block:edit] handler *)

Definition block_locked_error (blockId : BlockId) (holder : UserId) : Message :=
  ErrorMsg {| err_code := "BLOCK_LOCKED";
              err_message := "This block is currently being edited by another user";
              err_details := Some (LockedDetails blockId holder) |}.

(** What follows [JSON.parse(sessionData)] in the lock section: the test, the
    [BLOCK_LOCKED] error and early [return] ([false]), or the lock, the logged
    operation and the [redis.set] ([true]). *)
Definition edit_check_and_lock (socket : Socket) (clk : EditClock)
    (data : BlockEditData) (session : SessionMetadata) : M bool :=
  let roomId := room_id (bed_entityType data) (bed_entityId data) in
  let blockId := bed_blockId data in
  match locked_by_other session blockId (auth_userId socket) (at_lock_check clk) with
  | Some holder =>
      emit (ToSocket (socket_id socket)) (block_locked_error blockId holder);;
      mret false
  | None =>
      redis_set roomId
        (lock_block session blockId (auth_userId socket) (bed_operation data) clk);;
      mret true
  end.

(** The [if (redis) { ... }] section that opens the handler. *)
Definition edit_acquire (socket : Socket) (clk : EditClock) (data : BlockEditData)
    : M bool :=
  let roomId := room_id (bed_entityType data) (bed_entityId data) in
  available ← redis_available;
  if (available : bool) then
    sessionData ← redis_get roomId;
    match sessionData with
    | Some session => edit_check_and_lock socket clk data session
    | None => mret true
    end
  else mret true.

(** [session.locks[blockId]?.userId === auth.userId] *)
Definition held_by (session : SessionMetadata) (blockId : BlockId) (userId : UserId)
    : bool :=
  match sm_locks session !! blockId with
  | Some lock => bool_decide (lock_userId lock = userId)
  | None => false
  end.

(** The "Release the lock" part of the inner [catch]. *)
Definition edit_release (socket : Socket) (data : BlockEditData) : M unit :=
  let roomId := room_id (bed_entityType data) (bed_entityId data) in
  let blockId := bed_blockId data in
  available ← redis_available;
  if (available : bool) then
    sessionData ← redis_get roomId;
    match sessionData with
    | Some session =>
        if held_by session blockId (auth_userId socket)
        then redis_set roomId
               (with_locks session (base.delete blockId (sm_locks session)))
        else mret tt
    | None => mret tt
    end
  else mret tt.

Definition edit_error (blockId : BlockId) (error : Thrown) : Message :=
  ErrorMsg {| err_code := "EDIT_ERROR";
              err_message := "Failed to apply edit operation";
              err_details :=
                Some (EditErrorDetails blockId (default "Unknown error" error)) |}.

Definition block_updated (socket : Socket) (clk : EditClock) (data : BlockEditData)
    (newContent : string) : Message :=
  CollaborationMsg
    {| cep_event := BLOCK_UPDATED;
       cep_sessionId := room_id (bed_entityType data) (bed_entityId data);
       cep_userId := auth_userId socket;
       cep_timestamp := at_payload clk;
       cep_data :=
         BlockUpdatedData (bed_blockId data)
           (full_operation (bed_operation data) (bed_blockId data)
              (auth_userId socket) (at_payload_operation clk))
           newContent |}.

(** The inner [try]: load the block, apply the operation, update the block,
    record the version, broadcast. *)
Definition edit_persist (socket : Socket) (clk : EditClock) (faults : EditFaults)
    (data : BlockEditData) : M unit :=
  let roomId := room_id (bed_entityType data) (bed_entityId data) in
  let blockId := bed_blockId data in
  block ← sermonBlock_findUnique (find_fault faults) blockId;
  match block with
  | None => throw (Some ("Block not found: " +:+ blockId))
  | Some block =>
      let newContent := apply_operation (bed_operation data) (sb_content block) in
      sermonBlock_update (update_fault faults) blockId newContent (at_update clk);;
      sermonBlockVersion_create (version_fault faults)
        {| sbv_blockId := blockId; sbv_content := newContent;
           sbv_createdById := auth_userId socket |};;
      emit (ToRoom roomId) (block_updated socket clk data newContent)
  end.

(** The inner [try ... catch]. *)
Definition edit_apply (socket : Socket) (clk : EditClock) (faults : EditFaults)
    (data : BlockEditData) : M unit :=
  try_catch (edit_persist socket clk faults data)
    (fun error =>
       emit (ToSocket (socket_id socket)) (edit_error (bed_blockId data) error);;
       edit_release socket data).

Definition process_error : Message :=
  ErrorMsg {| err_code := "EDIT_ERROR";
              err_message := "Failed to process edit operation";
              err_details := None |}.

(** [socket.on('block:edit', async (data) => { ... })] *)
Definition block_edit (socket : Socket) (clk : EditClock) (faults : EditFaults)
    (data : BlockEditData) : M unit :=
  try_catch
    (proceed ← edit_acquire socket clk data;
     if (proceed : bool) then edit_apply socket clk faults data else mret tt)
    (fun _ => emit (ToSocket (socket_id socket)) process_error).

(** ** The [join] handler *)

Record JoinData := {
  jd_entityType : EntityType;
  jd_entityId : string;
  jd_displayName : option string
}.

Record JoinClock := {
  at_user_activity : Z;     (* [lastActivity] of the collaboration user *)
  at_session_activity : Z;  (* [lastActivity] of the session *)
  at_join_payload : Z;      (* [timestamp] of the join payload *)
  at_minimal_session : Z    (* [lastActivity] of the session sent without Redis *)
}.

Record JoinFaults := {
  access_fault : option Thrown;
  user_fault : option Thrown
}.

(** [checkCollaborationAccess]: creator or collaborator of the sermon or
    series; any error is logged and answered with [false]. *)
Definition checkCollaborationAccess (fault : option Thrown) (userId : UserId)
    (entityType : EntityType) (entityId : string) : M bool :=
  try_catch
    (doc ← prisma_call fault (fun d =>
              (Ok (match entityType with
                   | sermon => db_sermons d !! entityId
                   | series => db_series d !! entityId
                   end), d));
     match doc with
     | None => mret false
     | Some doc =>
         mret (bool_decide (doc_createdById doc = userId)
               || bool_decide (userId ∈ doc_collaborators doc))
     end)
    (fun _ => mret false).

Definition simple_error (code message : string) : Message :=
  ErrorMsg {| err_code := code; err_message := message; err_details := None |}.

(** The [CollaborationUser] built for the joining user. *)
Definition collaboration_user (userId : UserId) (user : UserProfile)
    (displayName : option string) (now : Z) : CollaborationUser :=
  {| cu_id := userId;
     cu_name := if Js.truthy_string displayName
                then default EmptyString displayName
                else up_firstName user +:+ " " +:+ up_lastName user;
     cu_avatarUrl := if Js.truthy_string (up_avatarUrl user)
                     then up_avatarUrl user else None;
     cu_cursor := None;
     cu_lastActivity := now |}.

(** [Object.values(session.activeUsers)].  JavaScript lists the users in the
    order in which they were added; the record is kept as a map, which has no
    such order, and the list here has them in the order of the map.  What is
    stated about the list is which users it has, never their order. *)
Definition active_user_list (session : SessionMetadata) : list CollaborationUser :=
  (map_to_list (sm_activeUsers session)).*2.

Definition user_joined (roomId : RoomId) (userId : UserId) (now : Z)
    (user : CollaborationUser) : Message :=
  CollaborationMsg {| cep_event := USER_JOINED; cep_sessionId := roomId;
                      cep_userId := userId; cep_timestamp := now;
                      cep_data := JoinedData user |}.

(** The "Store session data in Redis" section of [join]. *)
Definition join_store (userId : UserId) (clk : JoinClock) (data : JoinData)
    (collaborationUser : CollaborationUser) : M unit :=
  let roomId := room_id (jd_entityType data) (jd_entityId data) in
  sessionData ← redis_get roomId;
  let session :=
    match sessionData with
    | Some session =>
        with_lastActivity
          (with_activeUsers session
             (<[userId := collaborationUser]> (sm_activeUsers session)))
          (at_session_activity clk)
    | None =>
        {| sm_entityType := jd_entityType data; sm_entityId := jd_entityId data;
           sm_lastActivity := at_session_activity clk;
           sm_activeUsers := {[userId := collaborationUser]};
           sm_operations := []; sm_locks := ∅ |}
    end in
  redis_set roomId session;;
  redis_sadd userId roomId.
  (* [redis.expire] on the user's set only renews its time to live. *)

(** The "Send current session state to the joining user" section. *)
Definition join_reply (socket : Socket) (clk : JoinClock) (data : JoinData)
    (collaborationUser : CollaborationUser) : M unit :=
  let roomId := room_id (jd_entityType data) (jd_entityId data) in
  let snapshot users activity :=
    SessionMsg {| ss_id := roomId; ss_entityType := jd_entityType data;
                  ss_entityId := jd_entityId data; ss_activeUsers := users;
                  ss_lastActivity := activity |} in
  available ← redis_available;
  if (available : bool) then
    sessionData ← redis_get roomId;
    match sessionData with
    | Some session =>
        emit (ToSocket (socket_id socket))
          (snapshot (active_user_list session) (sm_lastActivity session))
    | None => mret tt
    end
  else
    emit (ToSocket (socket_id socket))
      (snapshot [collaborationUser] (at_minimal_session clk)).

(** [socket.on('join', async (data) => { ... })] *)
Definition join (socket : Socket) (clk : JoinClock) (faults : JoinFaults)
    (data : JoinData) : M unit :=
  let roomId := room_id (jd_entityType data) (jd_entityId data) in
  let userId := auth_userId socket in
  try_catch
    (hasAccess ← checkCollaborationAccess (access_fault faults) userId
                   (jd_entityType data) (jd_entityId data);
     if negb hasAccess then
       emit (ToSocket (socket_id socket))
         (simple_error "PERMISSION_DENIED"
            "You do not have permission to access this collaboration session")
     else
       socket_join (socket_id socket) roomId;;
       user ← prisma_call (user_fault faults) (fun d => (Ok (db_users d !! userId), d));
       match user with
       | None =>
           emit (ToSocket (socket_id socket)) (simple_error "USER_NOT_FOUND" "User not found")
       | Some user =>
           let collaborationUser :=
             collaboration_user userId user (jd_displayName data) (at_user_activity clk) in
           available ← redis_available;
           (if (available : bool)
            then join_store userId clk data collaborationUser
            else mret tt);;
           emit (ToRoomExcept roomId (socket_id socket))
             (user_joined roomId userId (at_join_payload clk) collaborationUser);;
           join_reply socket clk data collaborationUser
       end)
    (fun _ =>
       emit (ToSocket (socket_id socket))
         (simple_error "JOIN_ERROR" "Failed to join collaboration session")).

(** ** The [leave], [cursor] and [disconnect] handlers and the cleanup timer *)

Record RoomData := {
  rd_entityType : EntityType;
  rd_entityId : string
}.

Record CursorData_ := {
  cd_entityType : EntityType;
  cd_entityId : string;
  cd_position : CursorPosition
}.

Definition user_left (roomId : RoomId) (userId : UserId) (now : Z) : Message :=
  CollaborationMsg {| cep_event := USER_LEFT; cep_sessionId := roomId;
                      cep_userId := userId; cep_timestamp := now;
                      cep_data := LeftData userId |}.

(** The session after "Remove user from active users" and "Remove any locks
    held by this user". *)
Definition remove_user (session : SessionMetadata) (userId : UserId) : SessionMetadata :=
  with_locks
    (with_activeUsers session (base.delete userId (sm_activeUsers session)))
    (filter (fun kv => lock_userId kv.2 ≠ userId) (sm_locks session)).
Arguments remove_user : simpl never.

(** [Object.keys(session.activeUsers).length > 0] *)
Definition has_users (session : SessionMetadata) : bool :=
  (0 <? size (sm_activeUsers session))%nat.

(** [socket.on('leave', async (data) => { ... })] *)
Definition leave (socket : Socket) (now : Z) (data : RoomData) : M unit :=
  let roomId := room_id (rd_entityType data) (rd_entityId data) in
  let userId := auth_userId socket in
  try_catch
    (socket_leave (socket_id socket) roomId;;
     available ← redis_available;
     (if (available : bool) then
        sessionData ← redis_get roomId;
        match sessionData with
        | Some session =>
            let session := remove_user session userId in
            (if has_users session
             then redis_set roomId session
             else redis_del roomId);;
            redis_srem userId roomId
        | None => mret tt
        end
      else mret tt);;
     emit (ToRoom roomId) (user_left roomId userId now))
    (fun _ => mret tt).

Definition cursor_moved (roomId : RoomId) (userId : UserId) (now : Z)
    (position : CursorPosition) : Message :=
  CollaborationMsg {| cep_event := CURSOR_MOVED; cep_sessionId := roomId;
                      cep_userId := userId; cep_timestamp := now;
                      cep_data := CursorData userId position |}.

Record CursorClock := {
  at_cursor_activity : Z;
  at_cursor_payload : Z
}.

(** [socket.on('cursor', async (data) => { ... })] *)
Definition cursor (socket : Socket) (clk : CursorClock) (data : CursorData_) : M unit :=
  let roomId := room_id (cd_entityType data) (cd_entityId data) in
  let userId := auth_userId socket in
  try_catch
    (available ← redis_available;
     (if (available : bool) then
        sessionData ← redis_get roomId;
        match sessionData with
        | Some session =>
            match sm_activeUsers session !! userId with
            | Some user =>
                let user := {| cu_id := cu_id user; cu_name := cu_name user;
                               cu_avatarUrl := cu_avatarUrl user;
                               cu_cursor := Some (cd_position data);
                               cu_lastActivity := at_cursor_activity clk |} in
                redis_set roomId
                  (with_activeUsers session (<[userId := user]> (sm_activeUsers session)))
            | None => mret tt
            end
        | None => mret tt
        end
      else mret tt);;
     emit (ToRoomExcept roomId (socket_id socket))
       (cursor_moved roomId userId (at_cursor_payload clk) (cd_position data)))
    (fun _ => mret tt).

(** [for (const x of xs) { await body(x) }] *)
Fixpoint for_each {A} (xs : list A) (body : A -> M unit) : M unit :=
  match xs with
  | [] => mret tt
  | x :: rest => body x;; for_each rest body
  end.

(** The body of the loop of [disconnect] for one room of the user. *)
Definition disconnect_room (userId : UserId) (now : RoomId -> Z) (roomId : RoomId)
    : M unit :=
  sessionData ← redis_get roomId;
  match sessionData with
  | Some session =>
      let session := remove_user session userId in
      if has_users session
      then redis_set roomId session;;
           emit (ToRoom roomId) (user_left roomId userId (now roomId))
      else redis_del roomId
  | None => mret tt
  end.

(** [socket.on('disconnect', async () => { ... })]; Socket.IO has taken the
    socket out of its rooms when the event fires. *)
Definition disconnect (socket : Socket) (now : RoomId -> Z) : M unit :=
  let userId := auth_userId socket in
  (fun w => (Ok tt, set_rooms w ((fun ms => ms ∖ {[socket_id socket]}) <$> rooms w)));;
  try_catch
    (available ← redis_available;
     if (available : bool) then
       activeSessions ← redis_smembers userId;
       for_each activeSessions (disconnect_room userId now);;
       redis_del_user_sessions userId
     else mret tt)
    (fun _ => mret tt).

(** The body of the cleanup loop for one session key: locks whose
    [expires < Date.now()] go, and the session is written when one went. *)
Definition cleanup_room (now : RoomId -> BlockId -> Z) (roomId : RoomId) : M unit :=
  sessionData ← redis_get roomId;
  match sessionData with
  | Some session =>
      let kept := filter (fun kv => ¬ (lock_expires kv.2 < now roomId kv.1))
                    (sm_locks session) in
      let lockUpdated := (size kept <? size (sm_locks session))%nat in
      if lockUpdated then redis_set roomId (with_locks session kept) else mret tt
  | None => mret tt
  end.

(** The [setInterval] callback (installed only with a Redis client). *)
Definition cleanup (now : RoomId -> BlockId -> Z) : M unit :=
  try_catch
    (available ← redis_available;
     if (available : bool) then
       sessionKeys ← redis_session_keys;
       for_each sessionKeys (cleanup_room now)
     else mret tt)
    (fun _ => mret tt).

(** ** Queries on the store *)

(** [getSessionUsers] *)
Definition getSessionUsers (entityType : EntityType) (entityId : string)
    : M (list CollaborationUser) :=
  available ← redis_available;
  if negb available then mret []
  else
    try_catch
      (sessionData ← redis_get (room_id entityType entityId);
       match sessionData with
       | Some session => mret (active_user_list session)
       | None => mret []
       end)
      (fun _ => mret []).

(** [CollaborationSession] of [@sermonflow/types], as [getActiveSessions]
    fills it: the entity type is whatever string the key starts with, the
    entity id may be [undefined]. *)
Record CollaborationSession := {
  cs_id : string;
  cs_entityType : string;
  cs_entityId : option string;
  cs_activeUsers : list CollaborationUser;
  cs_lastActivity : Z
}.

(** [c === ':'] *)
Definition is_colon (c : Ascii.ascii) : bool := String.eqb (String c EmptyString) ":".

(** [s.split(':')] *)
Fixpoint split_colon (s : string) : list string :=
  match s with
  | EmptyString => [EmptyString]
  | String c rest =>
      if is_colon c then EmptyString :: split_colon rest
      else match split_colon rest with
           | part :: parts => String c part :: parts
           | [] => [String c EmptyString]
           end
  end.

(** The entry [getActiveSessions] pushes for a key: [keyParts[0]] and
    [keyParts[1]] of the key without its prefix, and the id rebuilt from them
    (the template prints a missing part as "undefined"). *)
Definition report_session (roomId : RoomId) (session : SessionMetadata)
    : CollaborationSession :=
  let keyParts := split_colon roomId in
  let entityType := default EmptyString (keyParts !! 0%nat) in
  let entityId := keyParts !! 1%nat in
  {| cs_id := entityType +:+ ":" +:+ default "undefined" entityId;
     cs_entityType := entityType;
     cs_entityId := entityId;
     cs_activeUsers := active_user_list session;
     cs_lastActivity := sm_lastActivity session |}.




(** ** The service as a transition system

    The events that reach the session store.  [run] handles them one at a
    time, each handler to its end before the next starts: [reachable] is what
    the service reaches when no two handlers overlap.  The handlers are
    [async] and give way at every [await], between reading a record and
    writing it back too; two overlapping handlers are followed stretch by
    stretch, for the lock section of [block:edit] and for [leave], further
    down. *)
Inductive Input :=
  | OnJoin (socket : Socket) (clk : JoinClock) (faults : JoinFaults) (data : JoinData)
  | OnLeave (socket : Socket) (now : Z) (data : RoomData)
  | OnCursor (socket : Socket) (clk : CursorClock) (data : CursorData_)
  | OnBlockEdit (socket : Socket) (clk : EditClock) (faults : EditFaults)
      (data : BlockEditData)
  | OnDisconnect (socket : Socket) (now : RoomId -> Z)
  | OnCleanup (now : RoomId -> BlockId -> Z).

Definition handle (i : Input) : M unit :=
  match i with
  | OnJoin socket clk faults data => join socket clk faults data
  | OnLeave socket now data => leave socket now data
  | OnCursor socket clk data => cursor socket clk data
  | OnBlockEdit socket clk faults data => block_edit socket clk faults data
  | OnDisconnect socket now => disconnect socket now
  | OnCleanup now => cleanup now
  end.

Definition run (inputs : list Input) (w : World) : World :=
  foldl (fun w i => exec (handle i) w) w inputs.

(** The service right after [setupCollaborationHandlers]: an empty Redis (or
    none), nobody connected, nothing sent. *)
Definition initial (client : bool) (d : Database) : World :=
  {| redis := if client then Some {| sessions := ∅; userSessions := ∅ |} else None;
     prisma := d; rooms := ∅; outbox := [] |}.

Definition reachable (w : World) : Prop :=
  exists client d inputs, w = run inputs (initial client d).

(** ** Interleaved lock acquisition

    The lock section of [block:edit] awaits [redis.get] and later
    [redis.set]; another handler may run in between.  An attempt is at one of
    three points. *)
Inductive Attempt :=
  | BeforeGet
  | AfterGet (sessionData : option SessionMetadata)
  | Settled (proceed : bool).

(** One uninterrupted stretch of the lock section. *)
Definition acquire_step (socket : Socket) (clk : EditClock) (data : BlockEditData)
    (a : Attempt) : M Attempt :=
  match a with
  | BeforeGet =>
      available ← redis_available;
      if (available : bool) then
        sessionData ← redis_get (room_id (bed_entityType data) (bed_entityId data));
        mret (AfterGet sessionData)
      else mret (Settled true)
  | AfterGet (Some session) =>
      proceed ← edit_check_and_lock socket clk data session;
      mret (Settled proceed)
  | AfterGet None => mret (Settled true)
  | Settled proceed => mret (Settled proceed)
  end.

(** A request of the race: who, when, what. *)
Record Request := {
  rq_socket : Socket;
  rq_clock : EditClock;
  rq_data : BlockEditData
}.

(** Two attempts under a schedule: [false] lets the first one take its next
    stretch, [true] the second. *)
Fixpoint interleave (r1 r2 : Request) (schedule : list bool) (a1 a2 : Attempt)
    : M (Attempt * Attempt) :=
  match schedule with
  | [] => mret (a1, a2)
  | false :: rest =>
      a1' ← acquire_step (rq_socket r1) (rq_clock r1) (rq_data r1) a1;
      interleave r1 r2 rest a1' a2
  | true :: rest =>
      a2' ← acquire_step (rq_socket r2) (rq_clock r2) (rq_data r2) a2;
      interleave r1 r2 rest a1 a2'
  end.

(** The session record of a room in the world, if there is a client and a
    record. *)
Definition session_of (w : World) (roomId : RoomId) : option SessionMetadata :=
  r ← redis w; sessions r !! roomId.

(** The content of a block in the database. *)
Definition content_of (w : World) (blockId : BlockId) : option string :=
  sb_content <$> db_blocks (prisma w) !! blockId.

(** The deliveries a handler added to the outbox. *)
Definition sent {A} (c : M A) (w : World) : list Delivery :=
  drop (length (outbox w)) (outbox (exec c w)).

(** The kinds of message. *)
Definition is_block_locked (m : Message) : bool :=
  match m with
  | ErrorMsg e => bool_decide (err_code e = "BLOCK_LOCKED")
  | _ => false
  end.

Definition is_error (m : Message) : bool :=
  match m with ErrorMsg _ => true | _ => false end.

Definition is_collaboration (m : Message) : bool :=
  match m with CollaborationMsg _ => true | _ => false end.

(** The inner [try] of [block:edit] meets a failure: a Prisma call throws or
    the block is not there. *)
Definition persistence_fails (faults : EditFaults) (w : World) (blockId : BlockId) : Prop :=
  find_fault faults <> None \/ db_blocks (prisma w) !! blockId = None
  \/ update_fault faults <> None \/ version_fault faults <> None.

(** A message handed to the sending connection alone. *)
Definition to_socket_only (socket : Socket) (m : Message) : Delivery :=
  {| dl_target := ToSocket (socket_id socket);
     dl_recipients := {[socket_id socket]};
     dl_message := m |}.

(** The store after the "Release the lock" section of [block:edit]. *)
Definition release_lock (roomId : RoomId) (blockId : BlockId) (userId : UserId)
    (r : Redis) : Redis :=
  match sessions r !! roomId with
  | Some session =>
      if held_by session blockId userId
      then {| sessions := <[roomId := with_locks session
                                        (base.delete blockId (sm_locks session))]>
                            (sessions r);
              userSessions := userSessions r |}
      else r
  | None => r
  end.

(** A delivery reaches exactly the members of the room other than the
    sending connection. *)
Definition excludes_origin (rs : gmap string (gset string)) (roomId : RoomId)
    (socket : Socket) (d : Delivery) : Prop :=
  forall s, s ∈ dl_recipients d <-> s ∈ members rs roomId /\ s <> socket_id socket.

(** ** Interleaved leaves

    [leave] awaits [redis.get] and writes the record (or deletes it) later;
    another handler may run in between.  A leave is at one of three points. *)
Inductive Leaving :=
  | BeforeRead
  | AfterRead (sessionData : option SessionMetadata)
  | Gone.

(** One uninterrupted stretch of [leave]: up to the answer of [redis.get], and
    from there to the end. *)
Definition leave_step (socket : Socket) (now : Z) (data : RoomData) (l : Leaving)
    : M Leaving :=
  let roomId := room_id (rd_entityType data) (rd_entityId data) in
  let userId := auth_userId socket in
  let notify := emit (ToRoom roomId) (user_left roomId userId now) in
  match l with
  | BeforeRead =>
      socket_leave (socket_id socket) roomId;;
      available ← redis_available;
      if (available : bool) then
        sessionData ← redis_get roomId;
        mret (AfterRead sessionData)
      else notify;; mret Gone
  | AfterRead (Some session) =>
      let session := remove_user session userId in
      (if has_users session
       then redis_set roomId session
       else redis_del roomId);;
      redis_srem userId roomId;;
      notify;; mret Gone
  | AfterRead None => notify;; mret Gone
  | Gone => mret Gone
  end.



(** ** Presence in the store

    The users a session record lists, and the two facts the handlers keep
    about them: a stored record lists somebody, and the room of a record is in
    the room set of every user it lists. *)
Definition present (r : Redis) (roomId : RoomId) : option (gset string) :=
  (fun session => dom (sm_activeUsers session)) <$> sessions r !! roomId.

Definition store_ok (r : Redis) : Prop :=
  forall roomId users,
    present r roomId = Some users ->
    users <> ∅ /\ forall userId, userId ∈ users -> roomId ∈ smembers r userId.

Definition world_ok (w : World) : Prop :=
  forall r, redis w = Some r -> store_ok r.

(** Two stores that list the same users everywhere. *)
Definition same_presence (r r' : Redis) : Prop :=
  userSessions r' = userSessions r
  /\ forall roomId, present r' roomId = present r roomId.

Definition world_same_presence (w w' : World) : Prop :=
  match redis w, redis w' with
  | Some r, Some r' => same_presence r r'
  | None, None => True
  | _, _ => False
  end.

(** The store after the loop body of [disconnect] for one room. *)
Definition drop_user (userId : UserId) (r : Redis) (roomId : RoomId) : Redis :=
  match sessions r !! roomId with
  | Some session =>
      {| sessions := if has_users (remove_user session userId)
                     then <[roomId := remove_user session userId]> (sessions r)
                     else base.delete roomId (sessions r);
         userSessions := userSessions r |}
  | None => r
  end.

(** An operation that lacks a field its case of the switch needs (or has it
    falsy). *)
Definition missing_fields (operation : EditRequestOp) : Prop :=
  match op_type operation with
  | insert =>
      op_position operation = None \/ op_text operation = None
      \/ op_text operation = Some EmptyString
  | delete =>
      op_position operation = None \/ op_length operation = None
      \/ op_length operation = Some 0
  | replace => op_text operation = None
  end.

(** ** A worked scenario

    Users A and B on document D1 with the empty block b1. *)

Definition alice : Socket := {| socket_id := "socket-a"; auth_userId := "A" |}.
Definition bob : Socket := {| socket_id := "socket-b"; auth_userId := "B" |}.

Definition clock_at (t : Z) : EditClock :=
  {| at_lock_check := t; at_lock := t; at_operation := t; at_update := t;
     at_payload := t; at_payload_operation := t |}.

Definition edit_b1 (operation : EditRequestOp) : BlockEditData :=
  {| bed_entityType := sermon; bed_entityId := "D1"; bed_blockId := "b1";
     bed_operation := operation |}.

Definition participant (userId : UserId) : CollaborationUser :=
  {| cu_id := userId; cu_name := userId; cu_avatarUrl := None; cu_cursor := None;
     cu_lastActivity := 0 |}.

Definition demo_db (content : string) : Database :=
  {| db_blocks := {[ "b1" := {| sb_content := content; sb_updatedAt := 0 |} ]};
     db_blockVersions := [];
     db_users := {[ "A" := {| up_firstName := "Ann"; up_lastName := "Lee";
                              up_avatarUrl := None |};
                    "B" := {| up_firstName := "Bo"; up_lastName := "Ray";
                              up_avatarUrl := None |} ]};
     db_sermons := {[ "D1" := {| doc_createdById := "A";
                                 doc_collaborators := {[ "B" ]} |} ]};
     db_series := ∅ |}.

(** The session of D1 with both users present and the given locks. *)
Definition demo_session (ls : gmap string Lock) : SessionMetadata :=
  {| sm_entityType := sermon; sm_entityId := "D1"; sm_lastActivity := 0;
     sm_activeUsers := {[ "A" := participant "A"; "B" := participant "B" ]};
     sm_operations := []; sm_locks := ls |}.

Definition demo_rooms : gmap string (gset string) :=
  {[ "sermon:D1" := {[ "socket-a"; "socket-b" ]} ]}.

Definition demo_world (ls : gmap string Lock) (content : string) : World :=
  {| redis := Some {| sessions := {[ "sermon:D1" := demo_session ls ]};
                      userSessions := {[ "A" := {[ "sermon:D1" ]};
                                         "B" := {[ "sermon:D1" ]} ]} |};
     prisma := demo_db content;
     rooms := demo_rooms;
     outbox := [] |}.


(** A holds the lock on b1 until 31000. *)
Definition lock_of_A : gmap string Lock :=
  {[ "b1" := {| lock_userId := "A"; lock_expires := 31000 |} ]}.

(** Prisma's update throws. *)
Definition failing_update : EditFaults :=
  {| find_fault := None; update_fault := Some (Some "connection lost");
     version_fault := None |}.

(** A delete without length, as a client may send it. *)
Definition delete_without_length : EditRequestOp :=
  {| op_type := delete; op_blockId := "b1"; op_position := Some 1;
     op_length := None; op_text := None |}.

Definition join_D1 : JoinData :=
  {| jd_entityType := sermon; jd_entityId := "D1"; jd_displayName := None |}.

Definition join_clock_at (t : Z) : JoinClock :=
  {| at_user_activity := t; at_session_activity := t; at_join_payload := t;
     at_minimal_session := t |}.

Definition no_join_faults : JoinFaults := {| access_fault := None; user_fault := None |}.

Definition cursor_in_b1 : CursorData_ :=
  {| cd_entityType := sermon; cd_entityId := "D1";
     cd_position := {| cp_blockId := "b1"; cp_position := 3 |} |}.

(** A and B both ask for b1, one millisecond apart. *)
Definition request_of_A : Request :=
  {| rq_socket := alice; rq_clock := clock_at 1000;
     rq_data := edit_b1 (insert_op "b1" 0 "Grace") |}.

Definition request_of_B : Request :=
  {| rq_socket := bob; rq_clock := clock_at 1001;
     rq_data := edit_b1 (insert_op "b1" 0 "Peace") |}.

(** A joins D1 on a fresh service. *)
Definition after_A_joined : World :=
  run [OnJoin alice (join_clock_at 10) no_join_faults join_D1]
    (initial true (demo_db EmptyString)).

Definition leave_D1 : RoomData := {| rd_entityType := sermon; rd_entityId := "D1" |}.

(** A joins D1 on a fresh service and inserts "Grace" into b1 at 1000, which
    gives A the lock on b1 until 31000. *)
Definition A_editing_b1 : World :=
  run [OnJoin alice (join_clock_at 10) no_join_faults join_D1;
       OnBlockEdit alice (clock_at 1000) no_faults (edit_b1 (insert_op "b1" 0 "Grace"))]
    (initial true (demo_db EmptyString)).



(** The delete operation [{type: 'delete', position, length}]. *)
Definition delete_op (blockId : BlockId) (position length : Z) : EditRequestOp :=
  {| op_type := delete; op_blockId := blockId;
     op_position := Some position; op_length := Some length; op_text := None |}.

(** The row [checkCollaborationAccess] looks up, and its verdict on it. *)
Definition document_of (d : Database) (entityType : EntityType) (entityId : string)
    : option Document :=
  match entityType with
  | sermon => db_sermons d !! entityId
  | series => db_series d !! entityId
  end.

Definition may_collaborate (d : Database) (userId : UserId) (entityType : EntityType)
    (entityId : string) : Prop :=
  exists doc, document_of d entityType entityId = Some doc
              /\ (doc_createdById doc = userId \/ userId ∈ doc_collaborators doc).

(** The participant record [cursor] writes back. *)
Definition with_cursor (user : CollaborationUser) (position : CursorPosition) (now : Z)
    : CollaborationUser :=
  {| cu_id := cu_id user; cu_name := cu_name user; cu_avatarUrl := cu_avatarUrl user;
     cu_cursor := Some position; cu_lastActivity := now |}.

(** The session the cleanup timer leaves: the locks whose [expires] is not
    before the clock reading stay. *)
Definition sweep (now : BlockId -> Z) (session : SessionMetadata) : SessionMetadata :=
  with_locks session
    (filter (fun kv => ¬ (lock_expires kv.2 < now kv.1)) (sm_locks session)).

(** The store after the loop body of the cleanup timer for one key. *)
Definition sweep_room (now : RoomId -> BlockId -> Z) (r : Redis) (roomId : RoomId) : Redis :=
  match sessions r !! roomId with
  | Some session =>
      {| sessions := <[roomId := sweep (now roomId) session]> (sessions r);
         userSessions := userSessions r |}
  | None => r
  end.

(** ** Properties of session records

    A property of the record stored for a room holds of every record in the
    world; it is kept by the handlers when the record [join] creates has it
    and the four updates the handlers make keep it. *)
Definition sessions_satisfy (P : RoomId -> SessionMetadata -> Prop) (w : World) : Prop :=
  forall roomId session, session_of w roomId = Some session -> P roomId session.

Definition kept_by_updates (P : RoomId -> SessionMetadata -> Prop) : Prop :=
  (forall entityType entityId now userId me,
     cu_id me = userId ->
     P (room_id entityType entityId)
       {| sm_entityType := entityType; sm_entityId := entityId; sm_lastActivity := now;
          sm_activeUsers := {[userId := me]}; sm_operations := []; sm_locks := ∅ |})
  /\ (forall roomId session userId me,
        cu_id me = userId ->
        P roomId session ->
        P roomId (with_activeUsers session (<[userId := me]> (sm_activeUsers session))))
  /\ (forall roomId session userId user position now,
        sm_activeUsers session !! userId = Some user ->
        P roomId session ->
        P roomId (with_activeUsers session
                    (<[userId := with_cursor user position now]> (sm_activeUsers session))))
  /\ (forall roomId session userId,
        P roomId session ->
        P roomId (with_activeUsers session (base.delete userId (sm_activeUsers session))))
  /\ (forall roomId session ls, P roomId session -> P roomId (with_locks session ls))
  /\ (forall roomId session now,
        P roomId session -> P roomId (with_lastActivity session now))
  /\ (forall roomId session op,
        P roomId session ->
        P roomId (with_operations session (push_operation (sm_operations session) op))).

(** C has no part in D1. *)
Definition carol : Socket := {| socket_id := "socket-c"; auth_userId := "C" |}.

(** The store of [demo_world]. *)
Definition demo_store (ls : gmap string Lock) : Redis :=
  {| sessions := {[ "sermon:D1" := demo_session ls ]};
     userSessions := {[ "A" := {[ "sermon:D1" ]}; "B" := {[ "sermon:D1" ]} ]} |}.

(** An edit of b1 sent under the name of another document. *)
Definition edit_b1_as_D2 (operation : EditRequestOp) : BlockEditData :=
  {| bed_entityType := sermon; bed_entityId := "D2"; bed_blockId := "b1";
     bed_operation := operation |}.

Definition cursor_clock_at (t : Z) : CursorClock :=
  {| at_cursor_activity := t; at_cursor_payload := t |}.

(** ** The client's list of active users

    The ['collaboration'] listener of [SocketProvider]
    ([apps/web/src/components/providers/socket-provider.tsx]) as a function
    on the [activeUsers] state.  The listener starts with
    [if (!isMounted.current) return;]: the value of the ref when the message
    arrives is an argument.  A payload pairs its event with the data of that
    event. *)

(** [prev.some(u => u.id === id)] *)
Definition listed (id : UserId) (users : list CollaborationUser) : bool :=
  existsb (fun u => bool_decide (cu_id u = id)) users.

(** The ['collaboration'] listener: nothing when the ref is [false], else the
    state update of the event. *)
Definition on_collaboration (isMounted : bool) (now : Z)
    (payload : CollaborationEventPayload) (prev : list CollaborationUser)
    : list CollaborationUser :=
  if negb isMounted then prev
  else
    match cep_event payload, cep_data payload with
    | USER_JOINED, JoinedData user =>
        if listed (cu_id user) prev then prev else prev ++ [user]
    | USER_LEFT, LeftData userId =>
        filter (fun u => cu_id u ≠ userId) prev
    | CURSOR_MOVED, CursorData userId position =>
        (fun user => if bool_decide (cu_id user = userId)
                     then with_cursor user position now
                     else user) <$> prev
    | _, _ => prev
    end.

(** The ids of a list of users. *)
Definition shown_ids (users : list CollaborationUser) : list UserId := cu_id <$> users.

(** A list names exactly the users a record lists. *)
Definition shows (users : list CollaborationUser)
    (record : gmap string CollaborationUser) : Prop :=
  forall id, id ∈ shown_ids users <-> is_Some (record !! id).

(** The record [join] writes for the room. *)
Definition joined_session (r : Redis) (userId : UserId) (clk : JoinClock) (data : JoinData)
    (me : CollaborationUser) : SessionMetadata :=
  match sessions r !! room_id (jd_entityType data) (jd_entityId data) with
  | Some session =>
      with_lastActivity
        (with_activeUsers session (<[userId := me]> (sm_activeUsers session)))
        (at_session_activity clk)
  | None =>
      {| sm_entityType := jd_entityType data; sm_entityId := jd_entityId data;
         sm_lastActivity := at_session_activity clk;
         sm_activeUsers := {[userId := me]};
         sm_operations := []; sm_locks := ∅ |}
  end.

(** * The block and comment handlers

    [block:create], [block:delete], [comment:add] and [comment:resolve] never
    touch Redis.  They reach more tables, and more columns of the block table,
    than the editing handlers read, so they run in a world of their own: the
    tables of [schema.prisma] they reach, the Socket.IO rooms, and the
    messages emitted.  Generated ids ([@default(cuid())]) and the clock
    readings are handed to the invocation, like its faults. *)

Inductive UserRole := ADMIN | PASTOR | ASSISTANT | GUEST.

Inductive CollaboratorRole := EDITOR | REVIEWER | VIEWER.

#[export] Instance UserRole_eq_dec : EqDecision UserRole.
Proof. solve_decision. Defined.

#[export] Instance CollaboratorRole_eq_dec : EqDecision CollaboratorRole.
Proof. solve_decision. Defined.



(** [model SermonCollaborator] *)
Record SermonCollaborator := {
  sc_userId : UserId;
  sc_role : CollaboratorRole
}.

(** [model Sermon], the columns the handlers read. *)
Record SermonRow := {
  sermon_title : string;
  sermon_createdById : UserId;
  sermon_collaborators : list SermonCollaborator
}.

(** [model SermonBlock] *)
Record BlockRow := {
  blk_sermonId : string;
  blk_parentId : option BlockId;
  blk_type : string;
  blk_content : string;
  blk_order : Z;
  blk_createdById : UserId;
  blk_createdAt : Z;
  blk_updatedAt : Z
}.

(** [model Comment] *)
Record CommentRow := {
  cmt_content : string;
  cmt_resolved : bool;
  cmt_createdById : UserId;
  cmt_createdAt : Z;
  cmt_updatedAt : Z;
  cmt_sermonId : option string;
  cmt_blockId : option BlockId
}.

(** [model Notification]; the handlers never look a notification up, the
    table is kept in the order of creation. *)
Record NotificationRow := {
  ntf_userId : UserId;
  ntf_type : string;
  ntf_message : string;
  ntf_isRead : bool;
  ntf_entityType : option string;
  ntf_entityId : option string
}.

Record Tables := {
  tb_users : gmap string UserProfile;
  tb_sermons : gmap string SermonRow;
  tb_blocks : gmap string BlockRow;
  tb_versions : list SermonBlockVersion;
  tb_comments : gmap string CommentRow;
  tb_notifications : list NotificationRow
}.

(** ** Messages of the block and comment handlers *)

Record BlockView := {
  bv_id : BlockId;
  bv_sermonId : string;
  bv_parentId : option BlockId;
  bv_type : string;
  bv_content : string;
  bv_order : Z;
  bv_createdById : UserId;
  bv_createdAt : Z;
  bv_updatedAt : Z
}.

Record AuthorView := {
  av_id : UserId;
  av_firstName : string;
  av_lastName : string;
  av_avatarUrl : option string
}.

Record CommentView := {
  cv_id : string;
  cv_content : string;
  cv_createdAt : Z;
  cv_createdBy : AuthorView;
  cv_sermonId : option string;
  cv_blockId : option BlockId
}.

Inductive ContentData :=
  | BlockCreatedData (block : BlockView)
  | BlockDeletedData (blockId : BlockId)
  | CommentAddedData (comment : CommentView)
  | CommentResolvedData (commentId : string) (resolvedBy : UserId).

Record ContentPayload := {
  cp_event : CollaborationEvent;
  cp_sessionId : RoomId;
  cp_userId : UserId;
  cp_timestamp : Z;
  cp_data : ContentData
}.

(** ['error'] with [{ code, message, details? }], and ['collaboration']. *)
Inductive ContentMessage :=
  | ContentError (code message : string) (details : option string)
  | ContentEvent (payload : ContentPayload).

Record Posting := {
  pt_target : Target;
  pt_recipients : gset string;
  pt_message : ContentMessage
}.

(** ** Their world and handler monad *)

Record Hub := {
  tables : Tables;
  hub_rooms : gmap string (gset string);
  posted : list Posting
}.

Definition Handler (A : Type) : Type := Hub -> Result A * Hub.

#[export] Instance Handler_ret : MRet Handler := fun A a h => (Ok a, h).

#[export] Instance Handler_bind : MBind Handler := fun A B k c h =>
  match c h with
  | (Ok a, h') => k a h'
  | (Throw e, h') => (Throw e, h')
  end.

Definition raise {A} (e : Thrown) : Handler A := fun h => (Throw e, h).

(** [try { body } catch (error) { handler error }] *)
Definition attempt {A} (body : Handler A) (handler : Thrown -> Handler A)
    : Handler A := fun h =>
  match body h with
  | (Ok a, h') => (Ok a, h')
  | (Throw e, h') => handler e h'
  end.

(** The world after running a handler body. *)
Definition outcome {A} (c : Handler A) (h : Hub) : Hub := snd (c h).

(** [socket.emit] and [io.to(room).emit] *)
Definition post (t : Target) (m : ContentMessage) : Handler unit := fun h =>
  (Ok tt, {| tables := tables h; hub_rooms := hub_rooms h;
             posted := posted h ++ [{| pt_target := t;
                                       pt_recipients := recipients (hub_rooms h) t;
                                       pt_message := m |}] |}).

(** A Prisma call either meets the fault of this invocation and throws, or
    runs on the tables. *)
Definition query {A} (fault : option Thrown) (f : Tables -> Result A * Tables)
    : Handler A := fun h =>
  match fault with
  | Some e => (Throw e, h)
  | None => let '(r, t) := f (tables h) in
            (r, {| tables := t; hub_rooms := hub_rooms h; posted := posted h |})
  end.


(** *** Prisma calls on these tables *)


Definition set_tb_comments (t : Tables) (cs : gmap string CommentRow) : Tables :=
  {| tb_users := tb_users t; tb_sermons := tb_sermons t; tb_blocks := tb_blocks t;
     tb_versions := tb_versions t; tb_comments := cs;
     tb_notifications := tb_notifications t |}.

Definition set_tb_notifications (t : Tables) (ns : list NotificationRow) : Tables :=
  {| tb_users := tb_users t; tb_sermons := tb_sermons t; tb_blocks := tb_blocks t;
     tb_versions := tb_versions t; tb_comments := tb_comments t;
     tb_notifications := ns |}.



(** [prisma.sermonBlock.findUnique({ where: { id }, include: { sermon: { select:
    { createdById, collaborators: { where: { userId }, select: { role } } } } } })]:
    the block with, of its sermon, the creator and the roles of the
    collaborator rows of [userId]. *)
Definition sermonBlock_findUnique_with_sermon (fault : option Thrown)
    (blockId : BlockId) (userId : UserId)
    : Handler (option (BlockRow * option (UserId * list CollaboratorRole))) :=
  query fault (fun t =>
    (Ok (block ← tb_blocks t !! blockId;
         Some (block,
               s ← tb_sermons t !! blk_sermonId block;
               Some (sermon_createdById s,
                     sc_role <$> filter (fun c => sc_userId c = userId)
                                   (sermon_collaborators s)))), t)).

(** A block whose parent is deleted keeps no parent: the relation
    [BlockHierarchy] is optional and names no [onDelete], which is [SetNull]. *)
Definition orphan (blockId : BlockId) (row : BlockRow) : BlockRow :=
  {| blk_sermonId := blk_sermonId row;
     blk_parentId := if decide (blk_parentId row = Some blockId)
                     then None else blk_parentId row;
     blk_type := blk_type row; blk_content := blk_content row;
     blk_order := blk_order row; blk_createdById := blk_createdById row;
     blk_createdAt := blk_createdAt row; blk_updatedAt := blk_updatedAt row |}.

(** [prisma.sermonBlock.delete({ where: { id } })]; the versions and the
    comments of the block go with it ([onDelete: Cascade]). *)
Definition sermonBlock_delete (fault : option Thrown) (blockId : BlockId)
    : Handler unit :=
  query fault (fun t =>
    match tb_blocks t !! blockId with
    | Some _ =>
        (Ok tt,
         {| tb_users := tb_users t; tb_sermons := tb_sermons t;
            tb_blocks := orphan blockId <$> base.delete blockId (tb_blocks t);
            tb_versions := filter (fun v => sbv_blockId v ≠ blockId) (tb_versions t);
            tb_comments := filter (fun kv => cmt_blockId kv.2 ≠ Some blockId)
                             (tb_comments t);
            tb_notifications := tb_notifications t |})
    | None => (Throw (Some "Record to delete does not exist."), t)
    end).

Definition author_view (userId : UserId) (user : UserProfile) : AuthorView :=
  {| av_id := userId; av_firstName := up_firstName user;
     av_lastName := up_lastName user; av_avatarUrl := up_avatarUrl user |}.

(** What the database accepts as a new comment: the sermon and the block,
    when given, exist; the generated id is new. *)
Definition comment_accepted (t : Tables) (id : string) (row : CommentRow) : bool :=
  match cmt_sermonId row with
  | Some sermonId => Js.defined (tb_sermons t !! sermonId)
  | None => true
  end
  && match cmt_blockId row with
     | Some blockId => Js.defined (tb_blocks t !! blockId)
     | None => true
     end
  && negb (Js.defined (tb_comments t !! id)).

(** [prisma.comment.create({ data, include: { createdBy: { select: { id,
    firstName, lastName, avatarUrl } } } })] *)
Definition comment_create (fault : option Thrown) (id : string) (row : CommentRow)
    : Handler (string * CommentRow * AuthorView) :=
  query fault (fun t =>
    match tb_users t !! cmt_createdById row with
    | Some author =>
        if comment_accepted t id row
        then (Ok (id, row, author_view (cmt_createdById row) author),
              set_tb_comments t (<[id := row]> (tb_comments t)))
        else (Throw (Some "Invalid prisma.comment.create() invocation"), t)
    | None => (Throw (Some "Invalid prisma.comment.create() invocation"), t)
    end).



(** [prisma.sermon.findUnique({ where: { id }, include: { collaborators:
    { include: { user: true } }, createdBy: true } })]; the included users are
    the ones the rows name. *)
Definition sermon_findUnique (fault : option Thrown) (sermonId : string)
    : Handler (option SermonRow) :=
  query fault (fun t => (Ok (tb_sermons t !! sermonId), t)).

(** [prisma.notification.create({ data })]; the user must exist. *)
Definition notification_create (fault : option Thrown) (row : NotificationRow)
    : Handler unit :=
  query fault (fun t =>
    if Js.defined (tb_users t !! ntf_userId row)
    then (Ok tt, set_tb_notifications t (tb_notifications t ++ [row]))
    else (Throw (Some "Invalid prisma.notification.create() invocation"), t)).

(** ** The requests and the handlers *)

(** The connection with the role the middleware took from the token. *)
Record Member := {
  member_socket : Socket;
  auth_role : UserRole
}.




Definition content_event (event : CollaborationEvent) (roomId : RoomId)
    (userId : UserId) (timestamp : Z) (data : ContentData) : ContentMessage :=
  ContentEvent {| cp_event := event; cp_sessionId := roomId; cp_userId := userId;
                  cp_timestamp := timestamp; cp_data := data |}.



Record BlockDeleteData := {
  bdd_entityType : EntityType;
  bdd_entityId : string;
  bdd_blockId : BlockId
}.

(** What one [block:delete] invocation meets. *)
Record DeleteRun := {
  lookup_fault : option Thrown;
  delete_fault : option Thrown;
  at_delete_payload : Z
}.

(** [isCreator || isEditor || auth.role === UserRole.ADMIN] *)
Definition may_delete (member : Member) (createdById : UserId)
    (roles : list CollaboratorRole) : bool :=
  let isCreator := bool_decide (createdById = auth_userId (member_socket member)) in
  let isEditor := existsb (fun role => bool_decide (role = EDITOR)) roles in
  negb (negb isCreator && negb isEditor && negb (bool_decide (auth_role member = ADMIN))).

Definition error_message (error : Thrown) : string :=
  match error with
  | Some message => message
  | None => "Unknown error"
  end.

(** [socket.on('block:delete', async (data) => { ... })] *)
Definition block_delete (member : Member) (run : DeleteRun) (data : BlockDeleteData)
    : Handler unit :=
  let socket := member_socket member in
  let blockId := bdd_blockId data in
  attempt
    (match bdd_entityType data with
     | series => raise (Some "Block deletion is only supported for sermons")
     | sermon =>
         let roomId := room_id (bdd_entityType data) (bdd_entityId data) in
         block ← sermonBlock_findUnique_with_sermon (lookup_fault run) blockId
                   (auth_userId socket);
         match block with
         | None => raise (Some ("Block not found: " +:+ blockId))
         | Some (_, None) =>
             raise (Some "Cannot read properties of null (reading 'createdById')")
         | Some (_, Some (createdById, roles)) =>
             if may_delete member createdById roles
             then
               sermonBlock_delete (delete_fault run) blockId;;
               post (ToRoom roomId)
                 (content_event BLOCK_DELETED roomId (auth_userId socket)
                    (at_delete_payload run) (BlockDeletedData blockId))
             else raise (Some "You do not have permission to delete this block")
         end
     end)
    (fun error =>
       post (ToSocket (socket_id socket))
         (ContentError "DELETE_ERROR" "Failed to delete block"
            (Some (error_message error)))).

Record CommentAddData := {
  cad_entityType : EntityType;
  cad_entityId : string;
  cad_blockId : option BlockId;
  cad_content : string
}.

(** What one [comment:add] invocation meets; [notify_fault i] is the fault of
    the [i]-th [notification.create] of the loop. *)
Record CommentRun := {
  comment_fault : option Thrown;
  comment_id : string;       (* the [cuid()] of the new comment *)
  at_commented : Z;          (* [createdAt] and [updatedAt] of the new comment *)
  at_comment_payload : Z;    (* [timestamp] of the payload *)
  sermon_fault : option Thrown;
  notify_fault : nat -> option Thrown
}.

Definition comment_view (id : string) (row : CommentRow) (author : AuthorView)
    : CommentView :=
  {| cv_id := id; cv_content := cmt_content row; cv_createdAt := cmt_createdAt row;
     cv_createdBy := author;
     cv_sermonId := if Js.truthy_string (cmt_sermonId row)
                    then cmt_sermonId row else None;
     cv_blockId := if Js.truthy_string (cmt_blockId row)
                   then cmt_blockId row else None |}.

(** [[...sermon.collaborators.map(c => c.user), sermon.createdBy]
      .filter(user => user.id !== auth.userId)], as user ids. *)
Definition usersToNotify (s : SermonRow) (userId : UserId) : list UserId :=
  filter (fun id => id ≠ userId)
    ((sc_userId <$> sermon_collaborators s) ++ [sermon_createdById s]).

Definition double_quote : string := String (Ascii.ascii_of_nat 34) EmptyString.

Definition comment_notification (userId : UserId) (author : AuthorView)
    (title : string) (commentId : string) : NotificationRow :=
  {| ntf_userId := userId; ntf_type := "COMMENT";
     ntf_message := "New comment from " +:+ av_firstName author +:+ " "
                    +:+ av_lastName author +:+ " on " +:+ double_quote
                    +:+ title +:+ double_quote;
     ntf_isRead := false;
     ntf_entityType := Some "comment"; ntf_entityId := Some commentId |}.

(** [for (const user of usersToNotify) { await prisma.notification.create(...) }],
    from the [i]-th creation of the loop on. *)
Fixpoint notify_each (faults : nat -> option Thrown) (i : nat)
    (row : UserId -> NotificationRow) (users : list UserId) : Handler unit :=
  match users with
  | [] => mret tt
  | user :: rest =>
      notification_create (faults i) (row user);;
      notify_each faults (S i) row rest
  end.

(** The [data] of [prisma.comment.create]: [sermonId] for a sermon only,
    [blockId] when the request carries a truthy one. *)
Definition new_comment (socket : Socket) (run : CommentRun) (data : CommentAddData)
    : CommentRow :=
  {| cmt_content := cad_content data; cmt_resolved := false;
     cmt_createdById := auth_userId socket; cmt_createdAt := at_commented run;
     cmt_updatedAt := at_commented run;
     cmt_sermonId := match cad_entityType data with
                     | sermon => Some (cad_entityId data)
                     | series => None
                     end;
     cmt_blockId := if Js.truthy_string (cad_blockId data)
                    then cad_blockId data else None |}.

(** [socket.on('comment:add', async (data) => { ... })] *)
Definition comment_add (member : Member) (run : CommentRun) (data : CommentAddData)
    : Handler unit :=
  let socket := member_socket member in
  let userId := auth_userId socket in
  let roomId := room_id (cad_entityType data) (cad_entityId data) in
  attempt
    ('(id, comment, author) ← comment_create (comment_fault run) (comment_id run)
                                 (new_comment socket run data);
     post (ToRoom roomId)
       (content_event COMMENT_ADDED roomId userId (at_comment_payload run)
          (CommentAddedData (comment_view id comment author)));;
     match cad_entityType data with
     | sermon =>
         found ← sermon_findUnique (sermon_fault run) (cad_entityId data);
         match found with
         | Some s =>
             notify_each (notify_fault run) 0
               (fun user => comment_notification user author (sermon_title s) id)
               (usersToNotify s userId)
         | None => mret tt
         end
     | series => mret tt
     end)
    (fun _ =>
       post (ToSocket (socket_id socket))
         (ContentError "COMMENT_ERROR" "Failed to add comment" None)).





(** ** A worked scenario for the block and comment handlers *)

Definition demo_block (parentId : option BlockId) (content : string) : BlockRow :=
  {| blk_sermonId := "D1"; blk_parentId := parentId; blk_type := "POINT";
     blk_content := content; blk_order := 0; blk_createdById := "A";
     blk_createdAt := 0; blk_updatedAt := 0 |}.

Definition demo_comment (userId : UserId) (blockId : option BlockId) : CommentRow :=
  {| cmt_content := "Amen"; cmt_resolved := false; cmt_createdById := userId;
     cmt_createdAt := 0; cmt_updatedAt := 0; cmt_sermonId := Some "D1";
     cmt_blockId := blockId |}.

Definition demo_sermon : SermonRow :=
  {| sermon_title := "Hope"; sermon_createdById := "A";
     sermon_collaborators := [ {| sc_userId := "B"; sc_role := EDITOR |};
                               {| sc_userId := "C"; sc_role := VIEWER |} ] |}.

(** Sermon D1 of user A, with B as editor and C as viewer; block b2 under
    block b1; a comment on b1 and one on the sermon. *)
Definition demo_tables : Tables :=
  {| tb_users := {[ "A" := {| up_firstName := "Ann"; up_lastName := "Lee";
                              up_avatarUrl := None |};
                    "B" := {| up_firstName := "Bo"; up_lastName := "Ray";
                              up_avatarUrl := None |};
                    "C" := {| up_firstName := "Cy"; up_lastName := "Poe";
                              up_avatarUrl := None |} ]};
     tb_sermons := {[ "D1" := demo_sermon;
                      "D2" := {| sermon_title := "Joy"; sermon_createdById := "C";
                                 sermon_collaborators := [] |} ]};
     tb_blocks := {[ "b1" := demo_block None "one";
                     "b2" := demo_block (Some "b1") "two" ]};
     tb_versions := [ {| sbv_blockId := "b1"; sbv_content := "on";
                         sbv_createdById := "A" |};
                      {| sbv_blockId := "b2"; sbv_content := "tw";
                         sbv_createdById := "A" |} ];
     tb_comments := {[ "c1" := demo_comment "B" (Some "b1");
                       "c2" := demo_comment "A" None ]};
     tb_notifications := [] |}.

Definition demo_hub : Hub :=
  {| tables := demo_tables; hub_rooms := demo_rooms; posted := [] |}.

Definition as_member (socket : Socket) (role : UserRole) : Member :=
  {| member_socket := socket; auth_role := role |}.

Definition delete_b1_in (entityId : string) : BlockDeleteData :=
  {| bdd_entityType := sermon; bdd_entityId := entityId; bdd_blockId := "b1" |}.

Definition delete_run_at (t : Z) : DeleteRun :=
  {| lookup_fault := None; delete_fault := None; at_delete_payload := t |}.





(** * Properties *)

Section StringFacts.

Lemma app_cons c (a b : string) : String c a +:+ b = String c (a +:+ b).
Proof. reflexivity. Qed.

Lemma app_empty_l (b : string) : EmptyString +:+ b = b.
Proof. reflexivity. Qed.

Lemma length_app (a b : string) :
  String.length (a +:+ b) = (String.length a + String.length b)%nat.
Proof. induction a as [|c a IH]; simpl; [done | by rewrite IH]. Qed.

Lemma length_take n s : String.length (Js.take n s) = Nat.min n (String.length s).
Proof.
  revert s; induction n as [|n IH]; intros [|c s]; simpl; try done.
  by rewrite IH.
Qed.

Lemma length_drop n s : String.length (Js.drop n s) = (String.length s - n)%nat.
Proof.
  revert s; induction n as [|n IH]; intros [|c s]; simpl; try done.
Qed.

Lemma take_all n s : (String.length s <= n)%nat -> Js.take n s = s.
Proof.
  revert s; induction n as [|n IH]; intros [|c s]; simpl; intros H; try done.
  - lia.
  - f_equal. apply IH. lia.
Qed.

Lemma take_drop n s : Js.take n s +:+ Js.drop n s = s.
Proof.
  revert s; induction n as [|n IH]; intros [|c s]; simpl; try done.
  rewrite app_cons. f_equal. apply IH.
Qed.

Lemma clamp_range s n : 0 <= Js.clamp s n <= Js.len s.
Proof. unfold Js.clamp, Js.len. lia. Qed.

Lemma clamp_in_range s n : 0 <= n <= Js.len s -> Js.clamp s n = n.
Proof. unfold Js.clamp, Js.len. lia. Qed.

(** [s.substring(0, n)] is the prefix of clamped length. *)
Lemma substring_prefix s n :
  Js.substring s 0 (Some n) = Js.take (Z.to_nat (Js.clamp s n)) s.
Proof.
  unfold Js.substring.
  pose proof (clamp_range s n) as Hn.
  rewrite (clamp_in_range s 0) by (unfold Js.len; lia).
  rewrite Z.min_l, Z.max_r by lia.
  by rewrite Z.sub_0_r.
Qed.

(** [s.substring(n)] is the suffix from the clamped index. *)
Lemma substring_suffix s n :
  Js.substring s n None = Js.drop (Z.to_nat (Js.clamp s n)) s.
Proof.
  unfold Js.substring.
  pose proof (clamp_range s n) as Hn.
  rewrite Z.min_l, Z.max_r by lia.
  apply take_all. rewrite length_drop. unfold Js.len in *. lia.
Qed.

End StringFacts.

(** ** The operation switch *)

Section OperationSwitch.

Lemma insert_op_spec blockId position text content :
  apply_operation (insert_op blockId position text) content
  = splice content (Z.to_nat (Js.clamp content position)) text.
Proof.
  unfold apply_operation, insert_op, splice; simpl.
  destruct text as [|c text]; simpl.
  - by rewrite app_empty_l, take_drop.
  - by rewrite substring_prefix, substring_suffix.
Qed.

Lemma length_splice content p text :
  String.length (splice content p text)
  = (String.length content + String.length text)%nat.
Proof.
  unfold splice. rewrite !length_app, length_take, length_drop. lia.
Qed.

Lemma missing_fields_unchanged operation content :
  missing_fields operation -> apply_operation operation content = content.
Proof.
  unfold missing_fields, apply_operation.
  destruct (op_type operation).
  - intros [-> | [-> | ->]]; [done | |]; by destruct (op_position operation).
  - intros [-> | [-> | ->]]; [done | |]; by destruct (op_position operation).
  - by intros ->.
Qed.

End OperationSwitch.

(** ** The [block:edit] handler *)

Ltac run_handler :=
  unfold mbind, mret, M_bind, M_ret, try_catch, throw, redis_available,
    redis_get, redis_set, redis_del, redis_command, emit, prisma_call; simpl.

Lemma world_eta (w : World) :
  {| redis := redis w; prisma := prisma w; rooms := rooms w; outbox := outbox w |} = w.
Proof. by destruct w. Qed.

Lemma set_redis_id w r : redis w = Some r -> set_redis w (Some r) = w.
Proof. intros H. unfold set_redis. rewrite <- H. apply world_eta. Qed.

Lemma session_of_Some w roomId session :
  session_of w roomId = Some session <->
  exists r, redis w = Some r /\ sessions r !! roomId = Some session.
Proof.
  unfold session_of. destruct (redis w) as [r|]; simpl; split.
  - eauto.
  - by intros (? & [= ->] & ?).
  - done.
  - by intros (? & ? & ?).
Qed.

Lemma edit_acquire_no_client socket clk data w :
  redis w = None -> edit_acquire socket clk data w = (Ok true, w).
Proof. intros H. unfold edit_acquire. run_handler. by rewrite H. Qed.

Lemma edit_acquire_no_session socket clk data w r :
  redis w = Some r ->
  sessions r !! room_id (bed_entityType data) (bed_entityId data) = None ->
  edit_acquire socket clk data w = (Ok true, w).
Proof.
  intros Hr Hs. unfold edit_acquire. run_handler.
  repeat (rewrite Hr; simpl). rewrite Hs. by rewrite set_redis_id.
Qed.

Lemma edit_acquire_blocked socket clk data w session holder :
  session_of w (room_id (bed_entityType data) (bed_entityId data)) = Some session ->
  locked_by_other session (bed_blockId data) (auth_userId socket) (at_lock_check clk)
    = Some holder ->
  edit_acquire socket clk data w
  = (Ok false, set_outbox w (outbox w ++ [to_socket_only socket
                                            (block_locked_error (bed_blockId data) holder)])).
Proof.
  intros (r & Hr & Hs)%session_of_Some Hl.
  unfold edit_acquire, edit_check_and_lock. run_handler.
  repeat (rewrite Hr; simpl). rewrite Hs, Hl. run_handler.
  by rewrite set_redis_id.
Qed.

Lemma edit_acquire_free socket clk data w r session :
  redis w = Some r ->
  sessions r !! room_id (bed_entityType data) (bed_entityId data) = Some session ->
  locked_by_other session (bed_blockId data) (auth_userId socket) (at_lock_check clk)
    = None ->
  edit_acquire socket clk data w
  = (Ok true,
     set_redis w
       (Some {| sessions :=
                  <[room_id (bed_entityType data) (bed_entityId data) :=
                      lock_block session (bed_blockId data) (auth_userId socket)
                        (bed_operation data) clk]> (sessions r);
                userSessions := userSessions r |})).
Proof.
  intros Hr Hs Hl.
  unfold edit_acquire, edit_check_and_lock. run_handler.
  repeat (rewrite Hr; simpl). rewrite Hs, Hl. run_handler.
  done.
Qed.

Lemma edit_persist_ok socket clk data w block :
  db_blocks (prisma w) !! bed_blockId data = Some block ->
  let newContent := apply_operation (bed_operation data) (sb_content block) in
  edit_persist socket clk no_faults data w
  = (Ok tt,
     {| redis := redis w;
        prisma :=
          set_blockVersions
            (set_blocks (prisma w)
               (<[bed_blockId data := {| sb_content := newContent;
                                         sb_updatedAt := at_update clk |}]>
                  (db_blocks (prisma w))))
            (db_blockVersions (prisma w)
               ++ [{| sbv_blockId := bed_blockId data; sbv_content := newContent;
                      sbv_createdById := auth_userId socket |}]);
        rooms := rooms w;
        outbox := outbox w
          ++ [{| dl_target := ToRoom (room_id (bed_entityType data) (bed_entityId data));
                 dl_recipients :=
                   members (rooms w) (room_id (bed_entityType data) (bed_entityId data));
                 dl_message := block_updated socket clk data newContent |}] |}).
Proof.
  intros H. unfold edit_persist, sermonBlock_findUnique, sermonBlock_update,
    sermonBlockVersion_create. run_handler. rewrite H; simpl. by rewrite H.
Qed.

Lemma edit_persist_fails socket clk faults data w :
  persistence_fails faults w (bed_blockId data) ->
  exists e w', edit_persist socket clk faults data w = (Throw e, w')
    /\ redis w' = redis w /\ rooms w' = rooms w /\ outbox w' = outbox w.
Proof.
  unfold persistence_fails, edit_persist, sermonBlock_findUnique, sermonBlock_update,
    sermonBlockVersion_create. run_handler.
  intros H.
  destruct (find_fault faults) as [e|]; [by do 2 eexists |]; simpl.
  destruct (db_blocks (prisma w) !! bed_blockId data) as [block|] eqn:Hb;
    [|by do 2 eexists].
  destruct (update_fault faults) as [e|]; [by do 2 eexists |]; simpl.
  rewrite Hb; simpl.
  destruct (version_fault faults) as [e|]; [by do 2 eexists |]; simpl.
  exfalso. destruct H as [?|[?|[?|?]]]; congruence.
Qed.

Lemma set_redis_same w : set_redis w (redis w) = w.
Proof. by destruct w. Qed.

Lemma edit_release_spec socket data w :
  edit_release socket data w
  = (Ok tt,
     set_redis w
       (release_lock (room_id (bed_entityType data) (bed_entityId data))
          (bed_blockId data) (auth_userId socket) <$> redis w)).
Proof.
  unfold edit_release, release_lock. run_handler.
  destruct (redis w) as [r|] eqn:Hr; simpl.
  - repeat (rewrite Hr; simpl).
    destruct (sessions r !! _) as [session|]; simpl.
    + destruct (held_by _ _ _); run_handler.
      all: repeat (rewrite Hr; simpl).
      all: by rewrite ?(set_redis_id _ _ Hr).
    + by rewrite set_redis_id.
  - by rewrite <- Hr, set_redis_same.
Qed.

Lemma edit_apply_fails socket clk faults data w :
  persistence_fails faults w (bed_blockId data) ->
  exists e w1,
    redis w1 = redis w /\ rooms w1 = rooms w /\ outbox w1 = outbox w /\
    edit_apply socket clk faults data w
    = (Ok tt,
       {| redis := release_lock (room_id (bed_entityType data) (bed_entityId data))
                     (bed_blockId data) (auth_userId socket) <$> redis w;
          prisma := prisma w1;
          rooms := rooms w;
          outbox := outbox w ++ [to_socket_only socket (edit_error (bed_blockId data) e)] |}).
Proof.
  intros (e & w1 & Hp & Hr & Hm & Ho)%(edit_persist_fails socket clk).
  exists e, w1. repeat split; try done.
  unfold edit_apply, try_catch. rewrite Hp.
  unfold mbind, M_bind, emit; simpl. rewrite edit_release_spec; simpl.
  unfold set_redis, set_outbox; simpl. by rewrite Hr, Hm, Ho.
Qed.

Lemma sent_app {A} (c : M A) w ds :
  outbox (exec c w) = outbox w ++ ds -> sent c w = ds.
Proof. unfold sent. intros ->. by rewrite drop_app_length. Qed.

Lemma lock_block_lookup session blockId userId operation clk :
  sm_locks (lock_block session blockId userId operation clk) !! blockId
  = Some {| lock_userId := userId; lock_expires := at_lock clk + LOCK_TIMEOUT |}.
Proof. unfold lock_block; simpl. apply lookup_insert_eq. Qed.


(** The claim "while P1 holds a lock on B that has not expired, an edit of B
    by P2 is refused" fails when the request of P2 names another document:
    the lock is looked for in the session record of the room the request
    names, nowhere else.  After A has joined D1 and edited b1 at 1000, A holds
    b1 until 31000 in the record of sermon:D1; at 2000 B edits b1 under the
    entity id D2: no [BLOCK_LOCKED] is sent and the content of b1 changes. *)
Lemma lock_ignored_under_other_entity :
  let w := A_editing_b1 in
  let request := block_edit bob (clock_at 2000) no_faults
                   (edit_b1_as_D2 (insert_op "b1" 0 "Peace")) in
  (session_of w "sermon:D1" ≫= fun session => sm_locks session !! "b1")
  = Some {| lock_userId := "A"; lock_expires := 31000 |}
  /\ Forall (fun d => is_block_locked (dl_message d) = false) (sent request w)
  /\ content_of w "b1" = Some "Grace"
  /\ content_of (exec request w) "b1" = Some "PeaceGrace".
Proof.
  split_and!.
  - vm_compute. reflexivity.
  - vm_compute. repeat constructor.
  - vm_compute. reflexivity.
  - vm_compute. reflexivity.
Qed.

(** C1, amended. Lock exclusivity: while the session record of the room the
    request names holds a lock of [P1] on block [B] whose expiry is later than
    the clock reading of the lock test, a [block:edit] of another principal
    [P2] on [B] sends exactly one message, the error with code [BLOCK_LOCKED]
    and details [{blockId: B, lockedBy: P1}], to the requesting socket alone,
    and leaves the database (hence the block content) and the session store
    as they were. *)
Theorem lock_exclusivity socket clk faults data w session P1 expires :
  let roomId := room_id (bed_entityType data) (bed_entityId data) in
  let B := bed_blockId data in
  let P2 := auth_userId socket in
  session_of w roomId = Some session ->
  sm_locks session !! B = Some {| lock_userId := P1; lock_expires := expires |} ->
  P1 <> P2 ->
  at_lock_check clk < expires ->
  sent (block_edit socket clk faults data) w
    = [{| dl_target := ToSocket (socket_id socket);
          dl_recipients := {[socket_id socket]};
          dl_message :=
            ErrorMsg {| err_code := "BLOCK_LOCKED";
                        err_message :=
                          "This block is currently being edited by another user";
                        err_details := Some (LockedDetails B P1) |} |}]
  /\ prisma (exec (block_edit socket clk faults data) w) = prisma w
  /\ redis (exec (block_edit socket clk faults data) w) = redis w.
Proof.
  intros roomId B P2 Hs Hl Hne Ht.
  assert (locked_by_other session B P2 (at_lock_check clk) = Some P1) as Hlocked.
  { unfold locked_by_other. rewrite Hl; simpl.
    rewrite bool_decide_eq_true_2 by done.
    by rewrite (proj2 (Z.ltb_lt _ _) Ht). }
  assert (block_edit socket clk faults data w
          = (Ok tt, set_outbox w (outbox w ++ [to_socket_only socket
                                                (block_locked_error B P1)]))) as Hrun.
  { unfold block_edit, try_catch, mbind, M_bind.
    by rewrite (edit_acquire_blocked _ _ _ _ _ _ Hs Hlocked). }
  split; [|split].
  - apply sent_app. unfold exec. by rewrite Hrun.
  - unfold exec. by rewrite Hrun.
  - unfold exec. by rewrite Hrun.
Qed.

Lemma lock_exclusivity_witness :
  sent (block_edit bob (clock_at 2000) no_faults (edit_b1 (insert_op "b1" 0 "Peace")))
       (demo_world lock_of_A "Grace")
    = [{| dl_target := ToSocket "socket-b";
          dl_recipients := {["socket-b"]};
          dl_message :=
            ErrorMsg {| err_code := "BLOCK_LOCKED";
                        err_message :=
                          "This block is currently being edited by another user";
                        err_details := Some (LockedDetails "b1" "A") |} |}]
  /\ prisma (exec (block_edit bob (clock_at 2000) no_faults
                     (edit_b1 (insert_op "b1" 0 "Peace")))
               (demo_world lock_of_A "Grace"))
     = prisma (demo_world lock_of_A "Grace")
  /\ redis (exec (block_edit bob (clock_at 2000) no_faults
                    (edit_b1 (insert_op "b1" 0 "Peace")))
              (demo_world lock_of_A "Grace"))
     = redis (demo_world lock_of_A "Grace").
Proof.
  apply (lock_exclusivity bob (clock_at 2000) no_faults
           (edit_b1 (insert_op "b1" 0 "Peace")) (demo_world lock_of_A "Grace")
           (demo_session lock_of_A) "A" 31000).
  - reflexivity.
  - reflexivity.
  - discriminate.
  - reflexivity.
Defined.

Lemma persistence_cases faults w blockId :
  persistence_fails faults w blockId
  \/ (faults = no_faults /\ exists block, db_blocks (prisma w) !! blockId = Some block).
Proof.
  unfold persistence_fails.
  destruct faults as [[f|] [u|] [v|]]; simpl; try (left; naive_solver congruence).
  destruct (db_blocks (prisma w) !! blockId) as [block|]; [right | left]; eauto.
Qed.

Lemma edit_apply_ok socket clk data w block :
  db_blocks (prisma w) !! bed_blockId data = Some block ->
  let newContent := apply_operation (bed_operation data) (sb_content block) in
  edit_apply socket clk no_faults data w
  = (Ok tt,
     {| redis := redis w;
        prisma :=
          set_blockVersions
            (set_blocks (prisma w)
               (<[bed_blockId data := {| sb_content := newContent;
                                         sb_updatedAt := at_update clk |}]>
                  (db_blocks (prisma w))))
            (db_blockVersions (prisma w)
               ++ [{| sbv_blockId := bed_blockId data; sbv_content := newContent;
                      sbv_createdById := auth_userId socket |}]);
        rooms := rooms w;
        outbox := outbox w
          ++ [{| dl_target := ToRoom (room_id (bed_entityType data) (bed_entityId data));
                 dl_recipients :=
                   members (rooms w) (room_id (bed_entityType data) (bed_entityId data));
                 dl_message := block_updated socket clk data newContent |}] |}).
Proof.
  intros H newContent. unfold edit_apply, try_catch.
  by rewrite (edit_persist_ok _ _ _ _ _ H).
Qed.

(** The inner [try ... catch] never throws, sends exactly one message, not a
    [BLOCK_LOCKED] one, and touches the store only to release the lock. *)
Lemma edit_apply_total socket clk faults data w :
  exists w' d,
    edit_apply socket clk faults data w = (Ok tt, w')
    /\ outbox w' = outbox w ++ [d]
    /\ is_block_locked (dl_message d) = false
    /\ rooms w' = rooms w
    /\ (redis w' = redis w
        \/ redis w' = release_lock (room_id (bed_entityType data) (bed_entityId data))
                        (bed_blockId data) (auth_userId socket) <$> redis w).
Proof.
  destruct (persistence_cases faults w (bed_blockId data))
    as [Hf | [-> [block Hb]]].
  - destruct (edit_apply_fails socket clk _ _ _ Hf) as (e & w1 & _ & _ & _ & ->).
    do 2 eexists. repeat split. by right.
  - rewrite (edit_apply_ok _ _ _ _ _ Hb). do 2 eexists. repeat split. by left.
Qed.



Lemma block_edit_proceeds socket clk faults data w w1 :
  edit_acquire socket clk data w = (Ok true, w1) ->
  block_edit socket clk faults data w = edit_apply socket clk faults data w1.
Proof.
  intros H. unfold block_edit, try_catch, mbind, M_bind. rewrite H.
  by destruct (edit_apply_total socket clk faults data w1) as (w' & d & -> & _).
Qed.



(** The store after that failed edit: the session is back without locks. *)
Example failed_edit_leaves_no_lock :
  sm_locks <$> session_of (exec (block_edit bob (clock_at 2000) failing_update
                                   (edit_b1 (insert_op "b1" 0 "Peace")))
                             (demo_world ∅ "Grace"))
                 (room_id sermon "D1")
  = Some ∅.
Proof. vm_compute. reflexivity. Qed.

(** ** Lock expiry *)

Lemma expired_lock_free session blockId userId now lock :
  sm_locks session !! blockId = Some lock ->
  lock_expires lock <= now ->
  locked_by_other session blockId userId now = None.
Proof.
  intros Hl Ht. unfold locked_by_other. rewrite Hl.
  rewrite (proj2 (Z.ltb_ge _ _) Ht). by rewrite andb_false_r.
Qed.

(** C5. Lock expiry: a lock written with expiry [T + LOCK_TIMEOUT], where
    [LOCK_TIMEOUT] is 30000 ms, does not count in the lock test at any clock
    reading [>= T + 30000]: the test of [block:edit] finds no holder whoever
    asks, the handler sends no [BLOCK_LOCKED] error, and the lock section
    proceeds and installs the requester's own lock, which expires
    [LOCK_TIMEOUT] after the clock reading taken at installation. *)
Theorem expired_lock_is_not_honored socket clk faults data w session holder T :
  let roomId := room_id (bed_entityType data) (bed_entityId data) in
  let B := bed_blockId data in
  session_of w roomId = Some session ->
  sm_locks session !! B = Some {| lock_userId := holder;
                                  lock_expires := T + LOCK_TIMEOUT |} ->
  T + 30000 <= at_lock_check clk ->
  LOCK_TIMEOUT = 30000
  /\ locked_by_other session B (auth_userId socket) (at_lock_check clk) = None
  /\ Forall (fun d => is_block_locked (dl_message d) = false)
       (sent (block_edit socket clk faults data) w)
  /\ exists w1 s1,
       edit_acquire socket clk data w = (Ok true, w1)
       /\ session_of w1 roomId = Some s1
       /\ sm_locks s1 !! B = Some {| lock_userId := auth_userId socket;
                                     lock_expires := at_lock clk + LOCK_TIMEOUT |}.
Proof.
  intros roomId B Hs Hl Ht.
  assert (locked_by_other session B (auth_userId socket) (at_lock_check clk) = None)
    as Hfree by (by apply (expired_lock_free _ _ _ _ _ Hl)).
  apply session_of_Some in Hs as (r & Hr & Hs).
  pose proof (edit_acquire_free socket clk data w r session Hr Hs Hfree) as Hacq.
  set (w1 := set_redis w _) in Hacq.
  split; [done|]. split; [done|]. split.
  - unfold sent, exec. rewrite (block_edit_proceeds _ _ faults _ _ _ Hacq).
    destruct (edit_apply_total socket clk faults data w1)
      as (w' & d & -> & Ho & Hd & _).
    simpl in *. rewrite Ho, drop_app_length. by constructor.
  - exists w1. eexists. split; [exact Hacq|]. split.
    + unfold session_of; simpl. apply lookup_insert_eq.
    + apply lock_block_lookup.
Qed.

Lemma expired_lock_is_not_honored_witness :
  LOCK_TIMEOUT = 30000
  /\ locked_by_other (demo_session lock_of_A) "b1" (auth_userId bob)
       (at_lock_check (clock_at 31000)) = None
  /\ Forall (fun d => is_block_locked (dl_message d) = false)
       (sent (block_edit bob (clock_at 31000) no_faults
                (edit_b1 (insert_op "b1" 5 "!")))
          (demo_world lock_of_A "Grace"))
  /\ exists w1 s1,
       edit_acquire bob (clock_at 31000) (edit_b1 (insert_op "b1" 5 "!"))
         (demo_world lock_of_A "Grace") = (Ok true, w1)
       /\ session_of w1 (room_id sermon "D1") = Some s1
       /\ sm_locks s1 !! "b1"
          = Some {| lock_userId := auth_userId bob;
                    lock_expires := at_lock (clock_at 31000) + LOCK_TIMEOUT |}.
Proof.
  apply (expired_lock_is_not_honored bob (clock_at 31000) no_faults
           (edit_b1 (insert_op "b1" 5 "!")) (demo_world lock_of_A "Grace")
           (demo_session lock_of_A) "A" 1000).
  - reflexivity.
  - reflexivity.
  - vm_compute. discriminate.
Defined.

(** At the very millisecond of expiry B's edit goes through; one millisecond
    earlier it is refused. *)
Example edit_at_expiry :
  content_of (exec (block_edit bob (clock_at 31000) no_faults
                      (edit_b1 (insert_op "b1" 5 "!")))
                (demo_world lock_of_A "Grace")) "b1" = Some "Grace!"
  /\ content_of (exec (block_edit bob (clock_at 30999) no_faults
                         (edit_b1 (insert_op "b1" 5 "!")))
                   (demo_world lock_of_A "Grace")) "b1" = Some "Grace".
Proof. split; vm_compute; reflexivity. Qed.

(** ** Edit operations through the handler *)

Lemma splice_at_start content text : splice content 0 text = text +:+ content.
Proof. unfold splice. simpl. by rewrite app_empty_l. Qed.

Lemma drop_all n s : (String.length s <= n)%nat -> Js.drop n s = EmptyString.
Proof.
  revert s; induction n as [|n IH]; intros [|c s]; simpl; intros H; try done.
  - lia.
  - apply IH. lia.
Qed.

Lemma app_empty_r (s : string) : s +:+ EmptyString = s.
Proof. induction s as [|c s IH]; [done|]. by rewrite app_cons, IH. Qed.

Lemma splice_at_end content text :
  splice content (String.length content) text = content +:+ text.
Proof.
  unfold splice. rewrite take_all, drop_all by lia. by rewrite app_empty_r.
Qed.

(** C3. An insert [{position, text}] stores the splice of [text] into the
    content at [position] clamped into [0, length]: a negative position
    inserts at the start, a position past the end appends; the handler's inner
    [try] then stores that content and sends no error, whatever the
    position. *)
Theorem insert_clamps_position socket clk entityType entityId blockId position text
    w block :
  let data := {| bed_entityType := entityType; bed_entityId := entityId;
                 bed_blockId := blockId;
                 bed_operation := insert_op blockId position text |} in
  let content := sb_content block in
  let p := Z.to_nat (Js.clamp content position) in
  db_blocks (prisma w) !! blockId = Some block ->
  apply_operation (insert_op blockId position text) content = splice content p text
  /\ (p <= String.length content)%nat
  /\ (0 <= position <= Js.len content -> p = Z.to_nat position)
  /\ (position < 0 -> splice content p text = text +:+ content)
  /\ (Js.len content < position -> splice content p text = content +:+ text)
  /\ content_of (exec (edit_apply socket clk no_faults data) w) blockId
     = Some (splice content p text)
  /\ Forall (fun d => is_error (dl_message d) = false)
       (sent (edit_apply socket clk no_faults data) w).
Proof.
  intros data content p Hb.
  pose proof (clamp_range content position) as Hp.
  split; [apply insert_op_spec|].
  split; [unfold p, Js.len in *; lia|].
  split; [intros H; unfold p; by rewrite clamp_in_range|].
  split.
  { intros H. replace p with 0%nat; [apply splice_at_start|].
    unfold p, Js.clamp. lia. }
  split.
  { intros H. replace p with (String.length content); [apply splice_at_end|].
    unfold p, Js.clamp, Js.len in *. lia. }
  unfold sent, exec. rewrite (edit_apply_ok socket clk data w block Hb); simpl.
  split.
  - unfold content_of; simpl. rewrite lookup_insert_eq; simpl.
    f_equal. apply insert_op_spec.
  - rewrite drop_app_length. by repeat constructor.
Qed.

Lemma insert_clamps_position_witness :
  apply_operation (insert_op "b1" 99 "!") "Grace" = splice "Grace" 5 "!"
  /\ (5 <= String.length "Grace")%nat
  /\ (0 <= 99 <= Js.len "Grace" -> 5%nat = Z.to_nat 99)
  /\ (99 < 0 -> splice "Grace" 5 "!" = "!" +:+ "Grace")
  /\ (Js.len "Grace" < 99 -> splice "Grace" 5 "!" = "Grace" +:+ "!")
  /\ content_of (exec (edit_apply bob (clock_at 2000) no_faults
                         (edit_b1 (insert_op "b1" 99 "!")))
                   (demo_world ∅ "Grace")) "b1"
     = Some (splice "Grace" 5 "!")
  /\ Forall (fun d => is_error (dl_message d) = false)
       (sent (edit_apply bob (clock_at 2000) no_faults
                (edit_b1 (insert_op "b1" 99 "!")))
          (demo_world ∅ "Grace")).
Proof.
  apply (insert_clamps_position bob (clock_at 2000) sermon "D1" "b1" 99 "!"
           (demo_world ∅ "Grace") {| sb_content := "Grace"; sb_updatedAt := 0 |}).
  reflexivity.
Defined.

Example insert_in_range : apply_operation (insert_op "b1" 2 "xy") "Grace" = "Grxyace".
Proof. reflexivity. Qed.

Example insert_negative : apply_operation (insert_op "b1" (-3) "xy") "Grace" = "xyGrace".
Proof. reflexivity. Qed.

Example insert_past_end : apply_operation (insert_op "b1" 99 "xy") "Grace" = "Gracexy".
Proof. reflexivity. Qed.

(** C10. An operation that lacks a field its case needs (insert without
    position, or without text or with the empty text; delete without position,
    or without length or with length 0; replace without text) computes the
    loaded content itself, and the handler stores exactly that content in the
    block and in the version record. *)
Theorem missing_fields_leave_content socket clk data w block :
  db_blocks (prisma w) !! bed_blockId data = Some block ->
  missing_fields (bed_operation data) ->
  apply_operation (bed_operation data) (sb_content block) = sb_content block
  /\ content_of (exec (edit_apply socket clk no_faults data) w) (bed_blockId data)
     = Some (sb_content block)
  /\ last (db_blockVersions (prisma (exec (edit_apply socket clk no_faults data) w)))
     = Some {| sbv_blockId := bed_blockId data; sbv_content := sb_content block;
               sbv_createdById := auth_userId socket |}.
Proof.
  intros Hb Hm.
  pose proof (missing_fields_unchanged _ (sb_content block) Hm) as Heq.
  split; [done|].
  unfold exec. rewrite (edit_apply_ok socket clk data w block Hb); simpl.
  rewrite Heq. split.
  - unfold content_of; simpl. by rewrite lookup_insert_eq.
  - by rewrite last_snoc.
Qed.

Lemma missing_fields_leave_content_witness :
  apply_operation (bed_operation (edit_b1 delete_without_length))
    (sb_content {| sb_content := "Grace"; sb_updatedAt := 0 |})
  = sb_content {| sb_content := "Grace"; sb_updatedAt := 0 |}
  /\ content_of (exec (edit_apply bob (clock_at 2000) no_faults
                         (edit_b1 delete_without_length))
                   (demo_world ∅ "Grace"))
       (bed_blockId (edit_b1 delete_without_length))
     = Some (sb_content {| sb_content := "Grace"; sb_updatedAt := 0 |})
  /\ last (db_blockVersions
             (prisma (exec (edit_apply bob (clock_at 2000) no_faults
                              (edit_b1 delete_without_length))
                        (demo_world ∅ "Grace"))))
     = Some {| sbv_blockId := bed_blockId (edit_b1 delete_without_length);
               sbv_content := sb_content {| sb_content := "Grace"; sb_updatedAt := 0 |};
               sbv_createdById := auth_userId bob |}.
Proof.
  apply (missing_fields_leave_content bob (clock_at 2000)
           (edit_b1 delete_without_length) (demo_world ∅ "Grace")
           {| sb_content := "Grace"; sb_updatedAt := 0 |}).
  - reflexivity.
  - right; left. reflexivity.
Defined.

Example delete_in_range :
  apply_operation {| op_type := delete; op_blockId := "b1"; op_position := Some 1;
                     op_length := Some 3; op_text := None |} "Grace" = "Ge".
Proof. reflexivity. Qed.

Example replace_with_empty_text :
  apply_operation {| op_type := replace; op_blockId := "b1"; op_position := None;
                     op_length := None; op_text := Some EmptyString |} "Grace"
  = EmptyString.
Proof. reflexivity. Qed.

(** ** Repeating an insert *)

(** The claim "applying the same insert twice differs from applying it once,
    for every content and every insert" fails for the insert of the empty
    text at 0 into "abc": the guard [operation.text] is falsy and both
    results are "abc". *)
Lemma empty_insert_is_idempotent :
  ~ (forall content operation,
       op_type operation = insert ->
       apply_operation operation (apply_operation operation content)
       <> apply_operation operation content).
Proof.
  intros H.
  apply (H "abc" (insert_op "b1" 0 EmptyString)); reflexivity.
Qed.

(** C6, amended. An insert with a position and a non-empty text is not
    idempotent: applied twice it yields content different from applied once
    (each application lengthens the content by the length of the text). *)
Theorem nonempty_insert_not_idempotent blockId position text content :
  text <> EmptyString ->
  apply_operation (insert_op blockId position text)
    (apply_operation (insert_op blockId position text) content)
  <> apply_operation (insert_op blockId position text) content.
Proof.
  intros Hne Heq. apply (f_equal String.length) in Heq.
  rewrite !insert_op_spec, !length_splice in Heq.
  destruct text; [done|]. simpl in Heq. lia.
Qed.

Lemma nonempty_insert_not_idempotent_witness :
  apply_operation (insert_op "b1" 0 "Grace")
    (apply_operation (insert_op "b1" 0 "Grace") EmptyString)
  <> apply_operation (insert_op "b1" 0 "Grace") EmptyString.
Proof.
  apply (nonempty_insert_not_idempotent "b1" 0 "Grace" EmptyString).
  discriminate.
Defined.

Example insert_twice :
  apply_operation (insert_op "b1" 0 "Grace")
    (apply_operation (insert_op "b1" 0 "Grace") EmptyString) = "GraceGrace".
Proof. reflexivity. Qed.

(** ** Broadcast exclusion *)

Lemma cursor_sent socket clk data w :
  let roomId := room_id (cd_entityType data) (cd_entityId data) in
  sent (cursor socket clk data) w
  = [{| dl_target := ToRoomExcept roomId (socket_id socket);
        dl_recipients := members (rooms w) roomId ∖ {[socket_id socket]};
        dl_message := cursor_moved roomId (auth_userId socket)
                        (at_cursor_payload clk) (cd_position data) |}].
Proof.
  intros roomId. apply sent_app. unfold exec, cursor. run_handler.
  destruct (redis w) as [r|] eqn:Hr; simpl; [|done].
  repeat (rewrite Hr; simpl). fold roomId.
  destruct (sessions r !! roomId) as [session|]; simpl; [|done].
  destruct (sm_activeUsers session !! auth_userId socket) as [user|]; simpl; [|done].
  run_handler. done.
Qed.

Lemma join_sent socket clk faults data w :
  let roomId := room_id (jd_entityType data) (jd_entityId data) in
  (exists m, is_error m = true
             /\ sent (join socket clk faults data) w = [to_socket_only socket m])
  \/ (exists user snapshot,
        sent (join socket clk faults data) w
        = [{| dl_target := ToRoomExcept roomId (socket_id socket);
              dl_recipients := ({[socket_id socket]} ∪ members (rooms w) roomId)
                                 ∖ {[socket_id socket]};
              dl_message := user_joined roomId (auth_userId socket)
                              (at_join_payload clk) user |};
           to_socket_only socket (SessionMsg snapshot)]).
Proof.
  intros roomId. destruct w as [cl d rs o].
  unfold sent, exec, join, checkCollaborationAccess. run_handler.
  fold roomId.
  destruct (access_fault faults) as [e|]; simpl.
  { left. eexists. split; [|by rewrite drop_app_length]. done. }
  destruct (match jd_entityType data with
            | sermon => db_sermons d !! jd_entityId data
            | series => db_series d !! jd_entityId data
            end) as [doc|]; simpl.
  2:{ left. eexists. split; [|by rewrite drop_app_length]. done. }
  destruct (bool_decide _ || bool_decide _); simpl.
  2:{ left. eexists. split; [|by rewrite drop_app_length]. done. }
  unfold socket_join; simpl.
  destruct (user_fault faults) as [e|]; simpl.
  { left. eexists. split; [|by rewrite drop_app_length]. done. }
  destruct (db_users d !! auth_userId socket) as [user|]; simpl.
  2:{ left. eexists. split; [|by rewrite drop_app_length]. done. }
  right. unfold join_store, join_reply, redis_sadd. run_handler. fold roomId.
  destruct cl as [r|]; simpl.
  - rewrite lookup_insert_eq. simpl. unfold members at 1. rewrite lookup_insert_eq. simpl.
    do 2 eexists. rewrite <- app_assoc, drop_app_length. done.
  - unfold members at 1. rewrite lookup_insert_eq. simpl.
    do 2 eexists. rewrite <- app_assoc, drop_app_length. done.
Qed.

(** [checkCollaborationAccess] answers, never throws and changes nothing; the
    answer is yes exactly when the lookup worked and found the user as
    creator or collaborator. *)
Lemma checkCollaborationAccess_spec fault userId entityType entityId w :
  exists b, checkCollaborationAccess fault userId entityType entityId w = (Ok b, w)
            /\ (b = true <-> fault = None
                             /\ may_collaborate (prisma w) userId entityType entityId).
Proof.
  destruct w as [cl d rs o0].
  unfold checkCollaborationAccess, may_collaborate, document_of. run_handler.
  destruct fault as [e|]; simpl.
  { eexists. split; [done|]. split; [done|]. by intros [? _]. }
  destruct entityType; simpl;
    [destruct (db_sermons d !! entityId) as [doc|] eqn:Hd
    |destruct (db_series d !! entityId) as [doc|] eqn:Hd];
    simpl; eexists; (split; [reflexivity|]).
  1,3: rewrite orb_true_iff, !bool_decide_eq_true; split;
    [intros H; split; [done|]; by exists doc | by intros [_ (doc' & [= <-] & H)]].
  all: split; [done | by intros [_ (? & ? & _)]].
Qed.

Lemma members_insert rs roomId (ms : gset string) :
  members (<[roomId := ms]> rs) roomId = ms.
Proof. unfold members. by rewrite lookup_insert_eq. Qed.

(** [join] when the user is admitted: the whole run. *)
Lemma join_run socket clk data w r user :
  let roomId := room_id (jd_entityType data) (jd_entityId data) in
  let userId := auth_userId socket in
  let me := collaboration_user userId user (jd_displayName data) (at_user_activity clk) in
  let session' := joined_session r userId clk data me in
  redis w = Some r ->
  may_collaborate (prisma w) userId (jd_entityType data) (jd_entityId data) ->
  db_users (prisma w) !! userId = Some user ->
  join socket clk no_join_faults data w
  = (Ok tt,
     {| redis := Some {| sessions := <[roomId := session']> (sessions r);
                         userSessions := <[userId := {[roomId]} ∪ smembers r userId]>
                                           (userSessions r) |};
        prisma := prisma w;
        rooms := <[roomId := {[socket_id socket]} ∪ members (rooms w) roomId]> (rooms w);
        outbox := outbox w
          ++ [{| dl_target := ToRoomExcept roomId (socket_id socket);
                 dl_recipients := ({[socket_id socket]} ∪ members (rooms w) roomId)
                                    ∖ {[socket_id socket]};
                 dl_message := user_joined roomId userId (at_join_payload clk) me |};
              to_socket_only socket
                (SessionMsg {| ss_id := roomId; ss_entityType := jd_entityType data;
                               ss_entityId := jd_entityId data;
                               ss_activeUsers := active_user_list session';
                               ss_lastActivity := at_session_activity clk |})] |}).
Proof.
  intros roomId userId me session' Hr Hacc Hu.
  destruct (checkCollaborationAccess_spec None userId
              (jd_entityType data) (jd_entityId data) w) as (b & Hrun & Hb).
  assert (b = true) as -> by (by apply Hb).
  destruct w as [cl d rs o]. simpl in Hr, Hu; subst cl.
  unfold join, try_catch, mbind, M_bind. simpl access_fault.
  fold userId. rewrite Hrun. simpl.
  unfold socket_join, prisma_call; simpl. rewrite Hu; simpl.
  unfold join_store, join_reply, redis_sadd. run_handler. fold roomId userId me.
  rewrite lookup_insert_eq; simpl. rewrite !members_insert.
  unfold session', joined_session. fold roomId.
  destruct (sessions r !! roomId) as [session|]; simpl; by rewrite <- app_assoc.
Qed.

(** What an admitted [join] sends, with or without Redis. *)
Lemma join_admitted_sent socket clk data w user :
  let roomId := room_id (jd_entityType data) (jd_entityId data) in
  let userId := auth_userId socket in
  may_collaborate (prisma w) userId (jd_entityType data) (jd_entityId data) ->
  db_users (prisma w) !! userId = Some user ->
  exists snapshot,
    sent (join socket clk no_join_faults data) w
    = [{| dl_target := ToRoomExcept roomId (socket_id socket);
          dl_recipients := ({[socket_id socket]} ∪ members (rooms w) roomId)
                             ∖ {[socket_id socket]};
          dl_message :=
            user_joined roomId userId (at_join_payload clk)
              (collaboration_user userId user (jd_displayName data)
                 (at_user_activity clk)) |};
       to_socket_only socket (SessionMsg snapshot)].
Proof.
  intros roomId userId Hacc Hu.
  destruct (redis w) as [r|] eqn:Hr.
  - pose proof (join_run socket clk data w r user Hr Hacc Hu) as Hrun.
    cbv zeta in Hrun. eexists. unfold sent, exec. rewrite Hrun. simpl.
    by rewrite drop_app_length.
  - destruct (checkCollaborationAccess_spec None userId
                (jd_entityType data) (jd_entityId data) w) as (b & Hrun & Hb).
    assert (b = true) as -> by (by apply Hb).
    destruct w as [cl d rs o]. simpl in Hr, Hu; subst cl.
    eexists. unfold sent, exec, join, try_catch, mbind, M_bind. simpl access_fault.
    fold userId. rewrite Hrun. simpl.
    unfold socket_join, prisma_call; simpl. rewrite Hu; simpl.
    unfold join_reply. run_handler. fold roomId userId.
    rewrite !members_insert. rewrite <- app_assoc. by rewrite drop_app_length.
Qed.

(** C7. Broadcast exclusion.  The [cursor] handler sends exactly one message,
    the [cursor_moved] broadcast, and it reaches exactly the connections of
    the room other than the sending one.  A [join] of a user who is the creator
    or a collaborator, whose row exists, when no lookup fails, sends the
    [user_joined] broadcast with the joiner's record, and it reaches exactly
    the connections that were in the room, not the joining one, which gets the
    [session] snapshot.  And whatever happens in a [join], a [collaboration]
    message it sends is that broadcast and reaches no connection but the
    others of the room. *)
Theorem broadcast_exclusion socket w :
  (forall clk data,
     let roomId := room_id (cd_entityType data) (cd_entityId data) in
     exists d,
       sent (cursor socket clk data) w = [d]
       /\ dl_message d
          = CollaborationMsg
              {| cep_event := CURSOR_MOVED; cep_sessionId := roomId;
                 cep_userId := auth_userId socket;
                 cep_timestamp := at_cursor_payload clk;
                 cep_data := CursorData (auth_userId socket) (cd_position data) |}
       /\ excludes_origin (rooms w) roomId socket d)
  /\ (forall clk data user,
        let roomId := room_id (jd_entityType data) (jd_entityId data) in
        let userId := auth_userId socket in
        may_collaborate (prisma w) userId (jd_entityType data) (jd_entityId data) ->
        db_users (prisma w) !! userId = Some user ->
        exists d snapshot,
          sent (join socket clk no_join_faults data) w
          = [d; to_socket_only socket (SessionMsg snapshot)]
          /\ dl_message d
             = CollaborationMsg
                 {| cep_event := USER_JOINED; cep_sessionId := roomId;
                    cep_userId := userId; cep_timestamp := at_join_payload clk;
                    cep_data :=
                      JoinedData (collaboration_user userId user (jd_displayName data)
                                    (at_user_activity clk)) |}
          /\ excludes_origin (rooms w) roomId socket d)
  /\ (forall clk faults data,
        let roomId := room_id (jd_entityType data) (jd_entityId data) in
        Forall (fun d =>
                  is_collaboration (dl_message d) = true ->
                  (exists user,
                     dl_message d
                     = CollaborationMsg
                         {| cep_event := USER_JOINED; cep_sessionId := roomId;
                            cep_userId := auth_userId socket;
                            cep_timestamp := at_join_payload clk;
                            cep_data := JoinedData user |})
                  /\ excludes_origin (rooms w) roomId socket d)
          (sent (join socket clk faults data) w)).
Proof.
  assert (forall roomId d,
            dl_recipients d = ({[socket_id socket]} ∪ members (rooms w) roomId)
                                ∖ {[socket_id socket]} ->
            excludes_origin (rooms w) roomId socket d) as Hexcl.
  { intros roomId d Hd s. rewrite Hd.
    rewrite elem_of_difference, elem_of_union, !elem_of_singleton. tauto. }
  split_and!.
  - intros clk data roomId. eexists. split; [apply cursor_sent|].
    split; [done|]. intros s; simpl.
    by rewrite elem_of_difference, elem_of_singleton.
  - intros clk data user roomId userId Hacc Hu.
    destruct (join_admitted_sent socket clk data w user Hacc Hu) as (snapshot & ->).
    eexists _, snapshot. split; [reflexivity|]. split; [reflexivity|].
    by apply Hexcl.
  - intros clk faults data roomId.
    destruct (join_sent socket clk faults data w)
      as [(m & Hm & ->) | (user & snapshot & ->)].
    + constructor; [|constructor]. simpl. destruct m; done.
    + constructor; [|constructor; [done|constructor]].
      intros _. split; [by eexists|]. by apply Hexcl.
Qed.

Lemma broadcast_exclusion_witness :
  exists d snapshot,
    sent (join bob (join_clock_at 11) no_join_faults join_D1) after_A_joined
    = [d; to_socket_only bob (SessionMsg snapshot)]
    /\ "socket-a" ∈ dl_recipients d
    /\ "socket-b" ∉ dl_recipients d.
Proof.
  destruct (broadcast_exclusion bob after_A_joined) as (_ & Hjoin & _).
  destruct (Hjoin (join_clock_at 11) join_D1
              {| up_firstName := "Bo"; up_lastName := "Ray"; up_avatarUrl := None |})
    as (d & snapshot & Hsent & _ & Hexcl).
  - eexists. split; [reflexivity|]. right. vm_compute. reflexivity.
  - reflexivity.
  - exists d, snapshot. split; [exact Hsent|]. split.
    + apply Hexcl. split; [|discriminate].
      unfold members, after_A_joined, run, exec, handle. simpl.
      vm_compute. done.
    + intros [_ Hne]%Hexcl. done.
Defined.

(** B is in the room when A joins: B's socket receives [user_joined], A's
    does not; when A moves the cursor, again only B's socket hears it. *)
Example join_reaches_the_others :
  (fun d => (dl_target d, elements (dl_recipients d), is_collaboration (dl_message d)))
    <$> sent (join alice (join_clock_at 10) no_join_faults join_D1)
          {| redis := Some {| sessions := ∅; userSessions := ∅ |};
             prisma := demo_db EmptyString;
             rooms := {[ "sermon:D1" := {[ "socket-b" ]} ]};
             outbox := [] |}
  = [ (ToRoomExcept "sermon:D1" "socket-a", ["socket-b"], true);
      (ToSocket "socket-a", ["socket-a"], false) ].
Proof. vm_compute. reflexivity. Qed.

Example cursor_reaches_the_others :
  (fun d => (dl_target d, elements (dl_recipients d)))
    <$> sent (cursor alice {| at_cursor_activity := 5; at_cursor_payload := 5 |}
                cursor_in_b1)
          (demo_world ∅ "Grace")
  = [ (ToRoomExcept "sermon:D1" "socket-a", ["socket-b"]) ].
Proof. vm_compute. reflexivity. Qed.

(** ** Interleaved lock acquisition *)

(** The lock section is its two stretches run back to back. *)
Lemma acquire_steps_compose socket clk data w :
  (a ← acquire_step socket clk data BeforeGet; acquire_step socket clk data a) w
  = (proceed ← edit_acquire socket clk data; mret (Settled proceed)) w.
Proof.
  destruct w as [[r|] d rs o]; unfold acquire_step, edit_acquire; run_handler; [|done].
  by destruct (sessions r !! _).
Qed.


(** In that run nobody is refused, and the session B writes last replaces
    A's: A's lock and A's logged operation are gone. *)
Example lost_lock :
  let w' := exec (interleave request_of_A request_of_B [false; true; false; true]
                    BeforeGet BeforeGet) (demo_world ∅ EmptyString) in
  outbox w' = []
  /\ (sm_locks <$> session_of w' "sermon:D1")
     = Some {[ "b1" := {| lock_userId := "B"; lock_expires := 31001 |} ]}
  /\ (length ∘ sm_operations <$> session_of w' "sermon:D1") = Some 1%nat.
Proof. vm_compute. done. Qed.



(** ** Presence: who a stored session lists *)

Lemma same_presence_refl r : same_presence r r.
Proof. by split. Qed.

Lemma same_presence_trans r1 r2 r3 :
  same_presence r1 r2 -> same_presence r2 r3 -> same_presence r1 r3.
Proof.
  intros [Hu1 Hp1] [Hu2 Hp2]. split; [congruence|].
  intros roomId. by rewrite Hp2.
Qed.

Lemma world_same_presence_refl w : world_same_presence w w.
Proof. unfold world_same_presence. destruct (redis w); [apply same_presence_refl | done]. Qed.

Lemma world_same_presence_trans w1 w2 w3 :
  world_same_presence w1 w2 -> world_same_presence w2 w3 -> world_same_presence w1 w3.
Proof.
  unfold world_same_presence.
  destruct (redis w1), (redis w2), (redis w3); try done.
  apply same_presence_trans.
Qed.

Lemma store_ok_same_presence r r' : same_presence r r' -> store_ok r -> store_ok r'.
Proof.
  intros [Hu Hp] Hok roomId users Hpres. rewrite Hp in Hpres.
  destruct (Hok roomId users Hpres) as [Hne Hidx]. split; [done|].
  intros userId Hin. unfold smembers. rewrite Hu. by apply Hidx.
Qed.

Lemma world_ok_same_presence w w' : world_same_presence w w' -> world_ok w -> world_ok w'.
Proof.
  unfold world_same_presence, world_ok. intros Hsame Hok r' Hr'.
  rewrite Hr' in Hsame. destruct (redis w) as [r|]; [|done].
  eapply store_ok_same_presence; eauto.
Qed.

(** Rewriting a stored record without touching who is listed. *)
Lemma same_presence_update r roomId session session' :
  sessions r !! roomId = Some session ->
  dom (sm_activeUsers session') = dom (sm_activeUsers session) ->
  same_presence r {| sessions := <[roomId := session']> (sessions r);
                     userSessions := userSessions r |}.
Proof.
  intros Hs Hdom. split; [done|]. intros room. unfold present; simpl.
  destruct (decide (roomId = room)) as [<-|Hne].
  - rewrite lookup_insert_eq, Hs. simpl. by rewrite Hdom.
  - by rewrite lookup_insert_ne.
Qed.

Lemma same_presence_release roomId blockId userId r :
  same_presence r (release_lock roomId blockId userId r).
Proof.
  unfold release_lock.
  destruct (sessions r !! roomId) as [session|] eqn:Hs; [|apply same_presence_refl].
  destruct (held_by _ _ _); [|apply same_presence_refl].
  by apply (same_presence_update _ _ session).
Qed.

Lemma block_edit_same_presence socket clk faults data w :
  world_same_presence w (exec (block_edit socket clk faults data) w).
Proof.
  set (roomId := room_id (bed_entityType data) (bed_entityId data)).
  assert (exists b w1, edit_acquire socket clk data w = (Ok b, w1)
                       /\ world_same_presence w w1) as (b & w1 & Hacq & Hsame).
  { destruct (redis w) as [r|] eqn:Hr.
    - destruct (sessions r !! roomId) as [session|] eqn:Hs.
      + destruct (locked_by_other session (bed_blockId data) (auth_userId socket)
                    (at_lock_check clk)) as [holder|] eqn:Hl.
        * do 2 eexists. split.
          { apply (edit_acquire_blocked _ _ _ _ session holder); [|done].
            apply session_of_Some; eauto. }
          unfold world_same_presence; simpl. rewrite Hr. apply same_presence_refl.
        * do 2 eexists. split; [by apply (edit_acquire_free _ _ _ _ r session)|].
          unfold world_same_presence; simpl. rewrite Hr.
          by apply (same_presence_update _ _ session).
      + exists true, w. split; [by apply (edit_acquire_no_session _ _ _ _ r)|].
        apply world_same_presence_refl.
    - exists true, w. split; [by apply edit_acquire_no_client|].
      apply world_same_presence_refl. }
  destruct b.
  - unfold exec. rewrite (block_edit_proceeds _ _ faults _ _ _ Hacq).
    destruct (edit_apply_total socket clk faults data w1)
      as (w2 & d & -> & _ & _ & _ & Hred). simpl.
    apply (world_same_presence_trans _ w1); [done|].
    unfold world_same_presence. destruct Hred as [-> | ->].
    + destruct (redis w1); [apply same_presence_refl | done].
    + destruct (redis w1); simpl; [apply same_presence_release | done].
  - unfold exec, block_edit, try_catch, mbind, M_bind. by rewrite Hacq.
Qed.

Lemma cursor_same_presence socket clk data w :
  world_same_presence w (exec (cursor socket clk data) w).
Proof.
  destruct w as [[r|] d rs o]; unfold exec, cursor, world_same_presence;
    run_handler; [|done].
  destruct (sessions r !! _) as [session|] eqn:Hs; simpl;
    [|apply same_presence_refl].
  destruct (sm_activeUsers session !! auth_userId socket) as [user|] eqn:Hu; simpl;
    [|apply same_presence_refl].
  apply (same_presence_update _ _ session); [done|]. simpl.
  rewrite dom_insert_L. apply elem_of_dom_2 in Hu.
  apply subseteq_union_1_L. by apply singleton_subseteq_l.
Qed.

(** A loop keeps what each turn keeps, also when a turn throws. *)
Lemma for_each_preserves {A} (R : World -> World -> Prop) (body : A -> M unit) xs :
  (forall w, R w w) ->
  (forall w1 w2 w3, R w1 w2 -> R w2 w3 -> R w1 w3) ->
  (forall x w, R w (exec (body x) w)) ->
  forall w, R w (exec (for_each xs body) w).
Proof.
  intros Hrefl Htrans Hbody. induction xs as [|x xs IH]; intros w; simpl.
  - apply Hrefl.
  - unfold exec, mbind, M_bind. specialize (Hbody x w). unfold exec in Hbody.
    destruct (body x w) as [[[]|e] w1]; simpl in *; [|done].
    eapply Htrans; [exact Hbody | apply IH].
Qed.

Lemma cleanup_room_same_presence now roomId w :
  world_same_presence w (exec (cleanup_room now roomId) w).
Proof.
  destruct w as [[r|] d rs o]; unfold exec, cleanup_room, world_same_presence;
    run_handler; [|done].
  destruct (sessions r !! roomId) as [session|] eqn:Hs; simpl;
    [|apply same_presence_refl].
  destruct (_ <? _)%nat; run_handler; [|apply same_presence_refl].
  by apply (same_presence_update _ _ session).
Qed.

Lemma cleanup_same_presence now w :
  world_same_presence w (exec (cleanup now) w).
Proof.
  unfold exec, cleanup, try_catch, mbind, M_bind, redis_available.
  destruct (redis w) as [r|] eqn:Hr; simpl; [|apply world_same_presence_refl].
  unfold redis_session_keys, redis_command. rewrite Hr.
  pose proof (for_each_preserves world_same_presence (cleanup_room now)
                (elements (dom (sessions r))) world_same_presence_refl
                world_same_presence_trans (cleanup_room_same_presence now)
                (set_redis w (Some r))) as Hloop.
  unfold exec in Hloop.
  destruct (for_each _ _ _) as [[[]|e] w1]; simpl in *.
  all: unfold world_same_presence in *; simpl in *; by rewrite Hr.
Qed.

(** *** [leave] *)

Lemma has_users_spec session :
  has_users session = true <-> dom (sm_activeUsers session) <> ∅.
Proof.
  unfold has_users. rewrite Nat.ltb_lt, dom_empty_iff_L.
  rewrite <- map_size_non_empty_iff. lia.
Qed.

Lemma dom_remove_user session userId :
  dom (sm_activeUsers (remove_user session userId))
  = dom (sm_activeUsers session) ∖ {[userId]}.
Proof. unfold remove_user; simpl. apply dom_delete_L. Qed.

(** The store after the Redis section of [leave]. *)
Lemma leave_redis socket now data w r :
  redis w = Some r ->
  let roomId := room_id (rd_entityType data) (rd_entityId data) in
  let userId := auth_userId socket in
  redis (exec (leave socket now data) w)
  = Some match sessions r !! roomId with
         | Some session =>
             let rest := smembers r userId ∖ {[roomId]} in
             {| sessions := sessions (drop_user userId r roomId);
                userSessions := if decide (rest = ∅)
                                then base.delete userId (userSessions r)
                                else <[userId := rest]> (userSessions r) |}
         | None => r
         end.
Proof.
  intros Hr roomId userId. destruct w as [cl d rs o]. simpl in Hr; subst cl.
  unfold exec, leave, socket_leave, redis_srem, drop_user. run_handler. fold roomId userId.
  destruct (sessions r !! roomId) as [session|] eqn:Hs; simpl; [|done].
  destruct (has_users (remove_user session userId)); run_handler; done.
Qed.

Lemma smembers_srem r userId roomId us :
  us = (let rest := smembers r userId ∖ {[roomId]} in
        if decide (rest = ∅) then base.delete userId (userSessions r)
        else <[userId := rest]> (userSessions r)) ->
  forall u, default ∅ (us !! u)
            = if decide (u = userId) then smembers r userId ∖ {[roomId]}
              else smembers r u.
Proof.
  intros -> u. simpl. unfold smembers.
  destruct (decide (u = userId)) as [->|Hne].
  - destruct (decide (_ = ∅)) as [He|He].
    + by rewrite lookup_delete_eq, He.
    + by rewrite lookup_insert_eq.
  - destruct (decide (_ = ∅)).
    + by rewrite lookup_delete_ne.
    + by rewrite lookup_insert_ne.
Qed.

Lemma present_drop_user userId r roomId room :
  present (drop_user userId r roomId) room
  = if decide (room = roomId)
    then match present r roomId with
         | Some users => if decide (users ∖ {[userId]} = ∅) then None
                         else Some (users ∖ {[userId]})
         | None => None
         end
    else present r room.
Proof.
  unfold present, drop_user.
  destruct (sessions r !! roomId) as [session|] eqn:Hs; simpl.
  - destruct (has_users (remove_user session userId)) eqn:Hu; simpl.
    + apply has_users_spec in Hu. rewrite dom_remove_user in Hu.
      destruct (decide (room = roomId)) as [->|Hne].
      * rewrite lookup_insert_eq; simpl. rewrite decide_False by done.
        by rewrite dom_delete_L.
      * by rewrite lookup_insert_ne.
    + assert (dom (sm_activeUsers session) ∖ {[userId]} = ∅) as He.
      { rewrite <- dom_remove_user.
        destruct (decide (dom (sm_activeUsers (remove_user session userId)) = ∅));
          [done|]. apply has_users_spec in n. congruence. }
      destruct (decide (room = roomId)) as [->|Hne].
      * rewrite lookup_delete_eq; simpl. by rewrite decide_True.
      * by rewrite lookup_delete_ne.
  - destruct (decide (room = roomId)) as [->|Hne]; [by rewrite Hs | done].
Qed.

Lemma leave_ok socket now data w : world_ok w -> world_ok (exec (leave socket now data) w).
Proof.
  intros Hok r' Hr'.
  destruct (redis w) as [r|] eqn:Hr.
  2:{ destruct w as [cl d rs o]. simpl in Hr; subst cl.
      unfold exec, leave, socket_leave in Hr'. by run_handler. }
  rewrite (leave_redis _ _ _ _ _ Hr) in Hr'. injection Hr' as <-.
  specialize (Hok r Hr).
  set (roomId := room_id (rd_entityType data) (rd_entityId data)).
  set (userId := auth_userId socket).
  destruct (sessions r !! roomId) as [session|] eqn:Hs; [|done].
  intros room users Hp.
  assert (present (drop_user userId r roomId) room = Some users) as Hp'.
  { unfold present in *. simpl in Hp. done. }
  clear Hp. rewrite present_drop_user in Hp'.
  unfold smembers; simpl.
  pose proof (smembers_srem r userId roomId _ eq_refl) as Hsm. simpl in Hsm.
  destruct (decide (room = roomId)) as [->|Hne].
  - destruct (present r roomId) as [users0|] eqn:Hp0; [|done].
    destruct (decide (users0 ∖ {[userId]} = ∅)); [done|]. injection Hp' as <-.
    split; [done|]. intros u [Hin Hnu]%elem_of_difference.
    rewrite Hsm. rewrite decide_False
      by (intros ->; apply Hnu; by apply elem_of_singleton).
    by apply (Hok roomId users0).
  - destruct (Hok room users Hp') as [Hne' Hidx]. split; [done|].
    intros u Hin. rewrite Hsm. destruct (decide (u = userId)) as [->|].
    + apply elem_of_difference. split; [by apply Hidx | by rewrite elem_of_singleton].
    + by apply Hidx.
Qed.

(** *** [disconnect] *)

Lemma disconnect_room_run userId now roomId w r :
  redis w = Some r ->
  exists w', disconnect_room userId now roomId w = (Ok tt, w')
             /\ redis w' = Some (drop_user userId r roomId).
Proof.
  intros Hr. destruct w as [cl d rs o]. simpl in Hr; subst cl.
  unfold disconnect_room, drop_user. run_handler.
  destruct (sessions r !! roomId) as [session|]; simpl.
  - destruct (has_users _); run_handler; by eexists.
  - by eexists.
Qed.

Lemma for_each_disconnect userId now rooms_ w r :
  redis w = Some r ->
  exists w', for_each rooms_ (disconnect_room userId now) w = (Ok tt, w')
             /\ redis w' = Some (foldl (drop_user userId) r rooms_).
Proof.
  revert w r. induction rooms_ as [|x xs IH]; intros w r Hr; simpl.
  - by exists w.
  - destruct (disconnect_room_run userId now x w r Hr) as (w1 & Hrun & Hr1).
    destruct (IH w1 _ Hr1) as (w2 & Hloop & Hr2).
    exists w2. unfold mbind, M_bind. by rewrite Hrun.
Qed.

Lemma userSessions_drop_user userId r roomId :
  userSessions (drop_user userId r roomId) = userSessions r.
Proof. unfold drop_user. by destruct (sessions r !! roomId). Qed.

Lemma userSessions_fold_drop userId rooms_ r :
  userSessions (foldl (drop_user userId) r rooms_) = userSessions r.
Proof.
  revert r. induction rooms_ as [|x xs IH]; intros r; simpl; [done|].
  by rewrite IH, userSessions_drop_user.
Qed.

(** Who is listed after the loop of [disconnect] over distinct rooms. *)
Lemma present_fold_drop userId rooms_ r room :
  NoDup rooms_ ->
  present (foldl (drop_user userId) r rooms_) room
  = if decide (room ∈ rooms_)
    then match present r room with
         | Some users => if decide (users ∖ {[userId]} = ∅) then None
                         else Some (users ∖ {[userId]})
         | None => None
         end
    else present r room.
Proof.
  intros Hnd. revert r. induction Hnd as [|x xs Hx Hnd IH]; intros r.
  - destruct (decide (room ∈ [])) as [Hin|]; [|done]. by apply not_elem_of_nil in Hin.
  - change (foldl (drop_user userId) r (x :: xs))
      with (foldl (drop_user userId) (drop_user userId r x) xs).
    rewrite IH, !present_drop_user.
    destruct (decide (room = x)) as [->|Hne].
    + rewrite (decide_False (P := x ∈ xs)) by done.
      by rewrite (decide_True (P := x ∈ x :: xs)) by apply list_elem_of_here.
    + destruct (decide (room ∈ xs)) as [Hin|Hnin].
      * by rewrite (decide_True (P := room ∈ x :: xs)) by (by apply list_elem_of_further).
      * rewrite (decide_False (P := room ∈ x :: xs)); [done|].
        by intros [?|?]%elem_of_cons.
Qed.

(** The store after [disconnect]. *)
Lemma disconnect_redis socket now w r :
  redis w = Some r ->
  let userId := auth_userId socket in
  redis (exec (disconnect socket now) w)
  = Some {| sessions := sessions (foldl (drop_user userId) r
                                    (elements (smembers r userId)));
            userSessions := base.delete userId (userSessions r) |}.
Proof.
  intros Hr userId. subst userId. destruct w as [cl d rs o]. simpl in Hr; subst cl.
  unfold exec, disconnect, redis_smembers, redis_del_user_sessions. run_handler.
  match goal with
  | |- context [for_each ?l ?b ?w0] =>
      destruct (for_each_disconnect (auth_userId socket) now l w0 r eq_refl)
        as (w' & Hrun & Hr')
  end.
  rewrite Hrun, Hr'; simpl. by rewrite userSessions_fold_drop.
Qed.

Lemma disconnect_ok socket now w : world_ok w -> world_ok (exec (disconnect socket now) w).
Proof.
  intros Hok r' Hr'.
  destruct (redis w) as [r|] eqn:Hr.
  2:{ unfold exec, disconnect, try_catch, mbind, M_bind, redis_available in Hr'.
      simpl in Hr'. rewrite Hr in Hr'. simpl in Hr'. congruence. }
  rewrite (disconnect_redis _ _ _ _ Hr) in Hr'. injection Hr' as <-.
  specialize (Hok r Hr). set (userId := auth_userId socket).
  intros room users Hp.
  assert (present (foldl (drop_user userId) r (elements (smembers r userId))) room
          = Some users) as Hp' by done.
  clear Hp. rewrite present_fold_drop in Hp' by apply NoDup_elements.
  assert (forall u, u <> userId ->
            smembers {| sessions := sessions (foldl (drop_user userId) r
                                                (elements (smembers r userId)));
                        userSessions := base.delete userId (userSessions r) |} u
            = smembers r u) as Hsm.
  { intros u Hu. unfold smembers; simpl. by rewrite lookup_delete_ne. }
  destruct (decide (room ∈ elements (smembers r userId))) as [Hin|Hnin].
  - destruct (present r room) as [users0|] eqn:Hp0; [|done].
    destruct (decide (users0 ∖ {[userId]} = ∅)); [done|]. injection Hp' as <-.
    split; [done|]. intros u [Hu Hnu]%elem_of_difference.
    rewrite Hsm by (intros ->; apply Hnu; by apply elem_of_singleton).
    by apply (Hok room users0).
  - destruct (Hok room users Hp') as [Hne Hidx]. split; [done|].
    intros u Hu. rewrite Hsm; [by apply Hidx|].
    intros ->. apply Hnin, elem_of_elements. by apply Hidx.
Qed.

(** *** [join], and every reachable state *)

(** The store after [join]: untouched, or the user listed in the room and the
    room added to the user's set. *)
Lemma join_redis socket clk faults data w r :
  redis w = Some r ->
  let roomId := room_id (jd_entityType data) (jd_entityId data) in
  let userId := auth_userId socket in
  redis (exec (join socket clk faults data) w) = Some r
  \/ exists session',
       dom (sm_activeUsers session')
       = {[userId]} ∪ default ∅ (present r roomId)
       /\ redis (exec (join socket clk faults data) w)
          = Some {| sessions := <[roomId := session']> (sessions r);
                    userSessions :=
                      <[userId := {[roomId]} ∪ smembers r userId]> (userSessions r) |}.
Proof.
  intros Hr roomId userId. destruct w as [cl d rs o]. simpl in Hr; subst cl.
  unfold exec, join, checkCollaborationAccess. run_handler. fold roomId userId.
  destruct (access_fault faults) as [e|]; simpl; [by left|].
  destruct (match jd_entityType data with
            | sermon => db_sermons d !! jd_entityId data
            | series => db_series d !! jd_entityId data
            end) as [doc|]; simpl; [|by left].
  destruct (bool_decide _ || bool_decide _); simpl; [|by left].
  unfold socket_join; simpl.
  destruct (user_fault faults) as [e|]; simpl; [by left|].
  destruct (db_users d !! userId) as [user|]; simpl; [|by left].
  right. unfold join_store, join_reply, redis_sadd. run_handler. fold roomId userId.
  rewrite lookup_insert_eq. simpl. eexists. split; [|reflexivity].
  unfold present. destruct (sessions r !! roomId) as [session|]; simpl.
  - apply dom_insert_L.
  - rewrite dom_singleton_L. by rewrite union_empty_r_L.
Qed.

Lemma join_no_client socket clk faults data w :
  redis w = None -> redis (exec (join socket clk faults data) w) = None.
Proof.
  intros Hr. destruct w as [cl d rs o]. simpl in Hr; subst cl.
  unfold exec, join, checkCollaborationAccess. run_handler.
  destruct (access_fault faults) as [e|]; simpl; [done|].
  destruct (match jd_entityType data with
            | sermon => db_sermons d !! jd_entityId data
            | series => db_series d !! jd_entityId data
            end) as [doc|]; simpl; [|done].
  destruct (bool_decide _ || bool_decide _); simpl; [|done].
  unfold socket_join; simpl.
  destruct (user_fault faults) as [e|]; simpl; [done|].
  by destruct (db_users d !! auth_userId socket) as [user|].
Qed.

Lemma join_ok socket clk faults data w :
  world_ok w -> world_ok (exec (join socket clk faults data) w).
Proof.
  intros Hok r' Hr'.
  destruct (redis w) as [r|] eqn:Hr.
  2:{ by rewrite (join_no_client _ _ _ _ _ Hr) in Hr'. }
  specialize (Hok r Hr).
  set (roomId := room_id (jd_entityType data) (jd_entityId data)) in *.
  set (userId := auth_userId socket) in *.
  destruct (join_redis socket clk faults data w r Hr) as [Hsame | (s' & Hdom & Hnew)].
  { rewrite Hsame in Hr'. by injection Hr' as <-. }
  fold roomId userId in Hdom, Hnew. rewrite Hnew in Hr'. injection Hr' as <-.
  intros room users Hp.
  assert (forall u, smembers {| sessions := <[roomId := s']> (sessions r);
                                userSessions := <[userId := {[roomId]} ∪ smembers r userId]>
                                                  (userSessions r) |} u
                    = if decide (u = userId) then {[roomId]} ∪ smembers r userId
                      else smembers r u) as Hsm.
  { intros u. unfold smembers at 1; simpl. destruct (decide (u = userId)) as [->|].
    - by rewrite lookup_insert_eq.
    - by rewrite lookup_insert_ne. }
  unfold present in Hp; simpl in Hp.
  destruct (decide (room = roomId)) as [->|Hne].
  - rewrite lookup_insert_eq in Hp; simpl in Hp. injection Hp as <-.
    rewrite Hdom. split.
    + intros He.
      assert (userId ∈ (∅ : gset string)) as Hin;
        [|by apply not_elem_of_empty in Hin].
      rewrite <- He. apply elem_of_union_l. by apply elem_of_singleton.
    + intros u Hu. rewrite Hsm. destruct (decide (u = userId)) as [->|Hnu].
      * apply elem_of_union_l. by apply elem_of_singleton.
      * apply elem_of_union in Hu as [Hu%elem_of_singleton | Hu]; [done|].
        destruct (present r roomId) as [users0|] eqn:Hp0; simpl in Hu;
          [|by apply not_elem_of_empty in Hu].
        by apply (Hok roomId users0).
  - rewrite lookup_insert_ne in Hp by done.
    destruct (Hok room users Hp) as [Hnemp Hidx]. split; [done|].
    intros u Hu. rewrite Hsm. destruct (decide (u = userId)) as [->|Hnu].
    + apply elem_of_union_r. by apply Hidx.
    + by apply Hidx.
Qed.

Lemma handle_ok i w : world_ok w -> world_ok (exec (handle i) w).
Proof.
  destruct i; simpl.
  - apply join_ok.
  - apply leave_ok.
  - apply world_ok_same_presence, cursor_same_presence.
  - apply world_ok_same_presence, block_edit_same_presence.
  - apply disconnect_ok.
  - apply world_ok_same_presence, cleanup_same_presence.
Qed.

Lemma run_ok inputs w : world_ok w -> world_ok (run inputs w).
Proof.
  revert w. induction inputs as [|i inputs IH]; intros w Hok; simpl; [done|].
  apply IH. by apply handle_ok.
Qed.

Lemma initial_ok client d : world_ok (initial client d).
Proof.
  intros r Hr room users Hp. destruct client; simpl in Hr; [|done].
  injection Hr as <-. unfold present in Hp. simpl in Hp. by rewrite lookup_empty in Hp.
Qed.

Lemma reachable_ok w : reachable w -> world_ok w.
Proof. intros (client & d & inputs & ->). apply run_ok, initial_ok. Qed.

(** The two stretches of a leave, one right after the other, are the
    handler. *)
Lemma leave_in_two_steps socket now data w :
  (l ← leave_step socket now data BeforeRead;
   leave_step socket now data l) w
  = (Ok Gone, exec (leave socket now data) w).
Proof.
  destruct w as [[r|] d rs o]; unfold exec, leave, leave_step, socket_leave, redis_srem;
    run_handler; [|done].
  destruct (sessions r !! room_id (rd_entityType data) (rd_entityId data))
    as [session|]; simpl; [|done].
  destruct (has_users _); by run_handler.
Qed.




(** A alone in D1: the record exists with A; after A leaves, or after A's
    socket disconnects, it does not.  With B also present, A's leaving keeps
    the record, listing B. *)
Example last_participant_leaves :
  (dom ∘ sm_activeUsers <$> session_of after_A_joined "sermon:D1") = Some {[ "A" ]}
  /\ session_of (exec (leave alice 20 leave_D1) after_A_joined) "sermon:D1" = None
  /\ session_of (exec (disconnect alice (fun _ => 20)) after_A_joined) "sermon:D1" = None
  /\ (dom ∘ sm_activeUsers
        <$> session_of (run [OnJoin bob (join_clock_at 15) no_join_faults join_D1;
                             OnLeave alice 20 leave_D1] after_A_joined) "sermon:D1")
     = Some {[ "B" ]}.
Proof. vm_compute. done. Qed.

(** ** The scenario end to end

    A edits b1 at 1000 (insert "Grace" at 0 into the empty block): the content
    becomes "Grace" and A holds the lock until 31000.  B's insert at 2000 is
    refused with [BLOCK_LOCKED] naming A and changes nothing; B's insert at
    31000 goes through. *)
Example lock_then_refuse_then_expire :
  let w1 := run [OnBlockEdit alice (clock_at 1000) no_faults
                   (edit_b1 (insert_op "b1" 0 "Grace"))]
              (demo_world ∅ EmptyString) in
  let w2 := run [OnBlockEdit bob (clock_at 2000) no_faults
                   (edit_b1 (insert_op "b1" 0 "Peace"))] w1 in
  let w3 := run [OnBlockEdit bob (clock_at 31000) no_faults
                   (edit_b1 (insert_op "b1" 0 "Peace"))] w2 in
  content_of w1 "b1" = Some "Grace"
  /\ (sm_locks <$> session_of w1 "sermon:D1") = Some lock_of_A
  /\ content_of w2 "b1" = Some "Grace"
  /\ dl_message <$> last (outbox w2) = Some (block_locked_error "b1" "A")
  /\ (elements ∘ dl_recipients <$> last (outbox w2)) = Some ["socket-b"]
  /\ content_of w3 "b1" = Some "PeaceGrace"
  /\ (sm_locks <$> session_of w3 "sermon:D1")
     = Some {[ "b1" := {| lock_userId := "B"; lock_expires := 61000 |} ]}.
Proof. vm_compute. done. Qed.

(** * Further properties of the handlers *)

Lemma take_app_exact (a b : string) : Js.take (String.length a) (a +:+ b) = a.
Proof. induction a as [|c a IH]; simpl; [done|]. by rewrite IH. Qed.

Lemma drop_app_exact (a b : string) : Js.drop (String.length a) (a +:+ b) = b.
Proof. induction a as [|c a IH]; simpl; [done|]. by rewrite IH. Qed.

Lemma drop_drop n m s : Js.drop (n + m) s = Js.drop m (Js.drop n s).
Proof.
  revert s; induction n as [|n IH]; intros s; simpl; [done|].
  destruct s as [|c s]; [by destruct m|]. apply IH.
Qed.

Lemma delete_op_spec blockId position length content :
  length <> 0 ->
  apply_operation (delete_op blockId position length) content
  = Js.take (Z.to_nat (Js.clamp content position)) content
    +:+ Js.drop (Z.to_nat (Js.clamp content (position + length))) content.
Proof.
  intros Hl. unfold apply_operation, delete_op; simpl.
  rewrite (proj2 (Z.eqb_neq _ _) Hl); simpl.
  by rewrite substring_prefix, substring_suffix.
Qed.

(** X1. A delete [{position, length}] with a non-zero length keeps the text
    before [position] and the text from [position + length] on, both indices
    clamped into [0, length of the content] separately.  With a positive
    length the content never grows, and in range it shrinks by exactly
    [length]; with a negative length the content never shrinks (the tail
    starts before the head ends, so text is repeated). *)
Theorem delete_removes_range blockId position length content :
  length <> 0 ->
  let result := apply_operation (delete_op blockId position length) content in
  result = Js.take (Z.to_nat (Js.clamp content position)) content
           +:+ Js.drop (Z.to_nat (Js.clamp content (position + length))) content
  /\ Js.len result
     = Js.clamp content position + (Js.len content - Js.clamp content (position + length))
  /\ (0 < length -> Js.len result <= Js.len content)
  /\ (0 <= position -> 0 < length -> position + length <= Js.len content ->
      Js.len result = Js.len content - length)
  /\ (length < 0 -> Js.len content <= Js.len result).
Proof.
  intros Hl result.
  assert (Js.len result
          = Js.clamp content position
            + (Js.len content - Js.clamp content (position + length))) as Hlen.
  { unfold result. rewrite delete_op_spec by done.
    pose proof (clamp_range content position).
    pose proof (clamp_range content (position + length)).
    unfold Js.len in *. rewrite length_app, length_take, length_drop. lia. }
  split; [by apply delete_op_spec|]. split; [done|].
  rewrite Hlen. unfold Js.clamp, Js.len. repeat split; lia.
Qed.

(** X2. Round trip: inserting a non-empty text at an in-range position and
    then deleting as many characters at that position gives the content
    back. *)
Theorem insert_then_delete_restores blockId position text content :
  0 <= position <= Js.len content ->
  text <> EmptyString ->
  apply_operation (delete_op blockId position (Js.len text))
    (apply_operation (insert_op blockId position text) content)
  = content.
Proof.
  intros Hp Ht.
  assert (Js.len text <> 0) as Hl.
  { unfold Js.len. destruct text; [done|]. simpl. lia. }
  rewrite delete_op_spec by done. rewrite insert_op_spec.
  rewrite (clamp_in_range content position) by done.
  set (p := Z.to_nat position).
  assert (String.length (Js.take p content) = p) as Hpre.
  { rewrite length_take. unfold p, Js.len in *. lia. }
  assert (Js.len (splice content p text) = Js.len content + Js.len text) as Hnew.
  { unfold Js.len. rewrite length_splice. lia. }
  rewrite !clamp_in_range by (rewrite ?Hnew; unfold Js.len in *; lia).
  fold p. replace (Z.to_nat (position + Js.len text)) with (p + String.length text)%nat
    by (unfold p, Js.len; lia).
  unfold splice. rewrite drop_drop.
  set (a := Js.take p content) in *. rewrite <- Hpre.
  rewrite take_app_exact, !drop_app_exact.
  rewrite Hpre. apply take_drop.
Qed.



(** X4. The caller's own lock, expired or not, never refuses the caller: the
    lock section proceeds without sending anything and rewrites the lock with
    expiry [LOCK_TIMEOUT] after the clock reading of the installation. *)
Theorem holder_refreshes_lock socket clk data w r session expires :
  let roomId := room_id (bed_entityType data) (bed_entityId data) in
  let B := bed_blockId data in
  let userId := auth_userId socket in
  redis w = Some r ->
  sessions r !! roomId = Some session ->
  sm_locks session !! B = Some {| lock_userId := userId; lock_expires := expires |} ->
  exists w1,
    edit_acquire socket clk data w = (Ok true, w1)
    /\ outbox w1 = outbox w
    /\ (sm_locks <$> session_of w1 roomId)
       = Some (<[B := {| lock_userId := userId;
                         lock_expires := at_lock clk + LOCK_TIMEOUT |}]>
                 (sm_locks session)).
Proof.
  intros roomId B userId Hr Hs Hl.
  assert (locked_by_other session B userId (at_lock_check clk) = None) as Hfree.
  { unfold locked_by_other. rewrite Hl; simpl.
    by rewrite bool_decide_eq_false_2 by (by intros []). }
  eexists. split; [by apply (edit_acquire_free _ _ _ _ r session)|].
  split; [done|]. unfold session_of; simpl. by rewrite lookup_insert_eq.
Qed.




(** X7. When the user is the creator or a collaborator, the user row exists
    and nothing fails, [join] with a Redis client leaves a session record for
    the room that lists the user (replacing an earlier entry of the same
    user), with the locks and the operation log the record had before (none
    for a new record); the room is in the user's room set and the socket in
    the Socket.IO room; the others in the room get [user_joined], and the
    joiner gets the session snapshot, which lists the joiner. *)
Theorem join_admits socket clk data w r user :
  let roomId := room_id (jd_entityType data) (jd_entityId data) in
  let userId := auth_userId socket in
  let me := collaboration_user userId user (jd_displayName data) (at_user_activity clk) in
  let w' := exec (join socket clk no_join_faults data) w in
  redis w = Some r ->
  may_collaborate (prisma w) userId (jd_entityType data) (jd_entityId data) ->
  db_users (prisma w) !! userId = Some user ->
  exists session',
    session_of w' roomId = Some session'
    /\ sm_activeUsers session'
       = <[userId := me]> (default ∅ (sm_activeUsers <$> sessions r !! roomId))
    /\ sm_locks session' = default ∅ (sm_locks <$> sessions r !! roomId)
    /\ sm_operations session' = default [] (sm_operations <$> sessions r !! roomId)
    /\ (forall r', redis w' = Some r' -> roomId ∈ smembers r' userId)
    /\ socket_id socket ∈ members (rooms w') roomId
    /\ prisma w' = prisma w
    /\ sent (join socket clk no_join_faults data) w
       = [{| dl_target := ToRoomExcept roomId (socket_id socket);
             dl_recipients := ({[socket_id socket]} ∪ members (rooms w) roomId)
                                ∖ {[socket_id socket]};
             dl_message := user_joined roomId userId (at_join_payload clk) me |};
          to_socket_only socket
            (SessionMsg {| ss_id := roomId; ss_entityType := jd_entityType data;
                           ss_entityId := jd_entityId data;
                           ss_activeUsers := active_user_list session';
                           ss_lastActivity := at_session_activity clk |})]
    /\ me ∈ active_user_list session'.
Proof.
  intros roomId userId me w' Hr Hacc Hu.
  destruct (checkCollaborationAccess_spec None userId
              (jd_entityType data) (jd_entityId data) w) as (b & Hrun & Hb).
  assert (b = true) as -> by (by apply Hb).
  destruct w as [cl d rs o]. simpl in Hr, Hu; subst cl.
  unfold w', sent, exec, join, try_catch, mbind, M_bind. simpl access_fault.
  fold userId. rewrite Hrun. simpl.
  unfold socket_join, prisma_call; simpl. rewrite Hu; simpl.
  unfold join_store, join_reply, redis_sadd. run_handler. fold roomId userId me.
  rewrite lookup_insert_eq; simpl.
  rewrite !members_insert.
  eexists. split; [unfold session_of; simpl; apply lookup_insert_eq|].
  assert (forall s' : SessionMetadata,
            sm_activeUsers s' !! userId = Some me -> me ∈ active_user_list s') as Hin.
  { intros s' Hl. unfold active_user_list. apply list_elem_of_fmap.
    exists (userId, me). split; [done|]. by apply elem_of_map_to_list. }
  destruct (sessions r !! roomId) as [session|] eqn:Hs; simpl.
  - split_and!; try done.
    + intros r' [= <-]. unfold smembers at 1; simpl. rewrite lookup_insert_eq; simpl.
      apply elem_of_union_l. by apply elem_of_singleton.
    + apply elem_of_union_l. by apply elem_of_singleton.
    + by rewrite <- app_assoc, drop_app_length.
    + apply Hin. simpl. apply lookup_insert_eq.
  - split_and!; try done.
    + intros r' [= <-]. unfold smembers at 1; simpl. rewrite lookup_insert_eq; simpl.
      apply elem_of_union_l. by apply elem_of_singleton.
    + apply elem_of_union_l. by apply elem_of_singleton.
    + by rewrite <- app_assoc, drop_app_length.
    + apply Hin. simpl. apply lookup_singleton_eq.
Qed.

(** X8. A [cursor] event of a user the session lists stores the position and
    the clock reading in that user's entry and changes nothing else in the
    record, in other records, in the database or in the rooms. *)
Theorem cursor_stores_position socket clk data w r session user :
  let roomId := room_id (cd_entityType data) (cd_entityId data) in
  let userId := auth_userId socket in
  redis w = Some r ->
  sessions r !! roomId = Some session ->
  sm_activeUsers session !! userId = Some user ->
  let w' := exec (cursor socket clk data) w in
  session_of w' roomId
  = Some (with_activeUsers session
            (<[userId := with_cursor user (cd_position data) (at_cursor_activity clk)]>
               (sm_activeUsers session)))
  /\ (forall room, room <> roomId -> session_of w' room = session_of w room)
  /\ prisma w' = prisma w /\ rooms w' = rooms w.
Proof.
  intros roomId userId Hr Hs Hu w'.
  destruct w as [cl d rs o]. simpl in Hr; subst cl.
  unfold w', exec, cursor, session_of. run_handler. fold roomId userId.
  rewrite Hs; simpl. rewrite Hu. run_handler.
  split; [apply lookup_insert_eq|]. split; [|done].
  intros room Hne. by rewrite lookup_insert_ne.
Qed.

(** X9. A [cursor] event of a user the session of the room does not list
    (or for a room without a record, or without Redis) writes nothing, yet
    the [cursor_moved] message still goes to the other connections of the
    room. *)
Theorem cursor_of_outsider_is_broadcast socket clk data w :
  let roomId := room_id (cd_entityType data) (cd_entityId data) in
  let userId := auth_userId socket in
  (forall session, session_of w roomId = Some session ->
                   sm_activeUsers session !! userId = None) ->
  cursor socket clk data w
  = (Ok tt,
     set_outbox w
       (outbox w ++ [{| dl_target := ToRoomExcept roomId (socket_id socket);
                        dl_recipients := members (rooms w) roomId ∖ {[socket_id socket]};
                        dl_message := cursor_moved roomId userId
                                        (at_cursor_payload clk) (cd_position data) |}])).
Proof.
  intros roomId userId Hout.
  destruct w as [[r|] d rs o]; unfold cursor; run_handler; [|done].
  fold roomId userId. unfold session_of in Hout; simpl in Hout.
  destruct (sessions r !! roomId) as [session|]; simpl; [|done].
  by rewrite (Hout session eq_refl).
Qed.


Lemma remove_user_locks session userId b l :
  sm_locks (remove_user session userId) !! b = Some l
  <-> sm_locks session !! b = Some l /\ lock_userId l <> userId.
Proof. unfold remove_user; simpl. by rewrite map_lookup_filter_Some. Qed.


Lemma sessions_drop_user userId r roomId room :
  sessions (drop_user userId r roomId) !! room
  = if decide (room = roomId)
    then session ← sessions r !! roomId;
         if has_users (remove_user session userId)
         then Some (remove_user session userId) else None
    else sessions r !! room.
Proof.
  unfold drop_user.
  destruct (sessions r !! roomId) as [session|] eqn:Hs; simpl.
  - destruct (has_users (remove_user session userId)); simpl;
      destruct (decide (room = roomId)) as [->|Hne];
      by rewrite ?lookup_insert_eq, ?lookup_insert_ne, ?lookup_delete_eq,
           ?lookup_delete_ne by done.
  - destruct (decide (room = roomId)) as [->|Hne]; [by rewrite Hs | done].
Qed.

(** The records after the loop of [disconnect] over distinct rooms. *)
Lemma sessions_fold_drop userId rooms_ r room :
  NoDup rooms_ ->
  sessions (foldl (drop_user userId) r rooms_) !! room
  = if decide (room ∈ rooms_)
    then session ← sessions r !! room;
         if has_users (remove_user session userId)
         then Some (remove_user session userId) else None
    else sessions r !! room.
Proof.
  intros Hnd. revert r. induction Hnd as [|x xs Hx Hnd IH]; intros r.
  - destruct (decide (room ∈ [])) as [Hin|]; [|done]. by apply not_elem_of_nil in Hin.
  - change (foldl (drop_user userId) r (x :: xs))
      with (foldl (drop_user userId) (drop_user userId r x) xs).
    rewrite IH, !sessions_drop_user.
    destruct (decide (room = x)) as [->|Hne].
    + rewrite (decide_False (P := x ∈ xs)) by done.
      by rewrite (decide_True (P := x ∈ x :: xs)) by apply list_elem_of_here.
    + destruct (decide (room ∈ xs)) as [Hin|Hnin].
      * by rewrite (decide_True (P := room ∈ x :: xs)) by (by apply list_elem_of_further).
      * rewrite (decide_False (P := room ∈ x :: xs)); [done|].
        by intros [?|?]%elem_of_cons.
Qed.

Lemma disconnect_rooms socket now w :
  rooms (exec (disconnect socket now) w)
  = (fun ms => ms ∖ {[socket_id socket]}) <$> rooms w.
Proof.
  destruct w as [[r|] d rs o].
  2:{ unfold exec, disconnect. by run_handler. }
  unfold exec, disconnect, redis_smembers, redis_del_user_sessions. run_handler.
  match goal with
  | |- context [for_each ?l ?b ?w0] =>
      pose proof (for_each_preserves (fun w1 w2 => rooms w2 = rooms w1) b l
                    (fun _ => eq_refl)) as Hloop;
      specialize (Hloop (fun w1 w2 w3 H1 H2 => eq_trans H2 H1));
      assert (rooms (exec (for_each l b) w0) = rooms w0) as Hrooms
  end.
  { apply Hloop. intros x w1. destruct w1 as [[r1|] d1 rs1 o1];
      unfold exec, disconnect_room; run_handler; [|done].
    destruct (sessions r1 !! x) as [session|]; simpl; [|done].
    destruct (has_users _); by run_handler. }
  unfold exec in Hrooms.
  match goal with
  | |- context [for_each ?l ?b ?w0] => destruct (for_each l b w0) as [[[]|e] w1]
  end; simpl in *; try done.
  by destruct (redis w1).
Qed.

(** X11. [disconnect] finds the records to update through the room set of
    the user.  When every record that lists the user is for a room of that set
    (as [join] leaves it), then after the handler has run no session record
    lists the user, the user's room set is empty, the socket is in no room, and
    in the rooms of the user's set no lock of the user is left. *)
Theorem disconnect_delists_user socket now w :
  let userId := auth_userId socket in
  let w' := exec (disconnect socket now) w in
  (forall r room session,
     redis w = Some r -> sessions r !! room = Some session ->
     is_Some (sm_activeUsers session !! userId) -> room ∈ smembers r userId) ->
  (forall room session,
     session_of w' room = Some session -> sm_activeUsers session !! userId = None)
  /\ (forall r', redis w' = Some r' -> smembers r' userId = ∅)
  /\ (forall room, socket_id socket ∉ members (rooms w') room)
  /\ (forall r room session b l,
        redis w = Some r -> room ∈ smembers r userId ->
        session_of w' room = Some session ->
        sm_locks session !! b = Some l -> lock_userId l <> userId).
Proof.
  intros userId w' Hok.
  assert (forall room, socket_id socket ∉ members (rooms w') room) as Hrooms.
  { intros room. unfold w', members. rewrite disconnect_rooms, lookup_fmap.
    destruct (rooms w !! room) as [ms|]; simpl.
    - rewrite elem_of_difference, elem_of_singleton. tauto.
    - apply not_elem_of_empty. }
  destruct (redis w) as [r|] eqn:Hr.
  2:{ assert (redis w' = None) as Hnone.
      { destruct w as [cl d rs o]. simpl in Hr; subst cl.
        unfold w', exec, disconnect. by run_handler. }
      split_and!; try done.
      - intros room session (r' & Hr' & _)%session_of_Some. congruence.
      - intros r'. congruence. }
  pose proof (disconnect_redis socket now w r Hr) as Hred. fold userId w' in Hred.
  specialize (Hok r).
  split_and!; try done.
  - intros room session (r' & Hr' & Hs')%session_of_Some.
    rewrite Hred in Hr'. injection Hr' as <-. simpl in Hs'.
    pose proof (present_fold_drop userId (elements (smembers r userId)) r room
                  (NoDup_elements _)) as Hp.
    unfold present in Hp at 1. rewrite Hs' in Hp. simpl in Hp.
    apply not_elem_of_dom.
    destruct (decide (room ∈ elements (smembers r userId))) as [Hin|Hnin].
    + destruct (present r room) as [users0|]; [|done].
      destruct (decide (users0 ∖ {[userId]} = ∅)); [done|]. injection Hp as ->.
      rewrite elem_of_difference, elem_of_singleton. tauto.
    + symmetry in Hp. intros Hu. apply Hnin, elem_of_elements.
      unfold present in Hp.
      destruct (sessions r !! room) as [s0|] eqn:Hs0; [|done].
      injection Hp as Hp. apply (Hok room s0 eq_refl Hs0).
      apply elem_of_dom. by rewrite Hp.
  - intros r'. rewrite Hred. intros [= <-]. unfold smembers; simpl.
    by rewrite lookup_delete_eq.
  - intros r0 room session b l [= <-] Hin (r' & Hr' & Hs')%session_of_Some Hl.
    rewrite Hred in Hr'. injection Hr' as <-. simpl in Hs'.
    rewrite sessions_fold_drop in Hs' by apply NoDup_elements.
    rewrite decide_True in Hs' by (by apply elem_of_elements).
    destruct (sessions r !! room) as [s0|]; [|done]. simpl in Hs'.
    destruct (has_users (remove_user s0 userId)); [|done]. injection Hs' as <-.
    by apply remove_user_locks in Hl as [_ Hl].
Qed.


Lemma with_locks_same session : with_locks session (sm_locks session) = session.
Proof. by destruct session. Qed.

Lemma redis_eta r : {| sessions := sessions r; userSessions := userSessions r |} = r.
Proof. by destruct r. Qed.

(** When the timer finds nothing to remove it does not write, and the sweep
    is the session itself. *)
Lemma sweep_nothing (now : string -> Z) session :
  (size (filter (fun kv => ¬ (lock_expires kv.2 < now kv.1)%Z) (sm_locks session))
   <? size (sm_locks session))%nat = false ->
  sweep now session = session.
Proof.
  intros Hsz%Nat.ltb_ge. unfold sweep.
  rewrite (map_subseteq_size_eq _ (sm_locks session)); [apply with_locks_same | | done].
  apply map_filter_subseteq.
Qed.

Lemma cleanup_room_run now roomId w r :
  redis w = Some r ->
  cleanup_room now roomId w = (Ok tt, set_redis w (Some (sweep_room now r roomId))).
Proof.
  intros Hr. destruct w as [cl d rs o]. simpl in Hr; subst cl.
  unfold cleanup_room, sweep_room. run_handler.
  destruct (sessions r !! roomId) as [session|] eqn:Hs; simpl; [|done].
  destruct (_ <? _)%nat eqn:Hsz; run_handler; [done|].
  rewrite (sweep_nothing _ _ Hsz). by rewrite insert_id, redis_eta.
Qed.

Lemma for_each_cleanup now keys w r :
  redis w = Some r ->
  for_each keys (cleanup_room now) w
  = (Ok tt, set_redis w (Some (foldl (sweep_room now) r keys))).
Proof.
  revert w r. induction keys as [|x xs IH]; intros w r Hr; simpl.
  - unfold mret, M_ret. by rewrite set_redis_id.
  - unfold mbind, M_bind. rewrite (cleanup_room_run _ _ _ _ Hr).
    rewrite (IH _ (sweep_room now r x)) by done. by destruct w.
Qed.

Lemma sessions_sweep_room now r roomId room :
  sessions (sweep_room now r roomId) !! room
  = if decide (room = roomId) then sweep (now room) <$> sessions r !! room
    else sessions r !! room.
Proof.
  unfold sweep_room. destruct (decide (room = roomId)) as [->|Hne].
  - destruct (sessions r !! roomId) as [session|] eqn:Hs; simpl.
    + by rewrite lookup_insert_eq.
    + by rewrite Hs.
  - destruct (sessions r !! roomId) as [session|]; simpl; [|done].
    by rewrite lookup_insert_ne.
Qed.

Lemma userSessions_fold_sweep now keys r :
  userSessions (foldl (sweep_room now) r keys) = userSessions r.
Proof.
  revert r. induction keys as [|x xs IH]; intros r; simpl; [done|].
  rewrite IH. unfold sweep_room. by destruct (sessions r !! x).
Qed.

Lemma sessions_fold_sweep now keys r room :
  NoDup keys ->
  sessions (foldl (sweep_room now) r keys) !! room
  = if decide (room ∈ keys) then sweep (now room) <$> sessions r !! room
    else sessions r !! room.
Proof.
  intros Hnd. revert r. induction Hnd as [|x xs Hx Hnd IH]; intros r.
  - destruct (decide (room ∈ [])) as [Hin|]; [|done]. by apply not_elem_of_nil in Hin.
  - change (foldl (sweep_room now) r (x :: xs))
      with (foldl (sweep_room now) (sweep_room now r x) xs).
    rewrite IH, !sessions_sweep_room.
    destruct (decide (room = x)) as [->|Hne].
    + rewrite (decide_False (P := x ∈ xs)) by done.
      by rewrite (decide_True (P := x ∈ x :: xs)) by apply list_elem_of_here.
    + destruct (decide (room ∈ xs)) as [Hin|Hnin].
      * by rewrite (decide_True (P := room ∈ x :: xs)) by (by apply list_elem_of_further).
      * rewrite (decide_False (P := room ∈ x :: xs)); [done|].
        by intros [?|?]%elem_of_cons.
Qed.

(** What the timer does to every record, and that it touches nothing else. *)
Lemma cleanup_sessions now w :
  exec (cleanup now) w = set_redis w (redis (exec (cleanup now) w))
  /\ forall room,
       session_of (exec (cleanup now) w) room = sweep (now room) <$> session_of w room.
Proof.
  unfold exec, cleanup, try_catch, mbind, M_bind, redis_available.
  destruct (redis w) as [r|] eqn:Hr; simpl.
  2:{ unfold session_of. rewrite Hr. split; [|done]. by rewrite <- Hr, set_redis_same. }
  unfold redis_session_keys, redis_command. rewrite Hr.
  rewrite (for_each_cleanup now _ (set_redis w (Some r)) r eq_refl). simpl.
  split; [done|]. intros room. unfold session_of; simpl. rewrite Hr; simpl.
  rewrite sessions_fold_sweep by apply NoDup_elements.
  destruct (decide (room ∈ elements (dom (sessions r)))) as [Hin|Hnin]; [done|].
  rewrite elem_of_elements in Hnin. apply not_elem_of_dom in Hnin.
  by rewrite Hnin.
Qed.

(** X12. The cleanup timer keeps every session record and removes from each
    exactly the locks whose expiry is strictly before the clock reading taken
    for them: a lock stays iff its expiry is at or after the reading.  Users
    and operation logs, the database, the rooms and the outbox are not
    touched. *)
Theorem cleanup_sweeps_expired now w :
  let w' := exec (cleanup now) w in
  (forall room session,
     session_of w room = Some session ->
     exists session',
       session_of w' room = Some session'
       /\ (forall b l, sm_locks session' !! b = Some l
                       <-> sm_locks session !! b = Some l /\ now room b <= lock_expires l)
       /\ sm_activeUsers session' = sm_activeUsers session
       /\ sm_operations session' = sm_operations session)
  /\ (forall room, session_of w room = None -> session_of w' room = None)
  /\ prisma w' = prisma w /\ rooms w' = rooms w /\ outbox w' = outbox w.
Proof.
  intros w'. destruct (cleanup_sessions now w) as [Hw' Hsweep]. fold w' in Hw', Hsweep.
  split; [|split].
  - intros room session Hs. exists (sweep (now room) session).
    rewrite Hsweep, Hs. split; [done|]. split; [|done].
    intros b l. unfold sweep; simpl. rewrite map_lookup_filter_Some. simpl.
    split; intros [? ?]; split; (done || lia).
  - intros room Hs. by rewrite Hsweep, Hs.
  - by rewrite Hw'.
Qed.


Section SessionProperties.

Variable P : RoomId -> SessionMetadata -> Prop.
Hypothesis P_kept : kept_by_updates P.

Lemma sessions_satisfy_redis w w' :
  redis w' = redis w -> sessions_satisfy P w -> sessions_satisfy P w'.
Proof. intros He H room s. unfold session_of. rewrite He. apply H. Qed.

Lemma sessions_satisfy_insert w r roomId session :
  redis w = Some r -> sessions_satisfy P w -> P roomId session ->
  forall us,
    sessions_satisfy P (set_redis w (Some {| sessions := <[roomId := session]> (sessions r);
                                            userSessions := us |})).
Proof.
  intros Hr H Hp us room s. unfold session_of; simpl.
  destruct (decide (roomId = room)) as [<-|Hne].
  - rewrite lookup_insert_eq. by intros [= <-].
  - rewrite lookup_insert_ne by done. intros Hs. apply H.
    unfold session_of. by rewrite Hr.
Qed.

Lemma P_lock_block roomId session blockId userId operation clk :
  P roomId session -> P roomId (lock_block session blockId userId operation clk).
Proof.
  destruct P_kept as (_ & _ & _ & _ & Hlocks & _ & Hpush). intros H.
  unfold lock_block. by apply Hpush, Hlocks.
Qed.

Lemma P_remove_user roomId session userId :
  P roomId session -> P roomId (remove_user session userId).
Proof.
  destruct P_kept as (_ & _ & _ & Hdel & Hlocks & _ & _). intros H.
  unfold remove_user. by apply Hlocks, Hdel.
Qed.

Lemma release_lock_satisfies w roomId blockId userId :
  sessions_satisfy P w ->
  forall w', redis w' = release_lock roomId blockId userId <$> redis w ->
             sessions_satisfy P w'.
Proof.
  destruct P_kept as (_ & _ & _ & _ & Hlocks & _ & _).
  intros H w' Hr' room s. unfold session_of. rewrite Hr'.
  destruct (redis w) as [r|] eqn:Hr; simpl; [|done]. unfold release_lock.
  destruct (sessions r !! roomId) as [s0|] eqn:Hs0.
  2:{ intros Hs. apply H. unfold session_of. by rewrite Hr. }
  destruct (held_by s0 blockId userId).
  2:{ intros Hs. apply H. unfold session_of. by rewrite Hr. }
  simpl. destruct (decide (roomId = room)) as [<-|Hne].
  - rewrite lookup_insert_eq. intros [= <-]. apply Hlocks, H.
    unfold session_of. by rewrite Hr.
  - rewrite lookup_insert_ne by done. intros Hs. apply H.
    unfold session_of. by rewrite Hr.
Qed.

Lemma block_edit_satisfies socket clk faults data w :
  sessions_satisfy P w -> sessions_satisfy P (exec (block_edit socket clk faults data) w).
Proof.
  intros H.
  set (roomId := room_id (bed_entityType data) (bed_entityId data)).
  assert (exists b w1, edit_acquire socket clk data w = (Ok b, w1)
                       /\ sessions_satisfy P w1) as (b & w1 & Hacq & H1).
  { destruct (redis w) as [r|] eqn:Hr.
    - destruct (sessions r !! roomId) as [session|] eqn:Hs.
      + destruct (locked_by_other session (bed_blockId data) (auth_userId socket)
                    (at_lock_check clk)) as [holder|] eqn:Hl.
        * do 2 eexists. split.
          { apply (edit_acquire_blocked _ _ _ _ session holder); [|done].
            apply session_of_Some; eauto. }
          by apply (sessions_satisfy_redis w).
        * do 2 eexists. split; [by apply (edit_acquire_free _ _ _ _ r session)|].
          apply sessions_satisfy_insert; [done..|].
          apply P_lock_block, H. apply session_of_Some; eauto.
      + exists true, w. split; [by apply (edit_acquire_no_session _ _ _ _ r)|done].
    - exists true, w. split; [by apply edit_acquire_no_client|done]. }
  destruct b.
  - unfold exec. rewrite (block_edit_proceeds _ _ faults _ _ _ Hacq).
    destruct (edit_apply_total socket clk faults data w1)
      as (w2 & d & -> & _ & _ & _ & [Hred | Hred]); simpl.
    + by apply (sessions_satisfy_redis w1).
    + by apply (release_lock_satisfies w1 _ _ _ H1 w2 Hred).
  - unfold exec, block_edit, try_catch, mbind, M_bind. by rewrite Hacq.
Qed.

Lemma cursor_satisfies socket clk data w :
  sessions_satisfy P w -> sessions_satisfy P (exec (cursor socket clk data) w).
Proof.
  destruct P_kept as (_ & _ & Hcursor & _ & _ & _ & _). intros H.
  destruct w as [[r|] d rs o]; unfold exec, cursor; run_handler; [|done].
  destruct (sessions r !! _) as [session|] eqn:Hs; simpl; [|done].
  destruct (sm_activeUsers session !! auth_userId socket) as [user|] eqn:Hu; simpl;
    [|done].
  intros room s. unfold session_of; simpl.
  destruct (decide (room_id (cd_entityType data) (cd_entityId data) = room)) as [<-|Hne].
  - rewrite lookup_insert_eq. intros [= <-].
    by apply (Hcursor _ _ _ _ _ _ Hu), (H _ session).
  - rewrite lookup_insert_ne by done. apply H.
Qed.

Lemma join_satisfies socket clk faults data w :
  sessions_satisfy P w -> sessions_satisfy P (exec (join socket clk faults data) w).
Proof.
  destruct P_kept as (Hfresh & Husers & _ & _ & _ & Hact & _). intros H.
  destruct w as [cl d rs o].
  unfold exec, join, checkCollaborationAccess. run_handler.
  destruct (access_fault faults) as [e|]; simpl; [done|].
  destruct (match jd_entityType data with
            | sermon => db_sermons d !! jd_entityId data
            | series => db_series d !! jd_entityId data
            end) as [doc|]; simpl; [|done].
  destruct (bool_decide _ || bool_decide _); simpl; [|done].
  unfold socket_join; simpl.
  destruct (user_fault faults) as [e|]; simpl; [done|].
  destruct (db_users d !! auth_userId socket) as [user|]; simpl; [|done].
  unfold join_store, join_reply, redis_sadd. run_handler.
  destruct cl as [r|]; simpl; [|done].
  rewrite lookup_insert_eq. simpl.
  intros room s. unfold session_of; simpl.
  destruct (decide (room_id (jd_entityType data) (jd_entityId data) = room)) as [<-|Hne].
  - rewrite lookup_insert_eq. intros [= <-].
    destruct (sessions r !! _) as [session|] eqn:Hs.
    + by apply Hact, Husers, (H _ session).
    + by apply Hfresh.
  - rewrite lookup_insert_ne by done. apply H.
Qed.

Lemma leave_satisfies socket now data w :
  sessions_satisfy P w -> sessions_satisfy P (exec (leave socket now data) w).
Proof.
  intros H. destruct (redis w) as [r|] eqn:Hr.
  2:{ apply (sessions_satisfy_redis w); [|done].
      destruct w as [cl d rs o]. simpl in Hr; subst cl.
      unfold exec, leave, socket_leave. by run_handler. }
  intros room s. unfold session_of. rewrite (leave_redis _ _ _ _ _ Hr). simpl.
  set (roomId := room_id (rd_entityType data) (rd_entityId data)).
  destruct (sessions r !! roomId) as [s0|] eqn:Hs0; simpl.
  2:{ intros Hs. apply H. unfold session_of. by rewrite Hr. }
  rewrite sessions_drop_user, Hs0. simpl.
  destruct (decide (room = roomId)) as [->|Hne].
  - destruct (has_users _); [|done]. intros [= <-]. apply P_remove_user, H.
    unfold session_of. by rewrite Hr.
  - intros Hs. apply H. unfold session_of. by rewrite Hr.
Qed.

Lemma disconnect_satisfies socket now w :
  sessions_satisfy P w -> sessions_satisfy P (exec (disconnect socket now) w).
Proof.
  intros H. destruct (redis w) as [r|] eqn:Hr.
  2:{ apply (sessions_satisfy_redis w); [|done].
      destruct w as [cl d rs o]. simpl in Hr; subst cl.
      unfold exec, disconnect. by run_handler. }
  intros room s. unfold session_of. rewrite (disconnect_redis _ _ _ _ Hr). simpl.
  rewrite sessions_fold_drop by apply NoDup_elements.
  destruct (decide (room ∈ _)).
  - destruct (sessions r !! room) as [s0|] eqn:Hs0; [|done]. simpl.
    destruct (has_users _); [|done]. intros [= <-]. apply P_remove_user, H.
    unfold session_of. by rewrite Hr.
  - intros Hs. apply H. unfold session_of. by rewrite Hr.
Qed.

Lemma cleanup_satisfies now w :
  sessions_satisfy P w -> sessions_satisfy P (exec (cleanup now) w).
Proof.
  destruct P_kept as (_ & _ & _ & _ & Hlocks & _ & _). intros H room s.
  destruct (cleanup_sessions now w) as [_ Hsweep]. rewrite Hsweep.
  destruct (session_of w room) as [s0|] eqn:Hs0; [|done].
  intros [= <-]. by apply Hlocks, H.
Qed.

Lemma run_satisfies inputs w :
  sessions_satisfy P w -> sessions_satisfy P (run inputs w).
Proof.
  revert w. induction inputs as [|i inputs IH]; intros w H; simpl; [done|].
  apply IH. destruct i; simpl.
  - by apply join_satisfies.
  - by apply leave_satisfies.
  - by apply cursor_satisfies.
  - by apply block_edit_satisfies.
  - by apply disconnect_satisfies.
  - by apply cleanup_satisfies.
Qed.

Lemma reachable_sessions_satisfy w : reachable w -> sessions_satisfy P w.
Proof.
  intros (client & d & inputs & ->). apply run_satisfies.
  intros room s. unfold session_of, initial; simpl.
  destruct client; simpl; [|done]. by rewrite lookup_empty.
Qed.

End SessionProperties.


(** ** The properties at work in the scenario *)

Lemma delete_removes_range_witness :
  apply_operation (delete_op "b1" 1 3) "Grace" = "Ge".
Proof.
  destruct (delete_removes_range "b1" 1 3 "Grace") as [H _].
  - discriminate.
  - exact H.
Defined.

(** A delete with negative length repeats text. *)
Example delete_negative_length :
  apply_operation (delete_op "b1" 5 (-2)) "Grace!" = "Gracece!".
Proof. reflexivity. Qed.

Lemma insert_then_delete_restores_witness :
  apply_operation (delete_op "b1" 2 (Js.len "xy"))
    (apply_operation (insert_op "b1" 2 "xy") "Grace") = "Grace".
Proof.
  apply (insert_then_delete_restores "b1" 2 "xy" "Grace").
  - vm_compute. split; discriminate.
  - discriminate.
Defined.


Lemma holder_refreshes_lock_witness :
  exists w1,
    edit_acquire alice (clock_at 40000) (edit_b1 (insert_op "b1" 0 "x"))
      (demo_world lock_of_A "Grace") = (Ok true, w1)
    /\ outbox w1 = []
    /\ (sm_locks <$> session_of w1 "sermon:D1")
       = Some {[ "b1" := {| lock_userId := "A"; lock_expires := 70000 |} ]}.
Proof.
  destruct (holder_refreshes_lock alice (clock_at 40000)
              (edit_b1 (insert_op "b1" 0 "x")) (demo_world lock_of_A "Grace")
              (demo_store lock_of_A) (demo_session lock_of_A) 31000)
    as (w1 & H1 & H2 & H3).
  - reflexivity.
  - reflexivity.
  - reflexivity.
  - exists w1. split; [exact H1|]. split; [exact H2|]. exact H3.
Defined.



Lemma join_admits_witness :
  exists session',
    session_of (exec (join alice (join_clock_at 10) no_join_faults join_D1)
                  (initial true (demo_db EmptyString))) "sermon:D1" = Some session'
    /\ dom (sm_activeUsers session') = {[ "A" ]}
    /\ sm_locks session' = ∅.
Proof.
  destruct (join_admits alice (join_clock_at 10) join_D1
              (initial true (demo_db EmptyString))
              {| sessions := ∅; userSessions := ∅ |}
              {| up_firstName := "Ann"; up_lastName := "Lee"; up_avatarUrl := None |})
    as (session' & H1 & H2 & H3 & _).
  - reflexivity.
  - eexists. split; [reflexivity|]. left. reflexivity.
  - reflexivity.
  - exists session'. split; [exact H1|]. split; [|exact H3].
    rewrite H2. vm_compute. reflexivity.
Defined.

Lemma cursor_stores_position_witness :
  session_of (exec (cursor alice (cursor_clock_at 5) cursor_in_b1)
                (demo_world ∅ "Grace")) "sermon:D1"
  = Some (with_activeUsers (demo_session ∅)
            (<[ "A" := with_cursor (participant "A")
                         {| cp_blockId := "b1"; cp_position := 3 |} 5 ]>
               (sm_activeUsers (demo_session ∅)))).
Proof.
  destruct (cursor_stores_position alice (cursor_clock_at 5) cursor_in_b1
              (demo_world ∅ "Grace") (demo_store ∅) (demo_session ∅) (participant "A"))
    as [H _].
  - reflexivity.
  - reflexivity.
  - reflexivity.
  - exact H.
Defined.

Lemma cursor_of_outsider_is_broadcast_witness :
  redis (exec (cursor carol (cursor_clock_at 5) cursor_in_b1) (demo_world ∅ "Grace"))
  = redis (demo_world ∅ "Grace")
  /\ length (outbox (exec (cursor carol (cursor_clock_at 5) cursor_in_b1)
                       (demo_world ∅ "Grace"))) = 1%nat.
Proof.
  unfold exec.
  rewrite (cursor_of_outsider_is_broadcast carol (cursor_clock_at 5) cursor_in_b1
             (demo_world ∅ "Grace")).
  - split; reflexivity.
  - intros session H. vm_compute in H. injection H as <-. reflexivity.
Defined.


Lemma disconnect_delists_user_witness :
  let w := demo_world lock_of_A "Grace" in
  exists session,
    session_of (exec (disconnect alice (fun _ => 20)) w) "sermon:D1" = Some session
    /\ sm_activeUsers session !! "A" = None.
Proof.
  intros w.
  destruct (disconnect_delists_user alice (fun _ => 20) w) as (Hgone & _).
  - intros r room session [= <-] Hs Hu. simpl in Hs.
    apply lookup_singleton_Some in Hs as [<- _].
    unfold smembers. simpl. rewrite lookup_insert_eq. simpl.
    by apply elem_of_singleton.
  - destruct (session_of (exec (disconnect alice (fun _ => 20)) w) "sermon:D1")
      as [session|] eqn:Hs.
    + exists session. split; [reflexivity|]. exact (Hgone "sermon:D1" session Hs).
    + exfalso. vm_compute in Hs. discriminate.
Defined.

(** A sweep at 31000 keeps A's lock (expiry 31000 is not before the reading);
    a sweep at 31001 removes it.  The edit test, at 31000, already ignores the
    lock. *)
Example sweep_boundary :
  (sm_locks <$> session_of (exec (cleanup (fun _ _ => 31000)) (demo_world lock_of_A "Grace"))
                  "sermon:D1") = Some lock_of_A
  /\ (sm_locks <$> session_of (exec (cleanup (fun _ _ => 31001))
                                 (demo_world lock_of_A "Grace")) "sermon:D1") = Some ∅
  /\ locked_by_other (demo_session lock_of_A) "b1" "B" 31000 = None.
Proof. vm_compute. done. Qed.

(** ** The operation log and the key of a record *)

Lemma length_push_operation ops op :
  length (push_operation ops op) = Nat.min (S (length ops)) OPERATIONS_MAX_LENGTH.
Proof.
  unfold push_operation.
  assert (length (ops ++ [op]) = S (length ops)) as Hlen
    by (rewrite List.length_app; simpl; lia).
  rewrite Hlen. generalize OPERATIONS_MAX_LENGTH as cap. intros cap.
  destruct (cap <? S (length ops))%nat eqn:Hlt.
  - apply Nat.ltb_lt in Hlt. rewrite list.length_drop, Hlen. lia.
  - apply Nat.ltb_ge in Hlt. lia.
Qed.



(** X13. In every state the service reaches, the operation log of every
    session record has at most [OPERATIONS_MAX_LENGTH] (100) entries. *)
Theorem operation_log_bounded w roomId session :
  reachable w ->
  session_of w roomId = Some session ->
  (length (sm_operations session) <= OPERATIONS_MAX_LENGTH)%nat.
Proof.
  intros Hreach Hs.
  apply (reachable_sessions_satisfy
           (fun _ s => (length (sm_operations s) <= OPERATIONS_MAX_LENGTH)%nat))
    with (w := w) (roomId := roomId); [|done..].
  split_and!; simpl; try done.
  - intros; unfold OPERATIONS_MAX_LENGTH; lia.
  - intros room s op _. rewrite length_push_operation. lia.
Qed.

Lemma operation_log_bounded_witness :
  let w := run [OnBlockEdit bob (clock_at 2000) no_faults
                  (edit_b1 (insert_op "b1" 5 "!"))] after_A_joined in
  exists session,
    session_of w "sermon:D1" = Some session
    /\ (length (sm_operations session) <= OPERATIONS_MAX_LENGTH)%nat.
Proof.
  intros w.
  destruct (session_of w "sermon:D1") as [session|] eqn:Hs.
  - exists session. split; [reflexivity|].
    apply (operation_log_bounded w "sermon:D1" session); [|exact Hs].
    exists true, (demo_db EmptyString),
      [OnJoin alice (join_clock_at 10) no_join_faults join_D1;
       OnBlockEdit bob (clock_at 2000) no_faults (edit_b1 (insert_op "b1" 5 "!"))].
    reflexivity.
  - exfalso. vm_compute in Hs. discriminate.
Defined.

(** X14. In every state the service reaches, a session record is stored under
    the room id made of its own [entityType] and [entityId]. *)
Theorem session_key_matches_entity w roomId session :
  reachable w ->
  session_of w roomId = Some session ->
  roomId = room_id (sm_entityType session) (sm_entityId session).
Proof.
  intros Hreach Hs.
  apply (reachable_sessions_satisfy
           (fun room s => room = room_id (sm_entityType s) (sm_entityId s)))
    with (w := w); [|done..].
  by split_and!.
Qed.

Lemma session_key_matches_entity_witness :
  let session :=
    joined_session {| sessions := ∅; userSessions := ∅ |} "A" (join_clock_at 10) join_D1
      (collaboration_user "A"
         {| up_firstName := "Ann"; up_lastName := "Lee"; up_avatarUrl := None |}
         None 10) in
  session_of after_A_joined "sermon:D1" = Some session
  /\ "sermon:D1" = room_id (sm_entityType session) (sm_entityId session).
Proof.
  intros session.
  assert (session_of after_A_joined "sermon:D1" = Some session) as Hs by reflexivity.
  split; [exact Hs|].
  apply (session_key_matches_entity after_A_joined "sermon:D1" session); [|exact Hs].
  exists true, (demo_db EmptyString),
    [OnJoin alice (join_clock_at 10) no_join_faults join_D1].
  reflexivity.
Defined.


(** ** Queries on the store *)





Lemma split_colon_nonempty s : exists part parts, split_colon s = part :: parts.
Proof.
  induction s as [|c s (part & parts & IH)]; simpl; [by eexists _, _|].
  destruct (is_colon c); [by eexists _, _|]. rewrite IH. by eexists _, _.
Qed.



Lemma active_user_list_nil session :
  active_user_list session = [] <-> sm_activeUsers session = ∅.
Proof.
  unfold active_user_list. split.
  - intros H%fmap_nil_inv. by apply map_to_list_empty_iff.
  - intros ->. by rewrite map_to_list_empty.
Qed.

(** X16. [getSessionUsers] answers the users of the room's record, never
    throws and changes nothing; in any state the service reaches, the answer
    is empty exactly when the room has no record (or there is no Redis). *)
Theorem getSessionUsers_empty_iff_no_session entityType entityId w :
  reachable w ->
  exists users,
    getSessionUsers entityType entityId w = (Ok users, w)
    /\ (users = [] <-> session_of w (room_id entityType entityId) = None)
    /\ (forall session,
          session_of w (room_id entityType entityId) = Some session ->
          users = active_user_list session).
Proof.
  intros Hok%reachable_ok.
  destruct (redis w) as [r|] eqn:Hr.
  2:{ exists []. unfold getSessionUsers, mbind, M_bind, redis_available, session_of.
      rewrite Hr. simpl. split; [done|]. split; [done|]. done. }
  unfold getSessionUsers, mbind, M_bind, redis_available, try_catch, redis_get,
    redis_command, session_of.
  rewrite Hr. simpl. rewrite Hr, (set_redis_id _ _ Hr).
  destruct (sessions r !! room_id entityType entityId) as [session|] eqn:Hs; simpl.
  - eexists. split; [done|]. split; [|by intros ? [= <-]].
    split; [|done]. intros Hnil%active_user_list_nil.
    destruct (Hok r Hr (room_id entityType entityId) (dom (sm_activeUsers session)))
      as [Hne _].
    + unfold present. by rewrite Hs.
    + exfalso. apply Hne. rewrite Hnil. apply dom_empty_L.
  - exists []. split; [done|]. split; [done|]. done.
Qed.


(** ** The client's list and the snapshot of a session *)

Lemma listed_spec id users : listed id users = true <-> id ∈ shown_ids users.
Proof.
  unfold listed, shown_ids. rewrite existsb_exists, list_elem_of_fmap.
  split.
  - intros (u & Hin & Hu%bool_decide_eq_true). exists u. split; [done|].
    by apply list_elem_of_In.
  - intros (u & -> & Hin). exists u. split; [by apply list_elem_of_In|].
    by apply bool_decide_eq_true.
Qed.

Lemma shown_ids_cursor userId position now users :
  shown_ids ((fun user => if bool_decide (cu_id user = userId)
                          then with_cursor user position now else user) <$> users)
  = shown_ids users.
Proof.
  unfold shown_ids. rewrite <- list_fmap_compose. apply list_fmap_ext.
  intros i u _. simpl. by destruct (bool_decide _).
Qed.

(** X18. The client's update of its list of active users on a
    [collaboration] message never introduces a second entry with the same
    id, whatever the message (and whatever the [isMounted] ref holds). *)
Theorem client_list_keeps_distinct_ids isMounted now payload prev :
  NoDup (shown_ids prev) ->
  NoDup (shown_ids (on_collaboration isMounted now payload prev)).
Proof.
  intros Hnd. unfold on_collaboration.
  destruct isMounted; simpl; [|done].
  destruct (cep_event payload), (cep_data payload); try done.
  - destruct (listed (cu_id user) prev) eqn:Hl; [done|].
    unfold shown_ids. rewrite fmap_app. apply NoDup_app. split; [done|]. split.
    + intros id Hin [->|[]%elem_of_nil]%elem_of_cons.
      apply listed_spec in Hin. congruence.
    + apply NoDup_singleton.
  - apply (sublist_NoDup _ (shown_ids prev)); [done|apply fmap_sublist, sublist_filter].
  - by rewrite shown_ids_cursor.
Qed.

Lemma shown_ids_active_user_list session id :
  (forall key user, sm_activeUsers session !! key = Some user -> cu_id user = key) ->
  id ∈ shown_ids (active_user_list session) <-> is_Some (sm_activeUsers session !! id).
Proof.
  intros Hkeys. unfold shown_ids, active_user_list.
  rewrite list_elem_of_fmap. split.
  - intros (u & -> & ([k u'] & -> & Hin%elem_of_map_to_list)%list_elem_of_fmap).
    simpl. rewrite (Hkeys _ _ Hin). eauto.
  - intros [u Hu]. exists u. split; [by rewrite (Hkeys _ _ Hu)|].
    apply list_elem_of_fmap. exists (id, u). split; [done|].
    by apply elem_of_map_to_list.
Qed.

Lemma keyed_entries_kept :
  kept_by_updates
    (fun _ s => forall key u, sm_activeUsers s !! key = Some u -> cu_id u = key).
Proof.
  split_and!; simpl; try done.
  - intros _ _ _ uid me Hme key u [<- <-]%lookup_singleton_Some. done.
  - intros _ s uid me Hme IH key u [[<- <-] | [_ H]]%lookup_insert_Some; eauto.
  - intros _ s uid u0 position now Hu0 IH key u [[<- <-] | [_ H]]%lookup_insert_Some;
      simpl; eauto.
  - intros _ s uid IH key u [_ H]%lookup_delete_Some. eauto.
Qed.

(** X21. In every state the service reaches, each entry of a session record
    is stored under the id it carries. *)
Theorem entries_keyed_by_id w roomId session userId user :
  reachable w ->
  session_of w roomId = Some session ->
  sm_activeUsers session !! userId = Some user ->
  cu_id user = userId.
Proof.
  intros Hreach Hs Hu.
  by apply (reachable_sessions_satisfy _ keyed_entries_kept w Hreach roomId session Hs).
Qed.

Lemma entries_keyed_by_id_witness :
  let me := collaboration_user "A"
              {| up_firstName := "Ann"; up_lastName := "Lee"; up_avatarUrl := None |}
              None 10 in
  let session :=
    joined_session {| sessions := ∅; userSessions := ∅ |} "A" (join_clock_at 10)
      join_D1 me in
  session_of after_A_joined "sermon:D1" = Some session
  /\ sm_activeUsers session !! "A" = Some me
  /\ cu_id me = "A".
Proof.
  intros me session.
  assert (session_of after_A_joined "sermon:D1" = Some session) as Hs by reflexivity.
  assert (sm_activeUsers session !! "A" = Some me) as Hme by reflexivity.
  split_and!; [exact Hs | exact Hme |].
  apply (entries_keyed_by_id after_A_joined "sermon:D1" session "A" me);
    [|exact Hs | exact Hme].
  exists true, (demo_db EmptyString),
    [OnJoin alice (join_clock_at 10) no_join_faults join_D1].
  reflexivity.
Defined.

(** X22. The [session] snapshot [join] sends to the joiner names exactly the
    users of the room's record after the join, each of them once (in any state
    the service reaches, for an admitted join that meets no failure). *)
Theorem snapshot_shows_record socket clk data w r user :
  let roomId := room_id (jd_entityType data) (jd_entityId data) in
  let userId := auth_userId socket in
  let w' := exec (join socket clk no_join_faults data) w in
  reachable w ->
  redis w = Some r ->
  may_collaborate (prisma w) userId (jd_entityType data) (jd_entityId data) ->
  db_users (prisma w) !! userId = Some user ->
  exists snapshot session',
    (dl_message <$> sent (join socket clk no_join_faults data) w) !! 1%nat
      = Some (SessionMsg snapshot)
    /\ session_of w' roomId = Some session'
    /\ shows (ss_activeUsers snapshot) (sm_activeUsers session')
    /\ NoDup (shown_ids (ss_activeUsers snapshot)).
Proof.
  intros roomId userId w' Hreach Hr Hacc Hu.
  pose proof (join_run socket clk data w r user Hr Hacc Hu) as Hrun.
  cbv zeta in Hrun. fold roomId userId in Hrun.
  set (me := collaboration_user userId user (jd_displayName data) (at_user_activity clk))
    in *.
  assert (session_of w' roomId = Some (joined_session r userId clk data me)) as Hs'.
  { unfold w', exec. rewrite Hrun. unfold session_of. simpl. apply lookup_insert_eq. }
  assert (forall key u,
            sm_activeUsers (joined_session r userId clk data me) !! key = Some u ->
            cu_id u = key) as Hkeys.
  { assert (reachable w') as Hreach'.
    { destruct Hreach as (client & d & inputs & ->).
      exists client, d, (inputs ++ [OnJoin socket clk no_join_faults data]).
      unfold w', run. by rewrite foldl_app. }
    by apply (reachable_sessions_satisfy _ keyed_entries_kept w' Hreach' roomId _ Hs'). }
  eexists _, (joined_session r userId clk data me).
  split; [|split; [done|split]].
  - unfold sent, exec. rewrite Hrun. simpl. by rewrite drop_app_length.
  - intros id. simpl. by apply shown_ids_active_user_list.
  - simpl. unfold shown_ids, active_user_list.
    rewrite <- list_fmap_compose.
    erewrite (list_fmap_ext _ fst); [apply NoDup_fst_map_to_list|].
    intros i [key u] Hi. simpl. apply Hkeys.
    apply elem_of_map_to_list. by apply list_elem_of_lookup_2 in Hi.
Qed.

Lemma getSessionUsers_empty_iff_no_session_witness :
  exists users,
    getSessionUsers sermon "D1" after_A_joined = (Ok users, after_A_joined)
    /\ users <> [].
Proof.
  destruct (getSessionUsers_empty_iff_no_session sermon "D1" after_A_joined)
    as (users & H1 & H2 & _).
  - exists true, (demo_db EmptyString),
      [OnJoin alice (join_clock_at 10) no_join_faults join_D1].
    reflexivity.
  - exists users. split; [exact H1|]. intros Hnil. apply H2 in Hnil. discriminate.
Defined.


(** An entity id with a colon is cut at the colon, and the id rebuilt from the
    parts is not the key. *)
Example report_cuts_at_colon :
  let report := report_session (room_id sermon "a:b") (demo_session ∅) in
  cs_entityId report = Some "a" /\ cs_id report = "sermon:a".
Proof. split; reflexivity. Qed.

Lemma client_list_keeps_distinct_ids_witness :
  NoDup (shown_ids (on_collaboration true 7
                      {| cep_event := USER_JOINED; cep_sessionId := "sermon:D1";
                         cep_userId := "A"; cep_timestamp := 5;
                         cep_data := JoinedData (participant "A") |}
                      [participant "A"; participant "B"])).
Proof.
  apply (client_list_keeps_distinct_ids true 7 _ [participant "A"; participant "B"]).
  apply NoDup_cons. split.
  - intros [H | H]%elem_of_cons; [discriminate|]. by apply elem_of_nil in H.
  - apply NoDup_singleton.
Defined.

Lemma snapshot_shows_record_witness :
  exists snapshot session',
    (dl_message <$> sent (join alice (join_clock_at 10) no_join_faults join_D1)
                      (initial true (demo_db EmptyString))) !! 1%nat
      = Some (SessionMsg snapshot)
    /\ session_of (exec (join alice (join_clock_at 10) no_join_faults join_D1)
                     (initial true (demo_db EmptyString))) "sermon:D1" = Some session'
    /\ shows (ss_activeUsers snapshot) (sm_activeUsers session')
    /\ NoDup (shown_ids (ss_activeUsers snapshot)).
Proof.
  apply (snapshot_shows_record alice (join_clock_at 10) join_D1
           (initial true (demo_db EmptyString))
           {| sessions := ∅; userSessions := ∅ |}
           {| up_firstName := "Ann"; up_lastName := "Lee"; up_avatarUrl := None |}).
  - exists true, (demo_db EmptyString), []. reflexivity.
  - reflexivity.
  - eexists. split; [reflexivity|]. left. reflexivity.
  - reflexivity.
Defined.

(** ** The block and comment handlers *)

Ltac run_content :=
  unfold mbind, mret, Handler_bind, Handler_ret, attempt, raise, post, query; simpl.

Lemma hub_eta (h : Hub) :
  {| tables := tables h; hub_rooms := hub_rooms h; posted := posted h |} = h.
Proof. by destruct h. Qed.


(** The roles found for a user hold [EDITOR] exactly when a collaborator row
    of the user does. *)
Lemma editor_found (s : SermonRow) (userId : UserId) :
  existsb (fun role => bool_decide (role = EDITOR))
    (sc_role <$> filter (fun c => sc_userId c = userId) (sermon_collaborators s)) = true
  <-> exists c, c ∈ sermon_collaborators s /\ sc_userId c = userId /\ sc_role c = EDITOR.
Proof.
  rewrite existsb_exists. split.
  - intros (role & Hin & Hrole). apply bool_decide_eq_true in Hrole as ->.
    apply list_elem_of_In, list_elem_of_fmap in Hin as (c & Hrole & Hc).
    apply list_elem_of_filter in Hc as [Hu Hc]. by exists c.
  - intros (c & Hc & Hu & Hrole). exists EDITOR. split; [|by apply bool_decide_eq_true].
    apply list_elem_of_In, list_elem_of_fmap. exists c. split; [done|].
    by apply list_elem_of_filter.
Qed.

(** X23. [block:delete] by a user who did not create the block's sermon, has
    no EDITOR collaborator row on it and is not an ADMIN: the one effect is a
    DELETE_ERROR to the caller whose details say that the permission is
    missing; the tables are as before. *)
Theorem delete_requires_permission member run data h block s :
  let socket := member_socket member in
  bdd_entityType data = sermon ->
  lookup_fault run = None ->
  tb_blocks (tables h) !! bdd_blockId data = Some block ->
  tb_sermons (tables h) !! blk_sermonId block = Some s ->
  sermon_createdById s <> auth_userId socket ->
  (forall c, c ∈ sermon_collaborators s ->
             sc_userId c = auth_userId socket -> sc_role c <> EDITOR) ->
  auth_role member <> ADMIN ->
  block_delete member run data h
  = (Ok tt,
     {| tables := tables h; hub_rooms := hub_rooms h;
        posted := posted h ++
          [{| pt_target := ToSocket (socket_id socket);
              pt_recipients := {[socket_id socket]};
              pt_message :=
                ContentError "DELETE_ERROR" "Failed to delete block"
                  (Some "You do not have permission to delete this block") |}] |}).
Proof.
  intros socket Htype Hfault Hblock Hs Hcreator Hroles Hadmin.
  unfold block_delete, sermonBlock_findUnique_with_sermon. rewrite Htype, Hfault.
  run_content. rewrite Hblock. simpl. rewrite Hs. simpl.
  assert (may_delete member (sermon_createdById s)
            (sc_role <$> filter (fun c => sc_userId c = auth_userId (member_socket member))
                           (sermon_collaborators s)) = false) as ->.
  { unfold may_delete.
    rewrite (bool_decide_eq_false_2 _ Hcreator), (bool_decide_eq_false_2 _ Hadmin).
    destruct (existsb _ _) eqn:He; [|done].
    apply editor_found in He as (c & Hc & Hu & Hrole). by destruct (Hroles c Hc Hu). }
  simpl. reflexivity.
Qed.




(** X25. What [block:delete] does to the tables does not depend on the entity
    id of the request: the permission is that on the sermon of the block, not
    on the sermon named. *)
Theorem delete_ignores_entity member run d1 d2 h :
  bdd_entityType d1 = bdd_entityType d2 ->
  bdd_blockId d1 = bdd_blockId d2 ->
  tables (outcome (block_delete member run d1) h)
  = tables (outcome (block_delete member run d2) h).
Proof.
  intros Htype Hblock.
  unfold outcome, block_delete, sermonBlock_findUnique_with_sermon, sermonBlock_delete.
  rewrite Htype, Hblock. destruct (bdd_entityType d2); [|reflexivity].
  run_content. destruct (lookup_fault run); [reflexivity|].
  destruct (tb_blocks (tables h) !! bdd_blockId d2) as [block|] eqn:Hb; simpl;
    [|reflexivity].
  destruct (tb_sermons (tables h) !! blk_sermonId block) as [s|]; simpl; [|reflexivity].
  destruct (may_delete _ _ _); simpl; [|reflexivity].
  destruct (delete_fault run); simpl; [reflexivity|].
  rewrite Hb. reflexivity.
Qed.


Lemma tables_eta (t : Tables) :
  {| tb_users := tb_users t; tb_sermons := tb_sermons t; tb_blocks := tb_blocks t;
     tb_versions := tb_versions t; tb_comments := tb_comments t;
     tb_notifications := tb_notifications t |} = t.
Proof. by destruct t. Qed.


(** The loop creates a notification for a first part of the users and leaves
    everything else alone. *)
Lemma notify_each_run faults row users : forall i h,
  exists k res,
    notify_each faults i row users h
    = (res, {| tables := set_tb_notifications (tables h)
                           (tb_notifications (tables h) ++ (row <$> take k users));
               hub_rooms := hub_rooms h; posted := posted h |})
    /\ (res = Ok tt -> (k = length users)%nat).
Proof.
  induction users as [|user rest IH]; intros i h.
  - exists 0%nat, (Ok tt). simpl. split; [|done].
    unfold mret, Handler_ret, set_tb_notifications. rewrite app_nil_r, tables_eta.
    by rewrite hub_eta.
  - simpl. unfold notification_create. run_content.
    destruct (faults i) as [e|].
    { exists 0%nat, (Throw e). simpl. split; [|done].
      unfold set_tb_notifications. rewrite app_nil_r, tables_eta. by rewrite hub_eta. }
    destruct (Js.defined (tb_users (tables h) !! ntf_userId (row user))); simpl.
    + match goal with |- context [notify_each faults (S i) row rest ?h1] =>
        destruct (IH (S i) h1) as (k & res & -> & Hk) end.
      exists (S k), res. simpl. split.
      * unfold set_tb_notifications. simpl. by rewrite <- app_assoc.
      * intros Hres. by rewrite (Hk Hres).
    + exists 0%nat, (Throw (Some "Invalid prisma.notification.create() invocation")).
      simpl. split; [|done].
      unfold set_tb_notifications. rewrite app_nil_r, !tables_eta. by rewrite hub_eta.
Qed.


Lemma usersToNotify_spec s userId u :
  u ∈ usersToNotify s userId
  <-> u <> userId
      /\ (u = sermon_createdById s
          \/ exists c, c ∈ sermon_collaborators s /\ sc_userId c = u).
Proof.
  unfold usersToNotify.
  rewrite list_elem_of_filter, elem_of_app, list_elem_of_singleton, list_elem_of_fmap.
  split.
  - intros [Hne [(c & -> & Hc) | ->]]; (split; [done|]); [right | by left].
    by exists c.
  - intros [Hne [-> | (c & Hc & <-)]]; (split; [done|]); [by right | left].
    by exists c.
Qed.

(** X27. Whatever happens in [comment:add], the notifications it adds are
    appended to the table, none is addressed to the author of the comment, each
    is of type COMMENT and refers to the new comment; a comment on a series
    adds none. *)
Theorem comment_never_notifies_author member run data h :
  let userId := auth_userId (member_socket member) in
  let h' := outcome (comment_add member run data) h in
  exists new,
    tb_notifications (tables h') = tb_notifications (tables h) ++ new
    /\ (forall n, n ∈ new ->
          ntf_userId n <> userId
          /\ ntf_type n = "COMMENT"
          /\ ntf_entityId n = Some (comment_id run))
    /\ (cad_entityType data = series -> new = []).
Proof.
  intros userId h'. subst h'. unfold outcome, comment_add, comment_create.
  assert (forall t : list NotificationRow, t = t ++ []) as Hnil
    by (intros; by rewrite app_nil_r).
  run_content.
  destruct (comment_fault run); simpl.
  { exists []. split_and!; [done| |done]. by intros n ?%elem_of_nil. }
  destruct (tb_users (tables h) !! userId) as [author|] eqn:Hauthor; simpl;
    fold userId; rewrite ?Hauthor; simpl.
  2: { exists []. split_and!; [done| |done]. by intros n ?%elem_of_nil. }
  destruct (comment_accepted _ _ _); simpl.
  2: { exists []. split_and!; [done| |done]. by intros n ?%elem_of_nil. }
  destruct (cad_entityType data) eqn:Htype; simpl.
  2: { exists []. split_and!; [done| |done]. by intros n ?%elem_of_nil. }
  unfold sermon_findUnique. run_content.
  destruct (sermon_fault run); simpl.
  { exists []. split_and!; [done| |done]. by intros n ?%elem_of_nil. }
  destruct (tb_sermons (tables h) !! cad_entityId data) as [s|]; simpl.
  2: { exists []. split_and!; [done| |done]. by intros n ?%elem_of_nil. }
  match goal with |- context [notify_each ?f ?i ?r ?u ?h1] =>
    destruct (notify_each_run f r u i h1) as (k & res & -> & _) end.
  exists ((fun user => comment_notification user (author_view userId author)
                         (sermon_title s) (comment_id run))
            <$> take k (usersToNotify s userId)).
  split_and!.
  - by destruct res.
  - intros n (u & -> & Hu%subseteq_take%usersToNotify_spec)%list_elem_of_fmap.
    simpl. by destruct Hu.
  - done.
Qed.






Lemma delete_requires_permission_witness :
  block_delete (as_member carol PASTOR) (delete_run_at 9) (delete_b1_in "D1") demo_hub
  = (Ok tt,
     {| tables := demo_tables; hub_rooms := demo_rooms;
        posted :=
          [{| pt_target := ToSocket "socket-c"; pt_recipients := {["socket-c"]};
              pt_message :=
                ContentError "DELETE_ERROR" "Failed to delete block"
                  (Some "You do not have permission to delete this block") |}] |}).
Proof.
  apply (delete_requires_permission (as_member carol PASTOR) (delete_run_at 9)
           (delete_b1_in "D1") demo_hub (demo_block None "one") demo_sermon).
  - reflexivity.
  - reflexivity.
  - reflexivity.
  - reflexivity.
  - discriminate.
  - intros c [-> | Hc]%elem_of_cons Hu; [discriminate|].
    apply list_elem_of_singleton in Hc as ->. discriminate.
  - discriminate.
Defined.


Lemma delete_ignores_entity_witness :
  tables (outcome (block_delete (as_member bob GUEST) (delete_run_at 9)
                     (delete_b1_in "D1")) demo_hub)
  = tables (outcome (block_delete (as_member bob GUEST) (delete_run_at 9)
                       (delete_b1_in "D2")) demo_hub).
Proof.
  apply (delete_ignores_entity (as_member bob GUEST) (delete_run_at 9)
           (delete_b1_in "D1") (delete_b1_in "D2") demo_hub); reflexivity.
Defined.



